(** * TTK CoreGraphics renderer: a model of [coregraphics_render.cpp]

    The per-frame pipeline of [src/ttk/backends/coregraphics_render.cpp]:
    the three caches, the rectangle batcher, the dirty-region mapping, the
    grid and colour-table parsers, the two rendering passes and
    [render_frame]; the module's maintenance functions [clear_caches],
    [get_performance_metrics] and [reset_metrics]; and [is_wide_character]
    of the UTF-8 renderer [src/cpp_renderer.cpp].

    Conventions of the embedding.
    - [int], [long], [uint32_t], [uint64_t] and [size_t] values are [Z];
      the places where the C++ arithmetic leaves the type's range are
      written out ([wrap_int], [incr_size_t], [static_cast_int]).
    - [CGFloat] is modelled by exact rationals [Q]: rounding error, NaN and
      infinities of binary64 are outside the model.  The literal [0.01f] is
      the exact value of that float.  Where a property would depend on how a
      quotient or a difference is rounded, it is stated for values on which
      binary64 arithmetic is exact (multiples of one power of two with few
      enough bits, [dyadic]) or with a margin that rounding cannot cross.
    - the Python error indicator is not followed: a conversion that fails
      gives the value the C API returns with the error set
      ([PyFloat_AsDouble], [PyUnicode_AsUTF8]); what the interpreter does
      with a result returned while the indicator is set is outside the
      model ([no_error_left_set] names the frames that leave it unset).
    - containers: [std::unordered_map] is stdpp's [gmap], [std::vector] a
      list, [std::optional] an [option].
    - a C++ exception is the [Throw] outcome of [Result]; indexing a vector
      out of range is the [OutOfRange] outcome.
    - the CoreGraphics / CoreText / CoreFoundation layer is a record of
      oracles handed to every call that reaches it. *)

From Stdlib Require Import ZArith QArith Qround Qabs Lia Lqa List Bool String.
From stdpp Require Import base option list gmap.

Local Open Scope Z_scope.

(** ** Machine integers and [CGFloat] *)

Definition INT_MIN : Z := -2147483648.
Definition INT_MAX : Z := 2147483647.
Definition SIZE_MAX : Z := 18446744073709551615.

(** Two's complement result of an [int] operation whose exact value is [z]. *)
Definition wrap_int (z : Z) : Z := (z + 2147483648) mod 4294967296 - 2147483648.

Definition int_sub (a b : Z) : Z := wrap_int (a - b).

(** [x++] on a [size_t]. *)
Definition incr_size_t (x : Z) : Z := (x + 1) mod 18446744073709551616.

(** [static_cast<int>(d)] for a [double] [d] holding the integer [z].  Inside
    [int]'s range this is [z]; outside, C++ leaves the conversion undefined
    and the model takes the saturating result of the arm64 conversion. *)
Definition static_cast_int (z : Z) : Z := Z.max INT_MIN (Z.min z INT_MAX).

Abbreviation CGFloat := Q (only parsing).

(** The [float] literal [0.01f], exactly. *)
Definition eps_0_01f : Q := 5368709 # 536870912.

Definition Qltb (a b : Q) : bool := negb (Qle_bool b a).

(** ** Coordinate transformation utilities *)

Record CGRect := mkCGRect {
  origin_x : CGFloat;
  origin_y : CGFloat;
  size_width : CGFloat;
  size_height : CGFloat
}.

Record CellRect := mkCellRect {
  start_row : Z;  (* inclusive *)
  end_row : Z;    (* exclusive *)
  start_col : Z;  (* inclusive *)
  end_col : Z     (* exclusive *)
}.

(** [ttk_to_cg_y]: bottom edge of [row] in CoreGraphics coordinates. *)
Definition ttk_to_cg_y (row rows : Z) (char_height : CGFloat) : CGFloat :=
  (inject_Z (wrap_int (wrap_int (rows - row) - 1)) * char_height)%Q.

(** [std::max(0, std::min(v, n))]. *)
Definition clamp (v n : Z) : Z := Z.max 0 (Z.min v n).

Definition calculate_dirty_cells (dirty_rect : CGRect)
    (char_width char_height : CGFloat) (rows cols : Z)
    (offset_x offset_y : CGFloat) : CellRect :=
  let grid_x := (origin_x dirty_rect - offset_x)%Q in
  let grid_y := (origin_y dirty_rect - offset_y)%Q in
  let grid_right := (grid_x + size_width dirty_rect)%Q in
  let grid_top := (grid_y + size_height dirty_rect)%Q in
  let start_col := static_cast_int (Qfloor (grid_x / char_width)) in
  let end_col := static_cast_int (Qceiling (grid_right / char_width)) in
  let bottom_row := int_sub rows (static_cast_int (Qceiling (grid_top / char_height))) in
  let top_row := int_sub rows (static_cast_int (Qfloor (grid_y / char_height))) in
  let start_col := clamp start_col cols in
  let end_col := clamp end_col cols in
  let start_row := clamp bottom_row rows in
  let end_row := clamp top_row rows in
  if end_row <? start_row
  then mkCellRect end_row start_row start_col end_col
  else mkCellRect start_row end_row start_col end_col.

(** ** Outcomes and the native layer *)

Inductive Result (A : Type) : Type :=
| Ok (a : A)              (* normal return *)
| Throw (what : string)   (* a C++ exception, [what] its message *)
| OutOfRange.             (* a vector indexed outside its bounds *)
Arguments Ok {A} a.
Arguments Throw {A} what.
Arguments OutOfRange {A}.

(** Computations over a state [S] that may end in an exception or an
    out-of-range access; the state reached so far is kept in either case. *)
Definition M (S A : Type) : Type := S -> Result A * S.

#[global] Instance M_ret {S : Type} : MRet (M S) := fun A a s => (Ok a, s).

#[global] Instance M_bind {S : Type} : MBind (M S) := fun A B f m s =>
  match m s with
  | (Ok a, s') => f a s'
  | (Throw what, s') => (Throw what, s')
  | (OutOfRange, s') => (OutOfRange, s')
  end.

Definition get_state {S : Type} : M S S := fun s => (Ok s, s).
Definition put_state {S : Type} (s : S) : M S unit := fun _ => (Ok tt, s).
Definition out_of_range {S A : Type} : M S A := fun s => (OutOfRange, s).

(** [for (int i = start; i < stop; ++i) body], where [body i] returns what it
    adds to [i] itself (0 unless the body skips ahead); [fuel] bounds the
    number of iterations. *)
Fixpoint for_range {S : Type} (fuel : nat) (i stop : Z) (body : Z -> M S Z) : M S unit :=
  match fuel with
  | O => mret tt
  | Datatypes.S fuel' =>
      if i <? stop
      then skip ← body i; for_range fuel' (i + skip + 1) stop body
      else mret tt
  end.

(** Native objects are known by their address; [None] where the source
    tests a pointer against [nullptr]. *)
Abbreviation CGColorRef := Z (only parsing).
Abbreviation CTFontRef := Z (only parsing).
Abbreviation CTFontDescriptorRef := Z (only parsing).

(** What the native layer answers during one call of the model.  Object
    creation returns the new object or [None] for [nullptr]. *)
Record Native := mkNative {
  CGColorSpaceCreateDeviceRGB : option Z;
  CGColorCreate : Z -> Q * Q * Q * Q -> option CGColorRef;
  (* [CTFontCreateCopyWithSymbolicTraits(f, 0.0, nullptr, bold, bold)] *)
  CTFontCreateCopyWithSymbolicTraits : CTFontRef -> option CTFontRef;
  CTFontGetGlyphsForCharacters : CTFontRef -> list Z -> bool;
  CTFontCopyFontDescriptor : CTFontRef -> option CTFontDescriptorRef;
  (* [CTFontDescriptorCopyAttribute(d, kCTFontCascadeListAttribute)] *)
  CTFontDescriptorCopyAttribute : CTFontDescriptorRef -> option (list CTFontDescriptorRef);
  CTFontCreateWithFontDescriptor : CTFontDescriptorRef -> Q -> option CTFontRef;
  CTFontGetSize : CTFontRef -> Q;
  (* [CTFontGetSymbolicTraits(f) & kCTFontBoldTrait] *)
  CTFontHasBoldTrait : CTFontRef -> bool;
  CFNumberCreate : Z -> option Z;
  (* [CFDictionaryCreate] from the font, the colour and the underline number *)
  CFDictionaryCreate : CTFontRef -> CGColorRef -> option Z -> option Z;
  CFStringCreateWithCString : list Z -> option Z;
  (* the font [initialize_caches] obtains for a list of font names and a size:
     [CTFontCreateWithName] for the first name, or, when cascade descriptors
     could be built for the others, [CTFontCreateWithFontDescriptor] *)
  create_base_font : list (list Z) -> Q -> option CTFontRef
}.

(** ** ColorCache *)

Module ColorCache.

Record t := mk {
  cache_ : gmap Z CGColorRef;     (* packed RGB -> CGColorRef *)
  max_size_ : Z;
  access_order_ : gmap Z Z;       (* packed RGB -> access order *)
  access_counter_ : Z
}.

Definition new (max_size : Z) : t := mk ∅ max_size ∅ 0.

(** [(r << 16) | (g << 8) | b] for [uint8_t] components. *)
Definition pack_key (r g b : Z) : Z := Z.lor (Z.lor (Z.shiftl r 16) (Z.shiftl g 8)) b.

(** The scan for the least recently used entry: [lru_key] starts at 0 and
    [min_access] at [SIZE_MAX]; an entry replaces them when its access order
    is strictly smaller. *)
Definition lru_scan (entries : list (Z * Z)) : Z * Z :=
  fold_left (fun acc entry => if snd entry <? snd acc then entry else acc)
            entries (0, SIZE_MAX).

Definition evict_lru (c : t) : t :=
  let lru_key := fst (lru_scan (map_to_list (access_order_ c))) in
  match cache_ c !! lru_key with
  | Some _ => mk (delete lru_key (cache_ c)) (max_size_ c)
                 (delete lru_key (access_order_ c)) (access_counter_ c)
  | None => c
  end.

(** [get_color(r, g, b, alpha)]; [r], [g], [b] are [uint8_t]. *)
Definition get_color (os : Native) (r g b : Z) (alpha : Q) (c : t) : Result CGColorRef * t :=
  let key := pack_key r g b in
  match cache_ c !! key with
  | Some color =>
      (Ok color,
       mk (cache_ c) (max_size_ c) (<[key := access_counter_ c]> (access_order_ c))
          (incr_size_t (access_counter_ c)))
  | None =>
      match CGColorSpaceCreateDeviceRGB os with
      | None => (Throw "Failed to create RGB color space", c)
      | Some color_space =>
          let components :=
            (inject_Z r / 255, inject_Z g / 255, inject_Z b / 255, alpha)%Q in
          match CGColorCreate os color_space components with
          | None => (Throw "Failed to create CGColor", c)
          | Some color =>
              let c1 := if Z.of_nat (size (cache_ c)) >=? max_size_ c
                        then evict_lru c else c in
              (Ok color,
               mk (<[key := color]> (cache_ c1)) (max_size_ c1)
                  (<[key := access_counter_ c1]> (access_order_ c1))
                  (incr_size_t (access_counter_ c1)))
          end
      end
  end.

Definition clear (c : t) : t := mk ∅ (max_size_ c) ∅ 0.

Definition size (c : t) : Z := Z.of_nat (size (cache_ c)).

Definition max_size (c : t) : Z := max_size_ c.

End ColorCache.

(** ** FontCache *)

Module FontCache.

Record t := mk {
  base_font_ : option CTFontRef;
  cache_ : gmap Z (option CTFontRef)   (* attributes -> CTFontRef *)
}.

Definition new (base_font : option CTFontRef) : t := mk base_font ∅.

Definition get_font (os : Native) (attributes : Z) (f : t) : option CTFontRef * t :=
  match cache_ f !! attributes with
  | Some font => (font, f)
  | None =>
      let font :=
        if Z.land attributes 1 =? 0 then base_font_ f
        else match base_font_ f with
             | Some base =>
                 match CTFontCreateCopyWithSymbolicTraits os base with
                 | Some bold_font => Some bold_font
                 | None => Some base
                 end
             | None => None
             end in
      (font, mk (base_font_ f) (<[attributes := font]> (cache_ f)))
  end.

Definition clear (f : t) : t := mk (base_font_ f) ∅.

End FontCache.

(** ** AttributeDictCache *)

(** An attribute dictionary: the native object [dict_ref] and what it was
    created from. *)
Record CFDictionary := mkCFDictionary {
  dict_ref : Z;
  dict_font : CTFontRef;               (* kCTFontAttributeName *)
  dict_color : CGColorRef;             (* kCTForegroundColorAttributeName *)
  dict_underline : bool                (* kCTUnderlineStyleAttributeName present *)
}.

Module AttributeDictCache.

Record t := mk {
  cache_ : gmap Z CFDictionary;   (* composite key -> CFDictionaryRef *)
  hits_ : Z;
  misses_ : Z
}.

Definition new : t := mk ∅ 0 0.

(** Bits 0-31 [color_rgb], bits 32-62 [font_attributes & 0x7FFFFFFF], bit 63
    the underline flag.  [font_attributes] is an [int], [color_rgb] a
    [uint32_t]. *)
Definition make_key (font_attributes color_rgb : Z) (underline : bool) : Z :=
  let key := color_rgb in
  let key := Z.lor key (Z.shiftl (Z.land font_attributes 2147483647) 32) in
  if underline then Z.lor key (Z.shiftl 1 63) else key.

Definition clear (a : t) : t := mk ∅ (hits_ a) (misses_ a).

Definition reset_metrics (a : t) : t := mk (cache_ a) 0 0.

End AttributeDictCache.

(** The three caches: [g_color_cache], [g_font_cache] and
    [g_attr_dict_cache], which holds pointers to the other two. *)
Record Caches := mkCaches {
  g_color_cache : ColorCache.t;
  g_font_cache : FontCache.t;
  g_attr_dict_cache : AttributeDictCache.t
}.

(** [AttributeDictCache::get_attributes], on the cache and the two caches it
    points to. *)
Definition get_attributes (os : Native) (font_attributes color_rgb : Z) (underline : bool)
    (s : Caches) : Result CFDictionary * Caches :=
  let a := g_attr_dict_cache s in
  let key := AttributeDictCache.make_key font_attributes color_rgb underline in
  match AttributeDictCache.cache_ a !! key with
  | Some dict =>
      (Ok dict,
       mkCaches (g_color_cache s) (g_font_cache s)
         (AttributeDictCache.mk (AttributeDictCache.cache_ a)
            (incr_size_t (AttributeDictCache.hits_ a)) (AttributeDictCache.misses_ a)))
  | None =>
      let a1 := AttributeDictCache.mk (AttributeDictCache.cache_ a)
                  (AttributeDictCache.hits_ a) (incr_size_t (AttributeDictCache.misses_ a)) in
      let '(font, fc) := FontCache.get_font os font_attributes (g_font_cache s) in
      match font with
      | None => (Throw "Failed to get font from FontCache", mkCaches (g_color_cache s) fc a1)
      | Some font =>
          let r := Z.land (Z.shiftr color_rgb 16) 255 in
          let g := Z.land (Z.shiftr color_rgb 8) 255 in
          let b := Z.land color_rgb 255 in
          match ColorCache.get_color os r g b 1 (g_color_cache s) with
          | (Ok color, cc) =>
              let number := if underline then CFNumberCreate os 1 else None in
              if underline && negb (bool_decide (is_Some number))
              then (Throw "Failed to create underline style number", mkCaches cc fc a1)
              else
                match CFDictionaryCreate os font color number with
                | None => (Throw "Failed to create attribute dictionary", mkCaches cc fc a1)
                | Some ref =>
                    let dict := mkCFDictionary ref font color underline in
                    (Ok dict,
                     mkCaches cc fc
                       (AttributeDictCache.mk (<[key := dict]> (AttributeDictCache.cache_ a1))
                          (AttributeDictCache.hits_ a1) (AttributeDictCache.misses_ a1)))
                end
          | (Throw what, cc) => (Throw what, mkCaches cc fc a1)
          | (OutOfRange, cc) => (OutOfRange, mkCaches cc fc a1)
          end
      end
  end.

(** ** RectangleBatcher *)

Record RectBatch := mkRectBatch {
  rb_x : CGFloat;       (* left edge *)
  rb_y : CGFloat;       (* bottom edge *)
  rb_width : CGFloat;
  rb_height : CGFloat;
  rb_bg_rgb : Z         (* 0x00RRGGBB *)
}.

Record RectangleBatcher := mkRectangleBatcher {
  batches_ : list RectBatch;
  current_batch_ : option RectBatch
}.

Definition RectangleBatcher_new : RectangleBatcher := mkRectangleBatcher [] None.

Definition add_cell (x y width height : CGFloat) (bg_rgb : Z)
    (b : RectangleBatcher) : RectangleBatcher :=
  let start_new (done : list RectBatch) :=
    mkRectangleBatcher done (Some (mkRectBatch x y width height bg_rgb)) in
  match current_batch_ b with
  | Some batch =>
      let same_row := Qltb (Qabs (rb_y batch - y)) eps_0_01f in
      let same_color := rb_bg_rgb batch =? bg_rgb in
      let adjacent := Qltb (Qabs ((rb_x batch + rb_width batch) - x)) eps_0_01f in
      if same_row && same_color && adjacent
      then mkRectangleBatcher (batches_ b)
             (Some (mkRectBatch (rb_x batch) (rb_y batch)
                      (rb_width batch + width)%Q (rb_height batch) (rb_bg_rgb batch)))
      else start_new (batches_ b ++ [batch])
  | None => start_new (batches_ b)
  end.

Definition finish_row (b : RectangleBatcher) : RectangleBatcher :=
  match current_batch_ b with
  | Some batch => mkRectangleBatcher (batches_ b ++ [batch]) None
  | None => b
  end.

(** [get_batches] closes the open batch and returns (a reference to) the
    vector of batches; the pair is the returned vector and the new state. *)
Definition get_batches (b : RectangleBatcher) : list RectBatch * RectangleBatcher :=
  let b' := finish_row b in (batches_ b', b').

Definition RectangleBatcher_size (b : RectangleBatcher) : Z := Z.of_nat (length (batches_ b)).

(** A cell as handed to [add_cell]. *)
Record CellArgs := mkCellArgs {
  ca_x : CGFloat; ca_y : CGFloat; ca_width : CGFloat; ca_height : CGFloat; ca_bg_rgb : Z
}.

Definition add_cells (cells : list CellArgs) (b : RectangleBatcher) : RectangleBatcher :=
  fold_left (fun acc c => add_cell (ca_x c) (ca_y c) (ca_width c) (ca_height c) (ca_bg_rgb c) acc)
            cells b.

(** ** Grid and colour table *)

Record Cell := mkCell {
  character : list Z;   (* UTF-16 code units *)
  color_pair : Z;
  attributes : Z;       (* bit 0 bold, bit 1 underline, bit 2 reverse *)
  is_wide : bool
}.

Record ColorPair := mkColorPair {
  fg_rgb : Z;   (* 0x00RRGGBB *)
  bg_rgb : Z
}.

(** The cell [grid[row][col]], when both indices are within the vectors. *)
Definition grid_cell (grid : list (list Cell)) (row col : Z) : option Cell :=
  if (0 <=? row) && (0 <=? col)
  then cells ← grid !! Z.to_nat row; cells !! Z.to_nat col
  else None.

(** [grid[row][col]]. *)
Definition grid_at {S : Type} (grid : list (list Cell)) (row col : Z) : M S Cell :=
  match grid_cell grid row col with
  | Some cell => mret cell
  | None => out_of_range
  end.

(** The grid has [rows] rows of [cols] cells each. *)
Definition grid_shape (grid : list (list Cell)) (rows cols : Z) : Prop :=
  Z.of_nat (length grid) = rows /\
  Forall (fun cells => Z.of_nat (length cells) = cols) grid.

(** U+FE00 .. U+FE0F. *)
Definition is_variation_selector (ch : Z) : bool := (65024 <=? ch) && (ch <=? 65039).

(** A text of exactly one code unit that satisfies [p]. *)
Definition single_unit (p : Z -> bool) (text : list Z) : bool :=
  match text with
  | [ch] => p ch
  | _ => false
  end.

(** What reaches the drawing surface. *)
Record CharacterBatch := mkCharacterBatch {
  cb_text : list Z;
  cb_is_wide : list bool;
  cb_font_attributes : Z;
  cb_fg_rgb : Z;
  cb_underline : bool;
  cb_x : CGFloat;
  cb_y : CGFloat;
  cb_font_index : Z     (* -1 primary, 0.. cascade slot *)
}.

Inductive DrawOp :=
| FillRect (x y width height : CGFloat) (rgb : Z)
    (* a background batch: [CGContextSetRGBFillColor], [CGContextFillRect] *)
| DrawGlyphs (batch : CharacterBatch) (font : CTFontRef) (color : CGColorRef)
    (synthetic_bold : bool)
    (* a run handed to CoreText with the font selected for it *)
| FillUnderline (x y width : CGFloat)
    (* the underline of a run; its thickness is the font's *)
| FillCursor (x y width height : CGFloat)
| DrawMarkedText (text : list Z) (row col : Z).

(** ** Background rendering *)

Section Frame.

Variable os : Native.
Variable grid : list (list Cell).
Variable color_pairs : gmap Z ColorPair.
Variable dirty_cells : CellRect.
Variables char_width char_height : CGFloat.
Variables rows cols : Z.
Variables offset_x offset_y : CGFloat.
Variable font_ascent : CGFloat.

(** The body of the inner loop of [render_backgrounds]. *)
Definition background_cell (row col : Z) : M RectangleBatcher Z :=
  let left_col := 0 in
  let right_col := wrap_int (cols - 1) in
  let has_padding := Qltb eps_0_01f offset_x || Qltb eps_0_01f offset_y in
  cell ← grid_at grid row col;
  if bool_decide (character cell = []) then mret 0
  else if single_unit is_variation_selector (character cell) then mret 0
  else
    match color_pairs !! color_pair cell with
    | None => mret 0
    | Some colors =>
        let bg_rgb := if Z.land (attributes cell) 4 =? 0 then bg_rgb colors else fg_rgb colors in
        let y := (ttk_to_cg_y row rows char_height + offset_y)%Q in
        let x := (inject_Z col * char_width + offset_x)%Q in
        let base_cell_width := if is_wide cell then (char_width * 2)%Q else char_width in
        let is_edge_row := (row =? 0) || (row =? wrap_int (rows - 1)) in
        let is_edge_col := (col =? left_col) || (col =? right_col) in
        batcher ← get_state;
        if has_padding && (is_edge_row || is_edge_col)
        then
          let cell_x := if col =? left_col then 0%Q else x in
          let cell_width := if (col =? left_col) || (col =? right_col)
                            then (base_cell_width + offset_x)%Q else base_cell_width in
          let cell_height := if (row =? 0) || (row =? wrap_int (rows - 1))
                             then (char_height + offset_y)%Q else char_height in
          let cell_y := if row =? wrap_int (rows - 1) then 0%Q else y in
          put_state (add_cell cell_x cell_y cell_width cell_height bg_rgb batcher);; mret 0
        else
          put_state (add_cell x y base_cell_width char_height bg_rgb batcher);; mret 0
    end.

Definition background_row (row : Z) : M RectangleBatcher Z :=
  for_range (Z.to_nat (end_col dirty_cells - start_col dirty_cells))
            (start_col dirty_cells) (end_col dirty_cells) (background_cell row);;
  batcher ← get_state;
  put_state (finish_row batcher);;
  mret 0.

Definition render_backgrounds : M RectangleBatcher unit :=
  for_range (Z.to_nat (end_row dirty_cells - start_row dirty_cells))
            (start_row dirty_cells) (end_row dirty_cells) background_row.

(** [draw_batched_backgrounds]: one fill per batch. *)
Definition draw_batched_backgrounds (batcher : RectangleBatcher) : list DrawOp * RectangleBatcher :=
  let '(batches, batcher') := get_batches batcher in
  (map (fun b => FillRect (rb_x b) (rb_y b) (rb_width b) (rb_height b) (rb_bg_rgb b)) batches,
   batcher').

(** ** Character rendering *)

(** The cascade loop of [get_font_index_for_character], from slot [i]. *)
Fixpoint cascade_lookup (descriptors : list CTFontDescriptorRef) (i : Z)
    (chars : list Z) (base_font : CTFontRef) (font_attributes : Z) : Z :=
  match descriptors with
  | [] => -2
  | cascade_desc :: rest =>
      match CTFontCreateWithFontDescriptor os cascade_desc (CTFontGetSize os base_font) with
      | Some cascade_font =>
          let cascade_font :=
            if Z.land font_attributes 1 =? 0 then cascade_font
            else match CTFontCreateCopyWithSymbolicTraits os cascade_font with
                 | Some bold_cascade => bold_cascade
                 | None => cascade_font
                 end in
          if CTFontGetGlyphsForCharacters os cascade_font chars then i
          else cascade_lookup rest (i + 1) chars base_font font_attributes
      | None => cascade_lookup rest (i + 1) chars base_font font_attributes
      end
  end.

(** -1: the primary font; 0..: a cascade slot; -2: no font. *)
Definition get_font_index_for_character (chars : list Z) (base_font : CTFontRef)
    (font_attributes : Z) : Z :=
  if bool_decide (chars = []) then -2
  else if CTFontGetGlyphsForCharacters os base_font chars then -1
  else
    match CTFontCopyFontDescriptor os base_font with
    | None => -2
    | Some descriptor =>
        match CTFontDescriptorCopyAttribute os descriptor with
        | None => -2
        | Some cascade_list => cascade_lookup cascade_list 0 chars base_font font_attributes
        end
    end.

(** State of the character pass: the caches, the open run and what has been
    drawn so far. *)
Record CharPass := mkCharPass {
  cp_caches : Caches;
  cp_current_batch : option CharacterBatch;
  cp_drawn : list DrawOp
}.

Definition lookup_attributes (font_attributes color_rgb : Z) (underline : bool)
    : M CharPass CFDictionary :=
  fun st =>
    let '(r, caches) := get_attributes os font_attributes color_rgb underline (cp_caches st) in
    (r, mkCharPass caches (cp_current_batch st) (cp_drawn st)).

Definition emit (ops : list DrawOp) : M CharPass unit :=
  fun st => (Ok tt, mkCharPass (cp_caches st) (cp_current_batch st) (cp_drawn st ++ ops)).

Definition set_current_batch (b : option CharacterBatch) : M CharPass unit :=
  fun st => (Ok tt, mkCharPass (cp_caches st) b (cp_drawn st)).

(** Width of a run in cells: [is_wide[i]] for the [i]-th of [n] code units,
    [false] past the end of [is_wide]. *)
Definition run_width (n : nat) (is_wide : list bool) : CGFloat :=
  fold_left (fun acc i => if default false (is_wide !! i)
                          then (acc + char_width * 2)%Q else (acc + char_width)%Q)
            (seq 0 n) 0%Q.

(** The font [draw_character_batch] draws with, and whether it created it. *)
Definition font_to_use (batch : CharacterBatch) (base_font : CTFontRef) : CTFontRef * bool :=
  if cb_font_index batch <? 0 then (base_font, false)
  else
    match CTFontCopyFontDescriptor os base_font with
    | None => (base_font, false)
    | Some descriptor =>
        match CTFontDescriptorCopyAttribute os descriptor with
        | None => (base_font, false)
        | Some cascade_list =>
            match cascade_list !! Z.to_nat (cb_font_index batch) with
            | None => (base_font, false)
            | Some cascade_desc =>
                match CTFontCreateWithFontDescriptor os cascade_desc (CTFontGetSize os base_font) with
                | None => (base_font, false)
                | Some cascade_font =>
                    if CTFontHasBoldTrait os base_font
                    then match CTFontCreateCopyWithSymbolicTraits os cascade_font with
                         | Some bold_cascade => (bold_cascade, true)
                         | None => (cascade_font, true)
                         end
                    else (cascade_font, true)
                end
            end
        end
    end.

(** [draw_character_batch]: the attribute set is looked up, the font is
    selected and the run is handed to CoreText; the glyph ids and advances, and
    with them the glyph positions, are the native layer's. *)
Definition draw_character_batch (batch : CharacterBatch) : M CharPass unit :=
  attrs ← lookup_attributes (cb_font_attributes batch) (cb_fg_rgb batch) (cb_underline batch);
  if bool_decide (cb_text batch = []) then mret tt
  else
    let '(font, allocated) := font_to_use batch (dict_font attrs) in
    if negb (CTFontGetGlyphsForCharacters os font (cb_text batch)) then mret tt
    else
      let baseline_y := (cb_y batch + (char_height - font_ascent))%Q in
      let use_synthetic_bold :=
        allocated && negb (Z.land (cb_font_attributes batch) 1 =? 0)
        && negb (CTFontHasBoldTrait os font) in
      let underline :=
        if cb_underline batch
        then [FillUnderline (cb_x batch) ((baseline_y + cb_y batch) / 2)%Q
                (run_width (length (cb_is_wide batch)) (cb_is_wide batch))]
        else [] in
      emit (DrawGlyphs batch font (dict_color attrs) use_synthetic_bold :: underline).

(** Finish the current batch if any. *)
Definition flush_batch : M CharPass unit :=
  st ← get_state;
  match cp_current_batch st with
  | Some batch => draw_character_batch batch;; set_current_batch None
  | None => mret tt
  end.

(** A cell followed by a variation selector cell is looked up together with
    it. *)
Record Combined := mkCombined {
  combined_char : list Z;
  cols_to_skip : Z;
  has_variation_selector : bool
}.

Definition combine_variation_selector (row col : Z) (cell : Cell) : M CharPass Combined :=
  if (col + 1 <? end_col dirty_cells) && (col + 1 <? cols)
  then next_cell ← grid_at grid row (col + 1);
       if single_unit is_variation_selector (character next_cell)
       then mret (mkCombined (character cell ++ character next_cell) 1 true)
       else mret (mkCombined (character cell) 0 false)
  else mret (mkCombined (character cell) 0 false).

(** Whether the unit at ([x], [y]) with these attributes continues [batch]. *)
Definition can_extend (batch : CharacterBatch) (x y : CGFloat)
    (font_attributes fg_rgb : Z) (underline : bool) (font_index : Z) : bool :=
  let same_row := Qltb (Qabs (cb_y batch - y)) eps_0_01f in
  let same_attributes :=
    (cb_font_attributes batch =? font_attributes)
    && (cb_fg_rgb batch =? fg_rgb)
    && eqb (cb_underline batch) underline in
  let expected_x := (cb_x batch + run_width (length (cb_text batch)) (cb_is_wide batch))%Q in
  let adjacent := Qltb (Qabs (expected_x - x)) eps_0_01f in
  let same_font := cb_font_index batch =? font_index in
  same_row && same_attributes && adjacent && same_font.

(** The body of the inner loop of [render_characters]. *)
Definition character_cell (row col : Z) : M CharPass Z :=
  cell ← grid_at grid row col;
  if bool_decide (character cell = []) then flush_batch;; mret 0
  else
    let is_space := single_unit (fun ch => ch =? 32) (character cell) in
    let has_underline := negb (Z.land (attributes cell) 2 =? 0) in
    if is_space && negb has_underline then flush_batch;; mret 0
    else
      combined ← combine_variation_selector row col cell;
      match color_pairs !! color_pair cell with
      | None => flush_batch;; mret 0
      | Some colors =>
          let fg_rgb := if Z.land (attributes cell) 4 =? 0 then fg_rgb colors else bg_rgb colors in
          let font_attributes := Z.land (attributes cell) 1 in
          let underline := negb (Z.land (attributes cell) 2 =? 0) in
          let y := (ttk_to_cg_y row rows char_height + offset_y)%Q in
          let x := (inject_Z col * char_width + offset_x)%Q in
          attrs ← lookup_attributes font_attributes fg_rgb false;
          let font_index :=
            get_font_index_for_character (combined_char combined) (dict_font attrs)
              font_attributes in
          if font_index =? -2 then flush_batch;; mret (cols_to_skip combined)
          else
            st ← get_state;
            let wide := if has_variation_selector combined then true else is_wide cell in
            let new_batch :=
              mkCharacterBatch (combined_char combined) [wide] font_attributes fg_rgb
                underline x y font_index in
            match cp_current_batch st with
            | Some batch =>
                if can_extend batch x y font_attributes fg_rgb underline font_index
                then
                  set_current_batch
                    (Some (mkCharacterBatch (cb_text batch ++ combined_char combined)
                             (cb_is_wide batch ++ [wide]) (cb_font_attributes batch)
                             (cb_fg_rgb batch) (cb_underline batch) (cb_x batch) (cb_y batch)
                             (cb_font_index batch)));;
                  mret (cols_to_skip combined)
                else
                  draw_character_batch batch;;
                  set_current_batch (Some new_batch);;
                  mret (cols_to_skip combined)
            | None =>
                set_current_batch (Some new_batch);;
                mret (cols_to_skip combined)
            end
      end.

Definition character_row (row : Z) : M CharPass Z :=
  for_range (Z.to_nat (end_col dirty_cells - start_col dirty_cells))
            (start_col dirty_cells) (end_col dirty_cells) (character_cell row);;
  flush_batch;;
  mret 0.

Definition render_characters : M CharPass unit :=
  for_range (Z.to_nat (end_row dirty_cells - start_row dirty_cells))
            (start_row dirty_cells) (end_row dirty_cells) character_row;;
  flush_batch.

End Frame.

(** ** Python values at the boundary *)

#[local] Set Warnings "-register-all".

Inductive PyObject :=
| PyNone
| PyBool (b : bool)                      (* a [bool] is an [int] *)
| PyLong (z : Z)
| PyFloat (d : CGFloat)
| PyUnicode (code_points : list Z)
| PyTuple (items : list PyObject)
| PyList (items : list PyObject)
| PyDict (items : list (PyObject * PyObject)).

Definition LONG_MIN : Z := -9223372036854775808.
Definition LONG_MAX : Z := 9223372036854775807.

Definition PyList_Check (o : PyObject) : bool :=
  match o with PyList _ => true | _ => false end.

Definition PyTuple_Check (o : PyObject) : bool :=
  match o with PyTuple _ => true | _ => false end.

Definition PyDict_Check (o : PyObject) : bool :=
  match o with PyDict _ => true | _ => false end.

Definition PyUnicode_Check (o : PyObject) : bool :=
  match o with PyUnicode _ => true | _ => false end.

Definition PyLong_Check (o : PyObject) : bool :=
  match o with PyLong _ | PyBool _ => true | _ => false end.

Definition PyFloat_Check (o : PyObject) : bool :=
  match o with PyFloat _ => true | _ => false end.

(** [PyLong_AsLong]; [None] stands for the result -1 with an error set (the
    integer does not fit a [long]). *)
Definition PyLong_AsLong (o : PyObject) : option Z :=
  match o with
  | PyLong z => if (LONG_MIN <=? z) && (z <=? LONG_MAX) then Some z else None
  | PyBool b => Some (if b then 1 else 0)
  | _ => None
  end.

(** The least integer that has no [double]: [2^1024 - 2^970], half an ulp
    above the largest finite [double], is rounded to [2^1024]. *)
Definition DBL_OVERFLOW : Z := 2 ^ 1024 - 2 ^ 970.

(** [PyFloat_AsDouble] of a number.  For an [int] beyond the range of
    [double] the result is -1.0, returned with OverflowError set. *)
Definition PyFloat_AsDouble (o : PyObject) : CGFloat :=
  match o with
  | PyFloat d => d
  | PyLong z => if Z.abs z <? DBL_OVERFLOW then inject_Z z else (-1)%Q
  | PyBool b => if b then 1%Q else 0%Q
  | _ => (-1)%Q
  end.

Definition PyObject_IsTrue (o : PyObject) : bool :=
  match o with
  | PyNone => false
  | PyBool b => b
  | PyLong z => negb (z =? 0)
  | PyFloat d => negb (Qeq_bool d 0)
  | PyUnicode code_points => negb (bool_decide (code_points = []))
  | PyTuple items | PyList items => negb (bool_decide (items = []))
  | PyDict items => negb (bool_decide (items = []))
  end.

Definition is_surrogate (cp : Z) : bool := (55296 <=? cp) && (cp <=? 57343).

(** UTF-16 code units of one code point. *)
Definition utf16_units (cp : Z) : list Z :=
  if cp <? 65536 then [cp]
  else [55296 + Z.shiftr (cp - 65536) 10; 56320 + Z.land (cp - 65536) 1023].

(** The code points, or bytes, before the first NUL. *)
Fixpoint until_nul (code_points : list Z) : list Z :=
  match code_points with
  | [] => []
  | cp :: rest => if cp =? 0 then [] else cp :: until_nul rest
  end.

(** The UTF-8 form of a code point, as [PyUnicode_AsUTF8] hands it to the
    renderer. *)
Definition utf8_encode (cp : Z) : list Z :=
  if cp <? 128 then [cp]
  else if cp <? 2048 then [192 + cp / 64; 128 + cp mod 64]
  else if cp <? 65536 then [224 + cp / 4096; 128 + (cp / 64) mod 64; 128 + cp mod 64]
  else [240 + cp / 262144; 128 + (cp / 4096) mod 64; 128 + (cp / 64) mod 64; 128 + cp mod 64].

(** [PyUnicode_AsUTF8]: the bytes of the string's UTF-8 form; [None] stands
    for the null pointer, returned with UnicodeEncodeError set, for a string
    that holds a surrogate code point. *)
Definition PyUnicode_AsUTF8 (code_points : list Z) : option (list Z) :=
  if existsb is_surrogate code_points then None
  else Some (concat (map utf8_encode code_points)).

(** The [std::u16string] [parse_grid] builds from a Python string: a string
    of the 2-byte kind is copied as it is; any other goes through UTF-8, which
    fails on a surrogate code point and ends the text at a NUL. *)
Definition utf16_of_unicode (code_points : list Z) : option (list Z) :=
  let two_byte_kind :=
    forallb (fun cp => cp <? 65536) code_points
    && existsb (fun cp => 256 <=? cp) code_points in
  if two_byte_kind then Some code_points
  else if existsb is_surrogate code_points then None
  else Some (concat (map utf16_units (until_nul code_points))).

(** Stops at the first element that does not parse. *)
Fixpoint parse_all {A B : Type} (parse : A -> Result B) (xs : list A) : Result (list B) :=
  match xs with
  | [] => Ok []
  | x :: xs' =>
      match parse x with
      | Ok b =>
          match parse_all parse xs' with
          | Ok bs => Ok (b :: bs)
          | Throw what => Throw what
          | OutOfRange => OutOfRange
          end
      | Throw what => Throw what
      | OutOfRange => OutOfRange
      end
  end.

(** ** Grid and colour-table parsing *)

(** The messages are the source's without the cell position and the counts
    it appends. *)
Definition parse_cell (cell_obj : PyObject) : Result Cell :=
  match cell_obj with
  | PyTuple [char_obj; color_pair_obj; attributes_obj; is_wide_obj] =>
      match char_obj with
      | PyUnicode code_points =>
          match utf16_of_unicode code_points with
          | None => Throw "Failed to convert character"
          | Some character =>
              if negb (PyLong_Check color_pair_obj)
              then Throw "Grid cell color_pair must be an integer"
              else
                match PyLong_AsLong color_pair_obj with
                | None => Throw "Failed to convert color_pair to integer"
                | Some color_pair =>
                    if negb (PyLong_Check attributes_obj)
                    then Throw "Grid cell attributes must be an integer"
                    else
                      match PyLong_AsLong attributes_obj with
                      | None => Throw "Failed to convert attributes to integer"
                      | Some attributes =>
                          Ok (mkCell character (wrap_int color_pair) (wrap_int attributes)
                                (PyObject_IsTrue is_wide_obj))
                      end
                end
          end
      | _ => Throw "Grid cell character must be a string"
      end
  | PyTuple _ => Throw "Grid cell must have 4 elements (char, color_pair, attributes, is_wide)"
  | _ => Throw "Grid cell must be a tuple"
  end.

Definition parse_row (expected_cols : Z) (row_obj : PyObject) : Result (list Cell) :=
  match row_obj with
  | PyList cells =>
      if negb (Z.of_nat (length cells) =? expected_cols)
      then Throw "Grid row column count mismatch"
      else parse_all parse_cell cells
  | _ => Throw "Grid row must be a list"
  end.

Definition parse_grid (grid_obj : PyObject) (expected_rows expected_cols : Z)
    : Result (list (list Cell)) :=
  match grid_obj with
  | PyList rows =>
      if negb (Z.of_nat (length rows) =? expected_rows)
      then Throw "Grid row count mismatch"
      else parse_all (parse_row expected_cols) rows
  | _ => Throw "Grid must be a list"
  end.

(** The lambda [extract_rgb]: one component, then the three of a tuple. *)
Definition extract_component (component : PyObject) : Result Z :=
  if negb (PyLong_Check component) then Throw "RGB component must be an integer"
  else
    match PyLong_AsLong component with
    | None => Throw "failed to convert RGB component"
    | Some value =>
        if (value <? 0) || (255 <? value)
        then Throw "RGB component must be in range 0-255"
        else Ok value
    end.

Definition extract_rgb (r g b : PyObject) : Result Z :=
  match extract_component r with
  | Ok r =>
      match extract_component g with
      | Ok g =>
          match extract_component b with
          | Ok b => Ok (Z.lor (Z.lor (Z.shiftl r 16) (Z.shiftl g 8)) b)
          | Throw what => Throw what
          | OutOfRange => OutOfRange
          end
      | Throw what => Throw what
      | OutOfRange => OutOfRange
      end
  | Throw what => Throw what
  | OutOfRange => OutOfRange
  end.

(** One entry of the colour-pair dictionary. *)
Definition parse_color_pair (entry : PyObject * PyObject) : Result (Z * ColorPair) :=
  let '(key, value) := entry in
  if negb (PyLong_Check key) then Throw "Color pair ID must be an integer"
  else
    match PyLong_AsLong key with
    | None => Throw "Failed to convert color pair ID to integer"
    | Some pair_id =>
        match value with
        | PyTuple [fg_tuple; bg_tuple] =>
            match fg_tuple with
            | PyTuple [fr; fg; fb] =>
                match bg_tuple with
                | PyTuple [br; bg; bb] =>
                    match extract_rgb fr fg fb with
                    | Ok fg_rgb =>
                        match extract_rgb br bg bb with
                        | Ok bg_rgb => Ok (wrap_int pair_id, mkColorPair fg_rgb bg_rgb)
                        | Throw what => Throw what
                        | OutOfRange => OutOfRange
                        end
                    | Throw what => Throw what
                    | OutOfRange => OutOfRange
                    end
                | _ => Throw "Color pair background must be an RGB tuple (r, g, b)"
                end
            | _ => Throw "Color pair foreground must be an RGB tuple (r, g, b)"
            end
        | _ => Throw "Color pair must be a tuple of 2 RGB tuples"
        end
    end.

Definition parse_color_pairs (pairs_obj : PyObject) : Result (gmap Z ColorPair) :=
  match pairs_obj with
  | PyDict items =>
      match parse_all parse_color_pair items with
      | Ok pairs => Ok (fold_left (fun m p => <[fst p := snd p]> m) pairs ∅)
      | Throw what => Throw what
      | OutOfRange => OutOfRange
      end
  | _ => Throw "Color pairs must be a dictionary"
  end.

(** ** The frame *)

(** The arguments of [render_frame] after [PyArg_ParseTupleAndKeywords]. *)
Record FrameArgs := mkFrameArgs {
  context_ptr : Z;
  grid_obj : PyObject;
  color_pairs_obj : PyObject;
  dirty_rect_obj : PyObject;
  arg_char_width : CGFloat;
  arg_char_height : CGFloat;
  arg_rows : Z;
  arg_cols : Z;
  arg_offset_x : CGFloat;
  arg_offset_y : CGFloat;
  cursor_visible : bool;
  cursor_row : Z;
  cursor_col : Z;
  marked_text : list Z;               (* UTF-16 units; empty for none *)
  selected_range_location : Z;
  selected_range_length : Z;
  arg_font_ascent : CGFloat;
  font_names_obj : PyObject;          (* [PyNone] when not given *)
  font_size : CGFloat
}.

Inductive PyExc := ValueError | TypeError | RuntimeError | MemoryError.

(** What the caller of [render_frame] gets. *)
Inductive FrameResult :=
| ReturnedNone
| Raised (exc : PyExc) (message : string)
| Undefined.      (* the frame indexed a vector out of range *)

(** The process-wide state: the caches with the base font they were built
    for, and the font configuration [initialize_caches] remembers. *)
Record Renderer := mkRenderer {
  caches : option (Caches * CTFontRef);
  last_font_names : list (list Z);
  last_font_size : CGFloat
}.

(** The [double] literal 0.01, exactly. *)
Definition eps_0_01 : Q := 5764607523034235 # 576460752303423488.

(** The font names [initialize_caches] extracts, as the bytes of their
    [std::string]s.  A string item is taken through [PyUnicode_AsUTF8]; the
    [std::string] made from the C string ends at its first NUL; an item that
    is no string or has no UTF-8 form is left out. *)
Definition font_names_of (font_names_obj : PyObject) : list (list Z) :=
  let font_name item :=
    match item with
    | PyUnicode code_points =>
        match PyUnicode_AsUTF8 code_points with
        | Some font_name_str => Some (until_nul font_name_str)
        | None => None
        end
    | _ => None
    end in
  let names :=
    match font_names_obj with
    | PyList items => omap font_name items
    | PyUnicode _ => match font_name font_names_obj with Some name => [name] | None => [] end
    | _ => []
    end in
  match names with
  | [] => [[77; 101; 110; 108; 111]]    (* "Menlo" *)
  | _ => names
  end.

Definition initialize_caches (os : Native) (font_names_obj : PyObject) (font_size_val : CGFloat)
    : M Renderer unit := fun g =>
  let font_names := font_names_of font_names_obj in
  let need_reinit :=
    negb (bool_decide (is_Some (caches g)))
    || negb (bool_decide (last_font_names g = font_names))
    || Qltb eps_0_01 (Qabs (last_font_size g - font_size_val)) in
  if negb need_reinit then (Ok tt, g)
  else
    let g := mkRenderer None font_names font_size_val in
    match CFStringCreateWithCString os (default [] (head font_names)) with
    | None => (Throw "Failed to create font name CFString", g)
    | Some _ =>
        match create_base_font os font_names font_size_val with
        | None => (Throw "Failed to create base font", g)
        | Some base_font =>
            (Ok tt,
             mkRenderer
               (Some (mkCaches (ColorCache.new 256) (FontCache.new (Some base_font))
                        AttributeDictCache.new, base_font))
               font_names font_size_val)
        end
    end.

(** [render_marked_text], reduced to its use of the colour cache: once a font
    for the whole text is found it asks for the two background colours and
    the text colour and draws the overlay.  The overlay is one drawing
    operation of the model, issued when all three colours are there; the
    background fills the source has issued by the time the text colour is
    asked for are not told apart from it. *)
Definition render_marked_text (os : Native) (text : list Z) (row col : Z)
    (base_font : CTFontRef) (cc : ColorCache.t) : Result (list DrawOp) * ColorCache.t :=
  if bool_decide (text = []) then (Ok [], cc)
  else
    match CFStringCreateWithCString os text with
    | None => (Ok [], cc)
    | Some _ =>
        let found :=
          CTFontGetGlyphsForCharacters os base_font text
          || match CTFontCopyFontDescriptor os base_font with
             | Some descriptor =>
                 match CTFontDescriptorCopyAttribute os descriptor with
                 | Some cascade_list =>
                     existsb (fun cascade_desc =>
                                match CTFontCreateWithFontDescriptor os cascade_desc
                                        (CTFontGetSize os base_font) with
                                | Some cascade_font =>
                                    CTFontGetGlyphsForCharacters os cascade_font text
                                | None => false
                                end) cascade_list
                 | None => false
                 end
             | None => false
             end in
        if negb found then (Ok [], cc)
        else
          match ColorCache.get_color os 60 60 60 1 cc with
          | (Ok _, cc) =>
              match ColorCache.get_color os 100 100 100 1 cc with
              | (Ok _, cc) =>
                  match ColorCache.get_color os 255 255 255 1 cc with
                  | (Ok _, cc) => (Ok [DrawMarkedText text row col], cc)
                  | (Throw what, cc) => (Throw what, cc)
                  | (OutOfRange, cc) => (OutOfRange, cc)
                  end
              | (Throw what, cc) => (Throw what, cc)
              | (OutOfRange, cc) => (OutOfRange, cc)
              end
          | (Throw what, cc) => (Throw what, cc)
          | (OutOfRange, cc) => (OutOfRange, cc)
          end
    end.

(** Task 14.1 of [render_frame]: the checks on the grid dimensions, the cell
    dimensions, the grid, the colour table and the dirty rect, in the order of
    the source; the result is the dirty rect. *)
Definition validate_frame (a : FrameArgs) : PyExc * string + CGRect :=
  if (arg_rows a <=? 0) || (arg_cols a <=? 0)
  then inl (ValueError, "Grid dimensions must be positive (rows > 0, cols > 0)"%string)
  else if (10000 <? arg_rows a) || (10000 <? arg_cols a)
  then inl (ValueError, "Grid dimensions too large (max 10000x10000)"%string)
  else if Qle_bool (arg_char_width a) 0 || Qle_bool (arg_char_height a) 0
  then inl (ValueError, "Character dimensions must be positive"%string)
  else if negb (PyList_Check (grid_obj a)) then inl (TypeError, "Grid must be a list"%string)
  else if negb (PyDict_Check (color_pairs_obj a))
  then inl (TypeError, "Color pairs must be a dictionary"%string)
  else
    match dirty_rect_obj a with
    | PyTuple [rect_x_obj; rect_y_obj; rect_width_obj; rect_height_obj] =>
        let number o := PyFloat_Check o || PyLong_Check o in
        if negb (number rect_x_obj) then inl (TypeError, "Dirty rect x must be a number"%string)
        else if negb (number rect_y_obj)
        then inl (TypeError, "Dirty rect y must be a number"%string)
        else if negb (number rect_width_obj)
        then inl (TypeError, "Dirty rect width must be a number"%string)
        else if negb (number rect_height_obj)
        then inl (TypeError, "Dirty rect height must be a number"%string)
        else inr (mkCGRect (PyFloat_AsDouble rect_x_obj) (PyFloat_AsDouble rect_y_obj)
                    (PyFloat_AsDouble rect_width_obj) (PyFloat_AsDouble rect_height_obj))
    | _ => inl (TypeError,
                "Dirty rect must be a tuple of 4 numbers (x, y, width, height)"%string)
    end.

(** How [render_frame] reports what its [try] block ends with. *)
Definition report {A : Type} (r : Result A) : FrameResult :=
  match r with
  | Ok _ => ReturnedNone
  | Throw what => Raised RuntimeError what
  | OutOfRange => Undefined
  end.

(** Task 14.2 of [render_frame], after the caches are there: parsing, the
    dirty region, backgrounds, characters, cursor and marked text.  The result
    carries the caches and the drawing operations issued. *)
Definition render_pipeline (os : Native) (a : FrameArgs) (dirty_rect : CGRect)
    (cs : Caches) (base_font : CTFontRef) : Result unit * Caches * list DrawOp :=
  match parse_grid (grid_obj a) (arg_rows a) (arg_cols a) with
  | Throw what => (Throw what, cs, [])
  | OutOfRange => (OutOfRange, cs, [])
  | Ok grid =>
      match parse_color_pairs (color_pairs_obj a) with
      | Throw what => (Throw what, cs, [])
      | OutOfRange => (OutOfRange, cs, [])
      | Ok color_pairs =>
          let dirty_cells :=
            calculate_dirty_cells dirty_rect (arg_char_width a) (arg_char_height a)
              (arg_rows a) (arg_cols a) (arg_offset_x a) (arg_offset_y a) in
          match render_backgrounds grid color_pairs dirty_cells (arg_char_width a)
                  (arg_char_height a) (arg_rows a) (arg_cols a) (arg_offset_x a)
                  (arg_offset_y a) RectangleBatcher_new with
          | (Throw what, _) => (Throw what, cs, [])
          | (OutOfRange, _) => (OutOfRange, cs, [])
          | (Ok _, batcher) =>
              let backgrounds := fst (draw_batched_backgrounds batcher) in
              match render_characters os grid color_pairs dirty_cells (arg_char_width a)
                      (arg_char_height a) (arg_rows a) (arg_cols a) (arg_offset_x a)
                      (arg_offset_y a) (arg_font_ascent a)
                      (mkCharPass cs None backgrounds) with
              | (Throw what, st) => (Throw what, cp_caches st, cp_drawn st)
              | (OutOfRange, st) => (OutOfRange, cp_caches st, cp_drawn st)
              | (Ok _, st) =>
                  let cursor :=
                    if cursor_visible a
                    then [FillCursor
                            (inject_Z (cursor_col a) * arg_char_width a + arg_offset_x a)%Q
                            (ttk_to_cg_y (cursor_row a) (arg_rows a) (arg_char_height a)
                             + arg_offset_y a)%Q
                            (arg_char_width a) (arg_char_height a)]
                    else [] in
                  let cs1 := cp_caches st in
                  match render_marked_text os (marked_text a) (cursor_row a) (cursor_col a)
                          base_font (g_color_cache cs1) with
                  | (r, cc) =>
                      (match r with
                       | Ok _ => Ok tt
                       | Throw what => Throw what
                       | OutOfRange => OutOfRange
                       end,
                       mkCaches cc (g_font_cache cs1) (g_attr_dict_cache cs1),
                       cp_drawn st ++ cursor ++ match r with Ok ops => ops | _ => [] end)
                  end
              end
          end
      end
  end.

(** [render_frame]: the result for the caller, the renderer's state after the
    call and the drawing operations issued. *)
Definition render_frame (os : Native) (a : FrameArgs) (g : Renderer)
    : FrameResult * Renderer * list DrawOp :=
  if context_ptr a =? 0 then (Raised ValueError "CGContext cannot be null", g, [])
  else
  match validate_frame a with
  | inl (exc, message) => (Raised exc message, g, [])
  | inr dirty_rect =>
      match initialize_caches os (font_names_obj a) (font_size a) g with
      | (Ok _, g1) =>
          match caches g1 with
          | Some (cs, base_font) =>
              let '(r, cs', drawn) := render_pipeline os a dirty_rect cs base_font in
              (report r, mkRenderer (Some (cs', base_font)) (last_font_names g1)
                           (last_font_size g1), drawn)
          | None => (Undefined, g1, [])
          end
      | (r, g1) => (report r, g1, [])
      end
  end.

(** ** What a well-formed frame is *)

Definition py_number (o : PyObject) : Prop :=
  (exists d, o = PyFloat d) \/ (exists z, o = PyLong z) \/ (exists b, o = PyBool b).

(** An integer that fits a C [long]. *)
Definition py_long (o : PyObject) : Prop :=
  (exists z, o = PyLong z /\ LONG_MIN <= z <= LONG_MAX) \/ (exists b, o = PyBool b).

(** An integer in 0..255. *)
Definition py_rgb_component (o : PyObject) : Prop :=
  (exists z, o = PyLong z /\ 0 <= z <= 255) \/ (exists b, o = PyBool b).

(** A string that has a UTF-16 form: one without a surrogate code point, or
    one of the basic plane only. *)
Definition py_text (o : PyObject) : Prop :=
  exists code_points, o = PyUnicode code_points /\
    (Forall (fun cp => cp < 65536) code_points \/
     Forall (fun cp => is_surrogate cp = false) code_points).

(** [(char, color_pair, attributes, is_wide)]. *)
Definition well_formed_cell (o : PyObject) : Prop :=
  exists char_obj color_pair_obj attributes_obj is_wide_obj,
    o = PyTuple [char_obj; color_pair_obj; attributes_obj; is_wide_obj] /\
    py_text char_obj /\ py_long color_pair_obj /\ py_long attributes_obj.

Definition well_formed_row (cols : Z) (o : PyObject) : Prop :=
  exists cells, o = PyList cells /\ Z.of_nat (length cells) = cols /\
                Forall well_formed_cell cells.

(** A list of [rows] lists of [cols] cells. *)
Definition well_formed_grid (o : PyObject) (rows cols : Z) : Prop :=
  exists rs, o = PyList rs /\ Z.of_nat (length rs) = rows /\
             Forall (well_formed_row cols) rs.

Definition py_rgb_tuple (o : PyObject) : Prop :=
  exists r g b, o = PyTuple [r; g; b] /\
                py_rgb_component r /\ py_rgb_component g /\ py_rgb_component b.

(** An integer key with the value [((r, g, b), (r, g, b))]. *)
Definition well_formed_entry (entry : PyObject * PyObject) : Prop :=
  py_long (fst entry) /\
  exists fg bg, snd entry = PyTuple [fg; bg] /\ py_rgb_tuple fg /\ py_rgb_tuple bg.

(** A dictionary from integers to [((r, g, b), (r, g, b))]. *)
Definition well_formed_color_table (o : PyObject) : Prop :=
  exists items, o = PyDict items /\ Forall well_formed_entry items.

(** [(x, y, width, height)], four numbers. *)
Definition well_formed_dirty_rect (o : PyObject) : Prop :=
  exists x y w h, o = PyTuple [x; y; w; h] /\
                  py_number x /\ py_number y /\ py_number w /\ py_number h.

Definition valid_dimensions (a : FrameArgs) : Prop :=
  0 < arg_rows a <= 10000 /\ 0 < arg_cols a <= 10000 /\
  (0 < arg_char_width a)%Q /\ (0 < arg_char_height a)%Q.

Definition frame_conditions (a : FrameArgs) : Prop :=
  valid_dimensions a /\
  well_formed_grid (grid_obj a) (arg_rows a) (arg_cols a) /\
  well_formed_color_table (color_pairs_obj a) /\
  well_formed_dirty_rect (dirty_rect_obj a).

(** ** Outcomes of a computation *)

(** [m] never indexes out of range, throws only if [may_throw], and returns
    only values satisfying [P]. *)
Definition outcome {S A : Type} (may_throw : bool) (P : A -> Prop) (m : M S A) : Prop :=
  forall s, match fst (m s) with
            | Ok a => P a
            | Throw _ => may_throw = true
            | OutOfRange => False
            end.

(** ** Specification-side vocabulary for the dirty-region mapping *)





(** [std::round]: to the nearest integer, halves away from zero. *)
Definition Qround_half_away (q : Q) : Z :=
  if Qle_bool 0 q then Qfloor (q + (1 # 2)) else Qceiling (q - (1 # 2)).

(** The row bounds as the specification words them: both edges through
    [rows - round(edge / char_h)], then ordered, then clamped to [0, rows]. *)
Definition spec_row_bounds (dirty_rect : CGRect) (char_height : CGFloat)
    (rows : Z) (offset_y : CGFloat) : Z * Z :=
  let grid_y := (origin_y dirty_rect - offset_y)%Q in
  let grid_top := (grid_y + size_height dirty_rect)%Q in
  let a := int_sub rows (static_cast_int (Qround_half_away (grid_top / char_height))) in
  let b := int_sub rows (static_cast_int (Qround_half_away (grid_y / char_height))) in
  (clamp (Z.min a b) rows, clamp (Z.max a b) rows).



(** ** Histories of cache calls *)

(** One call of [ColorCache::get_color], with the native layer's answers
    during it. *)
Record ColorRequest := mkColorRequest {
  rq_os : Native;
  rq_r : Z; rq_g : Z; rq_b : Z;
  rq_alpha : Q
}.

Definition rq_key (rq : ColorRequest) : Z := ColorCache.pack_key (rq_r rq) (rq_g rq) (rq_b rq).

Definition request_color (rq : ColorRequest) (c : ColorCache.t) : Result CGColorRef * ColorCache.t :=
  ColorCache.get_color (rq_os rq) (rq_r rq) (rq_g rq) (rq_b rq) (rq_alpha rq) c.

Inductive ColorOp :=
| OpGetColor (rq : ColorRequest)
| OpClear.

Definition ColorCache_step (c : ColorCache.t) (op : ColorOp) : ColorCache.t :=
  match op with
  | OpGetColor rq => snd (request_color rq c)
  | OpClear => ColorCache.clear c
  end.

Definition ColorCache_run (ops : list ColorOp) (c : ColorCache.t) : ColorCache.t :=
  fold_left ColorCache_step ops c.

Definition request_colors (reqs : list ColorRequest) (c : ColorCache.t) : ColorCache.t :=
  ColorCache_run (OpGetColor <$> reqs) c.



(** Position in the history of the last request for colour [k]; -1 when the
    history has none. *)
Definition last_access (k : Z) (reqs : list ColorRequest) : Z :=
  snd (fold_left (fun acc rq => (fst acc + 1, if rq_key rq =? k then fst acc else snd acc))
                 reqs (0, -1)).

(** Invariant of a [ColorCache] that has served at most [n] calls since its
    counter was last reset. *)
Definition ColorCache_wf (n : Z) (c : ColorCache.t) : Prop :=
  dom (ColorCache.cache_ c) = dom (ColorCache.access_order_ c) /\
  (forall k v, ColorCache.access_order_ c !! k = Some v -> 0 <= v < ColorCache.access_counter_ c) /\
  (forall k1 k2 v, ColorCache.access_order_ c !! k1 = Some v ->
                   ColorCache.access_order_ c !! k2 = Some v -> k1 = k2) /\
  0 <= ColorCache.access_counter_ c <= n /\
  Z.of_nat (size (ColorCache.cache_ c)) <= ColorCache.max_size_ c.

(** One call of [AttributeDictCache::get_attributes], with the native
    layer's answers during it. *)
Record AttrCall := mkAttrCall {
  ac_os : Native;
  ac_font_attributes : Z;   (* int *)
  ac_color_rgb : Z;         (* uint32_t *)
  ac_underline : bool
}.

Definition call_get_attributes (call : AttrCall) (s : Caches) : Result CFDictionary * Caches :=
  get_attributes (ac_os call) (ac_font_attributes call) (ac_color_rgb call)
                 (ac_underline call) s.

Definition calls_get_attributes (calls : list AttrCall) (s : Caches) : Caches :=
  fold_left (fun s call => snd (call_get_attributes call s)) calls s.

(** The triple of a call as the caller gives it. *)
Definition attr_triple (call : AttrCall) : Z * Z * bool :=
  (ac_font_attributes call, ac_color_rgb call, ac_underline call).

(** The triple as it enters the composite key: of [font_attributes] only
    the low 31 bits. *)
Definition keyed_triple (call : AttrCall) : Z * Z * bool :=
  (Z.land (ac_font_attributes call) 2147483647, ac_color_rgb call, ac_underline call).

Definition is_uint32 (z : Z) : Prop := 0 <= z < 4294967296.

Definition call_key (call : AttrCall) : Z :=
  AttributeDictCache.make_key (ac_font_attributes call) (ac_color_rgb call) (ac_underline call).

Definition attr_cache (s : Caches) : gmap Z CFDictionary :=
  AttributeDictCache.cache_ (g_attr_dict_cache s).

Definition hits (s : Caches) : Z := AttributeDictCache.hits_ (g_attr_dict_cache s).
Definition misses (s : Caches) : Z := AttributeDictCache.misses_ (g_attr_dict_cache s).

(** ** A native layer for the examples *)

(** Every creation succeeds and returns the object [fresh]; font 100 is the
    primary font and renders the code units below 128, its cascade list holds
    the descriptors 201 and 202, whose fonts 301 and 302 render the code units
    below 0x3000 and all the others; the bold variant of font [f] is
    [f + 1000]. *)
Definition example_native (fresh : Z) : Native :=
  mkNative (Some 1) (fun _ _ => Some fresh)
    (fun f => Some (f + 1000))
    (fun f chars =>
       if (f =? 100) || (f =? 1100) then forallb (fun ch => ch <? 128) chars
       else if (f =? 301) || (f =? 1301) then forallb (fun ch => ch <? 12288) chars
       else (f =? 302) || (f =? 1302))
    (fun f => Some (f + 50))
    (fun d => if (d =? 150) || (d =? 1150) then Some [201; 202] else None)
    (fun d _ => Some (d + 100))
    (fun _ => 12%Q)
    (fun f => 1000 <=? f)
    (fun _ => Some fresh)
    (fun _ _ _ => Some fresh)
    (fun _ => Some fresh)
    (fun _ _ => Some 100).

(** The native layer fails every creation. *)
Definition failing_native : Native :=
  mkNative None (fun _ _ => None) (fun _ => None) (fun _ _ => false) (fun _ => None)
    (fun _ => None) (fun _ _ => None) (fun _ => 12%Q) (fun _ => false) (fun _ => None)
    (fun _ _ _ => None) (fun _ => None) (fun _ _ => None).

(** A native layer in which every font renders every text. *)
Definition complete_native (fresh : Z) : Native :=
  mkNative (Some 1) (fun _ _ => Some fresh) (fun f => Some (f + 1000)) (fun _ _ => true)
    (fun f => Some (f + 50)) (fun _ => None) (fun d _ => Some (d + 100)) (fun _ => 12%Q)
    (fun f => 1000 <=? f) (fun _ => Some fresh) (fun _ _ _ => Some fresh)
    (fun _ => Some fresh) (fun _ _ => Some 100).

Definition example_color_pairs : gmap Z ColorPair := {[ 0 := mkColorPair 16777215 0 ]}.

Definition fresh_caches : Caches :=
  mkCaches (ColorCache.new 256) (FontCache.new (Some 100)) AttributeDictCache.new.

Definition fresh_pass : CharPass := mkCharPass fresh_caches None [].

(** One row: 'A', a space with the given attributes, 'B'; colour pair 0. *)
Definition row_A_space_B (space_attributes : Z) : list (list Cell) :=
  [[mkCell [65] 0 0 false; mkCell [32] 0 space_attributes false; mkCell [66] 0 0 false]].

(** One row: 'A', an underlined space with the unknown colour pair 5, 'B'. *)
Definition row_A_space5_B : list (list Cell) :=
  [[mkCell [65] 0 0 false; mkCell [32] 5 2 false; mkCell [66] 0 0 false]].

(** One row: 'A' with pair 0, 'B' with the unknown pair 5, 'C' with pair 0. *)
Definition row_A_B5_C : list (list Cell) :=
  [[mkCell [65] 0 0 false; mkCell [66] 5 0 false; mkCell [67] 0 0 false]].

(** One row: a wide cell, a cell with the unknown pair 5, a cell of the wide
    cell's colour. *)
Definition row_wide_B5_C : list (list Cell) :=
  [[mkCell [12354] 0 0 true; mkCell [66] 5 0 false; mkCell [67] 0 0 false]].

Definition whole_row : CellRect := mkCellRect 0 1 0 3.

(** The cell loop body of the character pass on a one-row example grid of
    8 x 16 cells. *)
Definition example_character_cell (grid : list (list Cell)) : Z -> Z -> M CharPass Z :=
  character_cell (complete_native 31) grid example_color_pairs whole_row 8 16 1 3 0 0 12.

Definition example_background_cell (grid : list (list Cell)) : Z -> Z -> M RectangleBatcher Z :=
  background_cell grid example_color_pairs 8 16 1 3 0 0.

Definition texts_drawn (ops : list DrawOp) : list (list Z) :=
  omap (fun op => match op with DrawGlyphs batch _ _ _ => Some (cb_text batch) | _ => None end) ops.

(** [m] returns only values satisfying [P]. *)
Definition returns {S A : Type} (P : A -> Prop) (m : M S A) : Prop :=
  forall s a s', m s = (Ok a, s') -> P a.

(** A frame of [rows] rows and two columns whose grid has the one row 'A',
    'B', white on black; the dirty rect is the two cells. *)
Definition example_frame (rows : Z) : FrameArgs :=
  mkFrameArgs 1
    (PyList [PyList [PyTuple [PyUnicode [65]; PyLong 0; PyLong 0; PyBool false];
                     PyTuple [PyUnicode [66]; PyLong 0; PyLong 0; PyBool false]]])
    (PyDict [(PyLong 0, PyTuple [PyTuple [PyLong 255; PyLong 255; PyLong 255];
                                 PyTuple [PyLong 0; PyLong 0; PyLong 0]])])
    (PyTuple [PyLong 0; PyLong 0; PyFloat 16; PyFloat 16])
    8 16 rows 2 0 0 false 0 0 [] 0 0 12 PyNone 12.

(** The renderer before its first frame. *)
Definition no_renderer : Renderer := mkRenderer None [] 0.

(** ** More of the rectangle batcher *)



(** ** Histories of font requests *)

(** A sequence of [FontCache::get_font] calls, each with the native layer's
    answers during it. *)
Definition get_fonts (calls : list (Native * Z)) (f : FontCache.t) : FontCache.t :=
  fold_left (fun f call => snd (FontCache.get_font (fst call) (snd call) f)) calls f.

(** The components [draw_batched_backgrounds] and [get_attributes] take out
    of a packed colour: [(rgb >> 16) & 0xFF], [(rgb >> 8) & 0xFF],
    [rgb & 0xFF]. *)
Definition unpack_rgb (rgb : Z) : Z * Z * Z :=
  (Z.land (Z.shiftr rgb 16) 255, Z.land (Z.shiftr rgb 8) 255, Z.land rgb 255).

(** ** Cache maintenance and performance metrics *)

(** [clear_caches]: each cache that exists is cleared.  The three pointers
    [g_attr_dict_cache], [g_font_cache] and [g_color_cache] are set and reset
    together by [initialize_caches], so they are all null or all set. *)
Definition clear_caches (g : Renderer) : Renderer :=
  match caches g with
  | Some (cs, base_font) =>
      mkRenderer
        (Some (mkCaches (ColorCache.clear (g_color_cache cs))
                 (FontCache.clear (g_font_cache cs))
                 (AttributeDictCache.clear (g_attr_dict_cache cs)), base_font))
        (last_font_names g) (last_font_size g)
  | None => g
  end.

(** The counters of the module ([g_frames_rendered] ... [g_last_failed_char]);
    a [size_t] is a [Z], a [double] an exact rational. *)
Record Metrics := mkMetrics {
  g_frames_rendered : Z;
  g_total_render_time_ms : Q;
  g_total_batches : Z;
  g_total_characters : Z;
  g_total_batch_splits : Z;
  g_font_lookups : Z;
  g_font_cache_hits : Z;
  g_enable_perf_logging : bool;
  g_last_failed_char : Z
}.

(** [reset_metrics]: the counters of the module and, when it exists, those
    of the attribute dictionary cache. *)
Definition reset_metrics (m : Metrics) (g : Renderer) : Metrics * Renderer :=
  (mkMetrics 0 0 0 0 0 0 0 (g_enable_perf_logging m) 0,
   match caches g with
   | Some (cs, base_font) =>
       mkRenderer
         (Some (mkCaches (g_color_cache cs) (g_font_cache cs)
                  (AttributeDictCache.reset_metrics (g_attr_dict_cache cs)), base_font))
         (last_font_names g) (last_font_size g)
   | None => g
   end).

(** The dictionary [get_performance_metrics] returns, one field per key;
    the creation of the Python objects is taken to succeed. *)
Record PerformanceMetrics := mkPerformanceMetrics {
  frames_rendered : Z;
  total_render_time_ms : Q;
  avg_render_time_ms : Q;
  total_batches : Z;
  avg_batches_per_frame : Q;
  total_characters : Z;
  avg_chars_per_frame : Q;
  avg_chars_per_batch : Q;
  total_batch_splits : Z;
  avg_splits_per_frame : Q;
  font_lookups : Z;
  font_cache_hits : Z;
  font_hit_rate_percent : Q;
  attr_dict_cache_hits : Z;
  attr_dict_cache_misses : Z;
  attr_dict_cache_hit_rate : Q
}.

Definition get_performance_metrics (m : Metrics) (g : Renderer) : PerformanceMetrics :=
  let per_frame (total : Q) : Q :=
    if 0 <? g_frames_rendered m then (total / inject_Z (g_frames_rendered m))%Q else 0%Q in
  let avg_render_time_ms := per_frame (g_total_render_time_ms m) in
  let avg_batches_per_frame := per_frame (inject_Z (g_total_batches m)) in
  let '(attr_dict_hits, attr_dict_misses, cache_hit_rate) :=
    match caches g with
    | Some (cs, _) =>
        let attr_dict_hits := AttributeDictCache.hits_ (g_attr_dict_cache cs) in
        let attr_dict_misses := AttributeDictCache.misses_ (g_attr_dict_cache cs) in
        let total_accesses := (attr_dict_hits + attr_dict_misses) mod 18446744073709551616 in
        (attr_dict_hits, attr_dict_misses,
         if 0 <? total_accesses
         then (inject_Z attr_dict_hits / inject_Z total_accesses * 100)%Q else 0%Q)
    | None => (0, 0, 0%Q)
    end in
  let avg_chars_per_frame := per_frame (inject_Z (g_total_characters m)) in
  let avg_splits_per_frame := per_frame (inject_Z (g_total_batch_splits m)) in
  let avg_chars_per_batch :=
    if 0 <? g_total_batches m
    then (inject_Z (g_total_characters m) / inject_Z (g_total_batches m))%Q else 0%Q in
  let font_hit_rate :=
    if 0 <? g_font_lookups m
    then (inject_Z (g_font_cache_hits m) / inject_Z (g_font_lookups m) * 100)%Q else 0%Q in
  mkPerformanceMetrics (g_frames_rendered m) (g_total_render_time_ms m) avg_render_time_ms
    (g_total_batches m) avg_batches_per_frame (g_total_characters m) avg_chars_per_frame
    avg_chars_per_batch (g_total_batch_splits m) avg_splits_per_frame (g_font_lookups m)
    (g_font_cache_hits m) font_hit_rate attr_dict_hits attr_dict_misses cache_hit_rate.

(** ** UTF-16 *)

(** The code points a sequence of UTF-16 code units stands for: a high
    surrogate followed by a low surrogate is one code point above U+FFFF,
    any other unit is itself. *)
Fixpoint utf16_decode (units : list Z) : list Z :=
  match units with
  | [] => []
  | hi :: rest =>
      match rest with
      | lo :: rest' =>
          if (55296 <=? hi) && (hi <=? 56319) && (56320 <=? lo) && (lo <=? 57343)
          then 65536 + Z.shiftl (hi - 55296) 10 + (lo - 56320) :: utf16_decode rest'
          else hi :: utf16_decode rest
      | [] => [hi]
      end
  end.

(** A Unicode scalar value other than NUL. *)
Definition scalar_value (cp : Z) : Prop := 0 < cp <= 1114111 /\ is_surrogate cp = false.

(** ** What a pass does to its state *)

(** Every run of [m] takes the state to one related to it by [R], whether
    [m] returns or not. *)
Definition steps {S A : Type} (R : S -> S -> Prop) (m : M S A) : Prop :=
  forall s, R s (snd (m s)).

(** A drawing operation of the background pass. *)
Definition background_op (op : DrawOp) : Prop :=
  match op with FillRect _ _ _ _ _ => True | _ => False end.

(** A drawing operation of the character pass. *)
Definition glyph_op (op : DrawOp) : Prop :=
  match op with DrawGlyphs _ _ _ _ | FillUnderline _ _ _ => True | _ => False end.

(** The pass has appended glyph operations to what was drawn, and nothing
    else has happened to it. *)
Definition draws_glyphs (st st' : CharPass) : Prop :=
  exists ops, cp_drawn st' = cp_drawn st ++ ops /\ Forall glyph_op ops.

(** ** When a frame succeeds *)

(** The native layer creates every object it is asked for. *)
Definition native_creates (os : Native) : Prop :=
  is_Some (CGColorSpaceCreateDeviceRGB os) /\
  (forall space components, is_Some (CGColorCreate os space components)) /\
  (forall value, is_Some (CFNumberCreate os value)) /\
  (forall font color number, is_Some (CFDictionaryCreate os font color number)) /\
  (forall text, is_Some (CFStringCreateWithCString os text)) /\
  (forall names size, is_Some (create_base_font os names size)).

(** The font cache has a base font and holds no null font. *)
Definition fonts_cached (f : FontCache.t) : Prop :=
  is_Some (FontCache.base_font_ f) /\
  forall k, FontCache.cache_ f !! k <> Some None.

Definition renderer_fonts_cached (g : Renderer) : Prop :=
  forall cs base_font, caches g = Some (cs, base_font) -> fonts_cached (g_font_cache cs).

Definition pass_fonts_cached (st : CharPass) : Prop :=
  fonts_cached (g_font_cache (cp_caches st)).

(** [m] never throws from a state satisfying [I], and keeps [I]. *)
Definition never_throws {S A : Type} (I : S -> Prop) (m : M S A) : Prop :=
  forall s, I s -> I (snd (m s)) /\ forall what, fst (m s) <> Throw what.

(** ** [is_wide_character] of [src/cpp_renderer.cpp]

    The renderer that works on UTF-8 text decides by itself whether a cell's
    character is wide. *)

(** The test on the decoded code point: CJK unified ideographs, CJK
    compatibility ideographs, Hangul syllables, Hiragana, Katakana and the
    fullwidth forms. *)
Definition in_wide_ranges (codepoint : Z) : bool :=
  ((19968 <=? codepoint) && (codepoint <=? 40959))
  || ((63744 <=? codepoint) && (codepoint <=? 64255))
  || ((44032 <=? codepoint) && (codepoint <=? 55215))
  || ((12352 <=? codepoint) && (codepoint <=? 12447))
  || ((12448 <=? codepoint) && (codepoint <=? 12543))
  || ((65280 <=? codepoint) && (codepoint <=? 65519)).

(** [utf8_char] is a [std::string], given by its bytes (0..255). *)
Definition is_wide_character (utf8_char : list Z) : bool :=
  match utf8_char with
  | [] => false
  | b0 :: _ =>
      let bytes i := nth i utf8_char 0 in
      let len := Z.of_nat (length utf8_char) in
      let codepoint :=
        if Z.land b0 128 =? 0 then Some b0
        else if Z.land b0 224 =? 192 then
          if len <? 2 then None
          else Some (Z.lor (Z.shiftl (Z.land b0 31) 6) (Z.land (bytes 1%nat) 63))
        else if Z.land b0 240 =? 224 then
          if len <? 3 then None
          else Some (Z.lor (Z.lor (Z.shiftl (Z.land b0 15) 12)
                              (Z.shiftl (Z.land (bytes 1%nat) 63) 6))
                       (Z.land (bytes 2%nat) 63))
        else if Z.land b0 248 =? 240 then
          if len <? 4 then None
          else Some (Z.lor (Z.lor (Z.lor (Z.shiftl (Z.land b0 7) 18)
                                     (Z.shiftl (Z.land (bytes 1%nat) 63) 12))
                              (Z.shiftl (Z.land (bytes 2%nat) 63) 6))
                       (Z.land (bytes 3%nat) 63))
        else None in
      match codepoint with
      | Some codepoint => in_wide_ranges codepoint
      | None => false
      end
  end.

(** ** Hoare triples for the passes *)

(** From a state satisfying [P], [m] returns only values and states related
    by [Q]; when it throws or leaves a vector, it leaves a state satisfying
    [E]. *)
Definition triple {S A : Type} (P : S -> Prop) (m : M S A) (Q : A -> S -> Prop)
    (E : S -> Prop) : Prop :=
  forall s, P s -> match m s with
                   | (Ok a, s') => Q a s'
                   | (_, s') => E s'
                   end.

(** The font cache has entries for the attribute values 0 and 1 only. *)
Definition fonts_bounded (f : FontCache.t) : Prop :=
  forall k, is_Some (FontCache.cache_ f !! k) -> k = 0 \/ k = 1.

Definition renderer_fonts_bounded (g : Renderer) : Prop :=
  forall cs base_font, caches g = Some (cs, base_font) -> fonts_bounded (g_font_cache cs).

(** The character pass has asked for the fonts of the attribute values 0
    and 1 only, and its open run has one of them. *)
Definition pass_fonts_bounded (st : CharPass) : Prop :=
  fonts_bounded (g_font_cache (cp_caches st)) /\
  forall batch, cp_current_batch st = Some batch ->
                cb_font_attributes batch = 0 \/ cb_font_attributes batch = 1.

(** A session: frames rendered one after the other, and [clear_caches]
    calls between them. *)
Inductive SessionOp :=
| OpRenderFrame (os : Native) (a : FrameArgs)
| OpClearCaches.

Definition session_step (g : Renderer) (op : SessionOp) : Renderer :=
  match op with
  | OpRenderFrame os a => snd (fst (render_frame os a g))
  | OpClearCaches => clear_caches g
  end.

Definition session (ops : list SessionOp) (g : Renderer) : Renderer :=
  fold_left session_step ops g.

(** ** Frames that leave no Python error behind

    [render_frame] does not test the error indicator after it has converted
    the dirty rect, and [initialize_caches] does not test it after it has
    converted the font names; the model does not follow the indicator.  A
    frame for which every one of these conversions succeeds leaves it
    unset. *)

(** A number [PyFloat_AsDouble] converts without setting an error. *)
Definition converts_to_double (o : PyObject) : Prop :=
  match o with
  | PyLong z => Z.abs z < DBL_OVERFLOW
  | _ => True
  end.

(** A font name [PyUnicode_AsUTF8] converts without setting an error. *)
Definition font_name_converts (item : PyObject) : Prop :=
  match item with
  | PyUnicode code_points => is_Some (PyUnicode_AsUTF8 code_points)
  | _ => True
  end.

Definition no_error_left_set (a : FrameArgs) : Prop :=
  match dirty_rect_obj a with
  | PyTuple items => Forall converts_to_double items
  | _ => True
  end /\
  match font_names_obj a with
  | PyList items => Forall font_name_converts items
  | item => font_name_converts item
  end.

(** ** Geometry that binary64 arithmetic computes exactly

    The model computes with the exact values of the [double]s.  The code's
    sums, differences and products are exact as well when cell size, offsets
    and rect are multiples of one power of two, [n / 2^k], with integers [n]
    small enough for every intermediate result to have at most 53 bits; a
    quotient of two such values is then the correctly rounded quotient of two
    integers below [2^53], whose floor and ceiling are those of the exact
    quotient. *)

(** [n / 2^k]. *)
Definition dyadic (n : Z) (k : nat) : Q := n # Pos.shiftl_nat 1 k.

(** * Properties *)

Lemma Qltb_lt (a b : Q) : Qltb a b = true <-> (a < b)%Q.
Proof.
  unfold Qltb. rewrite negb_true_iff. split.
  - intros H. apply Qnot_le_lt. intros Hle.
    apply Qle_bool_iff in Hle. congruence.
  - intros H. destruct (Qle_bool b a) eqn:E; [|reflexivity].
    apply Qle_bool_iff in E. exfalso. apply (Qlt_not_le _ _ H E).
Qed.

(** ** Machine integers *)

Lemma static_cast_int_id (z : Z) : INT_MIN <= z <= INT_MAX -> static_cast_int z = z.
Proof. unfold static_cast_int, INT_MIN, INT_MAX. lia. Qed.

Lemma static_cast_int_range (z : Z) : INT_MIN <= static_cast_int z <= INT_MAX.
Proof. unfold static_cast_int, INT_MIN, INT_MAX. lia. Qed.

Lemma static_cast_int_mono (a b : Z) : a <= b -> static_cast_int a <= static_cast_int b.
Proof. unfold static_cast_int. lia. Qed.

Lemma wrap_int_id (z : Z) : INT_MIN <= z <= INT_MAX -> wrap_int z = z.
Proof. unfold wrap_int, INT_MIN, INT_MAX. intros H. rewrite Z.mod_small; lia. Qed.

Lemma clamp_bounds (v n : Z) : 0 <= n -> 0 <= clamp v n <= n.
Proof. unfold clamp. lia. Qed.

Lemma clamp_mono (a b n : Z) : a <= b -> clamp a n <= clamp b n.
Proof. unfold clamp. lia. Qed.



(** ** Dirty-region mapping *)



Lemma Qfloor_div_ge (n : Z) (a c : Q) :
  (0 < c)%Q -> (inject_Z n * c <= a)%Q -> n <= Qfloor (a / c).
Proof.
  intros Hc Ha.
  assert (H : (inject_Z n <= a / c)%Q) by (apply Qle_shift_div_l; assumption).
  apply Qfloor_resp_le in H. rewrite Qfloor_Z in H. exact H.
Qed.



(** Multiples of one power of two are compared and scaled as their
    numerators are. *)
Lemma dyadic_pos (n : Z) (k : nat) : 0 < n -> (0 < dyadic n k)%Q.
Proof. intros H. unfold dyadic, Qlt. cbn. lia. Qed.


Lemma dyadic_sub (a b : Z) (k : nat) : (dyadic a k - dyadic b k == dyadic (a - b) k)%Q.
Proof. unfold dyadic, Qeq, Qminus, Qplus, Qopp. cbn. nia. Qed.

Lemma dyadic_scale (n a : Z) (k : nat) : (inject_Z n * dyadic a k == dyadic (n * a) k)%Q.
Proof. unfold dyadic, Qeq, Qmult, inject_Z. cbn. nia. Qed.

Lemma dyadic_le (a b : Z) (k : nat) : (dyadic a k <= dyadic b k)%Q <-> a <= b.
Proof. unfold dyadic, Qle. cbn. nia. Qed.





(** The row bounds the code computes for the rect (0, 26, 16, 4) in a grid of
    10 rows of height 16: row 8 is dirty.  Rounding both edges to nearest, as
    [spec_row_bounds] does, gives the empty range (8, 8). *)
Lemma row_bounds_round_counterexample :
  let rect := mkCGRect 0 26 16 4 in
  let r := calculate_dirty_cells rect 16 16 10 10 0 0 in
  (start_row r, end_row r) = (8, 9) /\
  spec_row_bounds rect 16 10 0 = (8, 8) /\
  (start_row r, end_row r) <> spec_row_bounds rect 16 10 0.
Proof.
  cbv zeta. split; [|split].
  - vm_compute. reflexivity.
  - vm_compute. reflexivity.
  - vm_compute. intros H. discriminate H.
Qed.

(** C2 (amended). The row bounds of the returned region: the rect's top edge
    is mapped through [rows - ceil(top / char_h)], its bottom edge through
    [rows - floor(bottom / char_h)]; the two rows are ordered so that
    [start_row <= end_row], and both are clamped to [0, rows]. *)
Theorem calculate_dirty_cells_row_bounds
    (rect : CGRect) (cw ch : CGFloat) (rows cols : Z) (ox oy : CGFloat) :
  let grid_y := (origin_y rect - oy)%Q in
  let grid_top := (grid_y + size_height rect)%Q in
  let top_edge_row := int_sub rows (static_cast_int (Qceiling (grid_top / ch))) in
  let bottom_edge_row := int_sub rows (static_cast_int (Qfloor (grid_y / ch))) in
  let r := calculate_dirty_cells rect cw ch rows cols ox oy in
  start_row r = clamp (Z.min top_edge_row bottom_edge_row) rows /\
  end_row r = clamp (Z.max top_edge_row bottom_edge_row) rows /\
  start_row r <= end_row r.
Proof.
  cbv zeta. unfold calculate_dirty_cells. cbv zeta.
  set (a := int_sub rows (static_cast_int (Qceiling _))).
  set (b := int_sub rows (static_cast_int (Qfloor ((origin_y rect - oy) / ch)))).
  pose proof (clamp_mono (Z.min a b) a rows) as M1.
  pose proof (clamp_mono (Z.min a b) b rows) as M2.
  pose proof (clamp_mono a (Z.max a b) rows) as M3.
  pose proof (clamp_mono b (Z.max a b) rows) as M4.
  destruct (clamp b rows <? clamp a rows) eqn:E;
    [apply Z.ltb_lt in E | apply Z.ltb_ge in E];
    cbn [start_row end_row]; unfold clamp in *; lia.
Qed.

(** ** RectangleBatcher *)






(** ** ColorCache *)

Lemma lru_scan_fold (entries : list (Z * Z)) : forall acc : Z * Z,
  let r := fold_left (fun acc entry => if snd entry <? snd acc then entry else acc) entries acc in
  (r = acc \/ r ∈ entries) /\ snd r <= snd acc /\ (forall e, e ∈ entries -> snd r <= snd e).
Proof.
  induction entries as [|e entries IH]; intros acc; cbn [fold_left].
  - split; [left; reflexivity|]. split; [lia|]. intros e He. inversion He.
  - destruct (IH (if snd e <? snd acc then e else acc)) as (Hin & Hle & Hmin).
    destruct (snd e <? snd acc) eqn:E; [apply Z.ltb_lt in E | apply Z.ltb_ge in E].
    + split; [right; destruct Hin as [-> | Hin]; [left | right; exact Hin] |].
      split; [lia|]. intros e' He'. apply elem_of_cons in He' as [-> | He']; auto.
    + split; [destruct Hin as [-> | Hin]; [left; reflexivity | right; right; exact Hin] |].
      split; [lia|]. intros e' He'. apply elem_of_cons in He' as [-> | He']; [lia | auto].
Qed.

Lemma lru_scan_finds_minimum (m : gmap Z Z) (bound : Z) :
  m <> ∅ -> (forall k v, m !! k = Some v -> v < bound) -> bound <= SIZE_MAX ->
  exists k v, ColorCache.lru_scan (map_to_list m) = (k, v) /\ m !! k = Some v /\
              forall k' v', m !! k' = Some v' -> v <= v'.
Proof.
  intros Hne Hlt Hb.
  destruct (lru_scan_fold (map_to_list m) (0, SIZE_MAX)) as (Hin & Hle & Hmin).
  fold (ColorCache.lru_scan (map_to_list m)) in Hin, Hle, Hmin.
  destruct (ColorCache.lru_scan (map_to_list m)) as [k v] eqn:E.
  exists k, v. split; [reflexivity|].
  assert (Hmin' : forall k' v', m !! k' = Some v' -> v <= v').
  { intros k' v' H. apply elem_of_map_to_list in H. apply (Hmin (k', v') H). }
  split; [|exact Hmin'].
  destruct Hin as [Heq | Hin]; [|apply elem_of_map_to_list; exact Hin].
  exfalso. apply map_choose in Hne as (k0 & v0 & H0).
  specialize (Hlt _ _ H0). specialize (Hmin' _ _ H0).
  injection Heq as _ ->. lia.
Qed.

Lemma incr_size_t_small (x : Z) : 0 <= x < SIZE_MAX -> incr_size_t x = x + 1.
Proof. unfold incr_size_t, SIZE_MAX. intros H. apply Z.mod_small. lia. Qed.

Lemma evict_lru_removes_minimum (n : Z) (c : ColorCache.t) :
  ColorCache_wf n c -> n <= SIZE_MAX -> 1 <= Z.of_nat (size (ColorCache.cache_ c)) ->
  exists k v,
    ColorCache.access_order_ c !! k = Some v /\
    is_Some (ColorCache.cache_ c !! k) /\
    (forall k' v', ColorCache.access_order_ c !! k' = Some v' -> v <= v') /\
    ColorCache.evict_lru c =
      ColorCache.mk (delete k (ColorCache.cache_ c)) (ColorCache.max_size_ c)
                    (delete k (ColorCache.access_order_ c)) (ColorCache.access_counter_ c).
Proof.
  intros (Hdom & Hrange & Hinj & Hcnt & Hsize) Hn Hne.
  assert (Hao : ColorCache.access_order_ c <> ∅).
  { intros E. rewrite E, dom_empty_L in Hdom. apply dom_empty_inv_L in Hdom.
    rewrite Hdom, map_size_empty in Hne. lia. }
  destruct (lru_scan_finds_minimum (ColorCache.access_order_ c) (ColorCache.access_counter_ c))
    as (k & v & Escan & Hk & Hmin); [exact Hao | | lia |].
  { intros k v H. apply (Hrange k v H). }
  assert (Hc : is_Some (ColorCache.cache_ c !! k)).
  { apply elem_of_dom. rewrite Hdom. apply elem_of_dom. eauto. }
  exists k, v. repeat split; try assumption.
  unfold ColorCache.evict_lru. rewrite Escan. cbn [fst].
  destruct Hc as [col Hc]. rewrite Hc. reflexivity.
Qed.

Lemma ColorCache_wf_evict (n : Z) (c : ColorCache.t) :
  ColorCache_wf n c -> n <= SIZE_MAX -> 1 <= Z.of_nat (size (ColorCache.cache_ c)) ->
  ColorCache_wf n (ColorCache.evict_lru c) /\
  Z.of_nat (size (ColorCache.cache_ (ColorCache.evict_lru c))) =
    Z.of_nat (size (ColorCache.cache_ c)) - 1 /\
  ColorCache.max_size_ (ColorCache.evict_lru c) = ColorCache.max_size_ c /\
  ColorCache.access_counter_ (ColorCache.evict_lru c) = ColorCache.access_counter_ c /\
  dom (ColorCache.cache_ (ColorCache.evict_lru c)) ⊆ dom (ColorCache.cache_ c).
Proof.
  intros Hwf Hn Hne.
  destruct (evict_lru_removes_minimum n c Hwf Hn Hne) as (k & v & Hk & [col Hc] & Hmin & ->).
  destruct Hwf as (Hdom & Hrange & Hinj & Hcnt & Hsize).
  cbn [ColorCache.cache_ ColorCache.access_order_ ColorCache.access_counter_ ColorCache.max_size_].
  assert (Hsz : Z.of_nat (size (delete k (ColorCache.cache_ c))) =
                Z.of_nat (size (ColorCache.cache_ c)) - 1).
  { rewrite map_size_delete_Some by eauto.
    assert (size (ColorCache.cache_ c) <> 0%nat) by (apply map_size_ne_0_lookup; eauto).
    lia. }
  split; [|split; [exact Hsz | split; [reflexivity | split; [reflexivity|]]]].
  - unfold ColorCache_wf.
    cbn [ColorCache.cache_ ColorCache.access_order_ ColorCache.access_counter_ ColorCache.max_size_].
    split; [rewrite !dom_delete_L, Hdom; reflexivity|].
    split; [intros k' v' H; apply lookup_delete_Some in H as [_ H]; eauto|].
    split; [|split; [exact Hcnt | lia]].
    intros k1 k2 v' H1 H2.
    apply lookup_delete_Some in H1 as [_ H1]. apply lookup_delete_Some in H2 as [_ H2]. eauto.
  - rewrite dom_delete_L. apply subseteq_difference_l. reflexivity.
Qed.

Lemma ColorCache_wf_weaken (n m : Z) (c : ColorCache.t) :
  ColorCache_wf n c -> n <= m -> ColorCache_wf m c.
Proof.
  unfold ColorCache_wf. intros (H1 & H2 & H3 & H4 & H5) Hle.
  split; [exact H1|]. split; [exact H2|]. split; [exact H3|]. split; [lia | exact H5].
Qed.

(** Stamping [key] with the current counter, as both branches of
    [get_color] do. *)
Lemma ColorCache_wf_stamp (n : Z) (cache : gmap Z Z) (max_size : Z) (ao : gmap Z Z)
    (counter key : Z) :
  dom cache = {[key]} ∪ dom ao ->
  (forall k v, ao !! k = Some v -> 0 <= v < counter) ->
  (forall k1 k2 v, ao !! k1 = Some v -> ao !! k2 = Some v -> k1 = k2) ->
  0 <= counter <= n -> n < SIZE_MAX ->
  Z.of_nat (size cache) <= max_size ->
  ColorCache_wf (n + 1)
    (ColorCache.mk cache max_size (<[key := counter]> ao) (incr_size_t counter)).
Proof.
  intros Hdom Hrange Hinj Hcnt Hn Hsize. unfold ColorCache_wf.
  cbn [ColorCache.cache_ ColorCache.access_order_ ColorCache.access_counter_ ColorCache.max_size_].
  rewrite incr_size_t_small by lia.
  split; [rewrite dom_insert_L; exact Hdom|].
  split; [|split; [|split; [lia | exact Hsize]]].
  - intros k v H. apply lookup_insert_Some in H as [[_ <-] | [_ H]]; [lia|].
    specialize (Hrange _ _ H). lia.
  - intros k1 k2 v H1 H2.
    apply lookup_insert_Some in H1 as [[<- <-] | [Hne1 H1]];
      apply lookup_insert_Some in H2 as [[<- E] | [Hne2 H2]]; try reflexivity.
    + specialize (Hrange _ _ H2). lia.
    + specialize (Hrange _ _ H1). lia.
    + eauto.
Qed.

Lemma ColorCache_wf_request (n : Z) (rq : ColorRequest) (c : ColorCache.t) :
  ColorCache_wf n c -> n < SIZE_MAX -> 1 <= ColorCache.max_size_ c ->
  ColorCache_wf (n + 1) (snd (request_color rq c)) /\
  ColorCache.max_size_ (snd (request_color rq c)) = ColorCache.max_size_ c.
Proof.
  intros Hwf Hn Hmax.
  unfold request_color, ColorCache.get_color.
  set (key := ColorCache.pack_key (rq_r rq) (rq_g rq) (rq_b rq)).
  destruct (ColorCache.cache_ c !! key) as [col|] eqn:Hhit.
  - (* cache hit *)
    cbn [snd ColorCache.max_size_]. split; [|reflexivity].
    destruct Hwf as (Hdom & Hrange & Hinj & Hcnt & Hsize).
    apply ColorCache_wf_stamp; try assumption.
    assert (key ∈ dom (ColorCache.cache_ c)) by (apply elem_of_dom; eauto).
    rewrite <- Hdom. symmetry. apply subseteq_union_1_L, singleton_subseteq_l. assumption.
  - destruct (CGColorSpaceCreateDeviceRGB (rq_os rq)) as [space|];
      [|cbn [snd]; split; [apply (ColorCache_wf_weaken n); [exact Hwf | lia] | reflexivity]].
    destruct (CGColorCreate (rq_os rq) space _) as [col|];
      [|cbn [snd]; split; [apply (ColorCache_wf_weaken n); [exact Hwf | lia] | reflexivity]].
    cbn [snd ColorCache.max_size_].
    set (c1 := if Z.of_nat (size (ColorCache.cache_ c)) >=? ColorCache.max_size_ c
               then ColorCache.evict_lru c else c).
    assert (H1 : ColorCache_wf n c1 /\
                 Z.of_nat (size (ColorCache.cache_ c1)) < ColorCache.max_size_ c /\
                 ColorCache.max_size_ c1 = ColorCache.max_size_ c /\
                 ColorCache.cache_ c1 !! key = None).
    { subst c1. destruct (Z.of_nat (size (ColorCache.cache_ c)) >=? ColorCache.max_size_ c) eqn:E.
      - apply Z.geb_le in E.
        destruct (ColorCache_wf_evict n c Hwf) as (Hwf' & Hsz & Hm & _ & Hsub); [lia | lia |].
        destruct Hwf as (_ & _ & _ & _ & Hsize).
        split; [exact Hwf'|]. split; [lia|]. split; [exact Hm|].
        apply not_elem_of_dom. intros Hin. apply Hsub in Hin.
        apply elem_of_dom in Hin as [? Hin]. congruence.
      - assert (~ ColorCache.max_size_ c <= Z.of_nat (size (ColorCache.cache_ c))).
        { intros H. apply Z.geb_le in H. congruence. }
        split; [exact Hwf|]. split; [lia|]. split; [reflexivity | exact Hhit]. }
    destruct H1 as ((Hdom & Hrange & Hinj & Hcnt & Hsize) & Hlt & Hm & Hnone).
    split; [|exact Hm].
    rewrite Hm. apply ColorCache_wf_stamp; try assumption.
    + rewrite dom_insert_L, Hdom. reflexivity.
    + rewrite map_size_insert_None by exact Hnone. lia.
Qed.

Lemma ColorCache_wf_run (ops : list ColorOp) : forall (n : Z) (c : ColorCache.t),
  ColorCache_wf n c -> 1 <= ColorCache.max_size_ c ->
  n + Z.of_nat (length ops) <= SIZE_MAX ->
  ColorCache_wf (n + Z.of_nat (length ops)) (ColorCache_run ops c) /\
  ColorCache.max_size_ (ColorCache_run ops c) = ColorCache.max_size_ c.
Proof.
  induction ops as [|op ops IH]; intros n c Hwf Hmax Hn.
  - cbn. rewrite Z.add_0_r. split; [exact Hwf | reflexivity].
  - cbn [length] in *.
    change (ColorCache_run (op :: ops) c) with (ColorCache_run ops (ColorCache_step c op)).
    assert (Hstep : ColorCache_wf (n + 1) (ColorCache_step c op) /\
                    ColorCache.max_size_ (ColorCache_step c op) = ColorCache.max_size_ c).
    { destruct op as [rq|]; cbn [ColorCache_step].
      - apply ColorCache_wf_request; [exact Hwf | lia | exact Hmax].
      - split; [|reflexivity].
        destruct Hwf as (_ & _ & _ & Hcnt & _).
        unfold ColorCache_wf, ColorCache.clear.
        cbn [ColorCache.cache_ ColorCache.access_order_ ColorCache.access_counter_
             ColorCache.max_size_].
        split; [reflexivity|].
        split; [intros k v H; rewrite lookup_empty in H; discriminate|].
        split; [intros k1 k2 v H; rewrite lookup_empty in H; discriminate|].
        split; [lia|]. rewrite map_size_empty. lia. }
    destruct Hstep as [Hwf' Hmax'].
    destruct (IH (n + 1) (ColorCache_step c op) Hwf') as [Hwf'' Hmax'']; [lia | lia |].
    split; [|rewrite Hmax''; exact Hmax'].
    replace (n + Z.of_nat (S (length ops))) with (n + 1 + Z.of_nat (length ops)) by lia.
    exact Hwf''.
Qed.

(** C10. For a [ColorCache] built with [max_size >= 1], after any sequence of
    [get_color] and [clear] calls (shorter than the range of the 64-bit
    access counter) the cache holds at most [max_size] entries, and the cache
    map and the access-order map have the same keys. *)
Theorem ColorCache_size_bounded_and_maps_agree (max_size : Z) (ops : list ColorOp) :
  1 <= max_size -> Z.of_nat (length ops) <= SIZE_MAX ->
  let c := ColorCache_run ops (ColorCache.new max_size) in
  ColorCache.size c <= ColorCache.max_size c /\
  ColorCache.max_size c = max_size /\
  dom (ColorCache.cache_ c) = dom (ColorCache.access_order_ c).
Proof.
  intros Hmax Hlen. cbv zeta.
  assert (Hnew : ColorCache_wf 0 (ColorCache.new max_size)).
  { unfold ColorCache_wf, ColorCache.new.
    cbn [ColorCache.cache_ ColorCache.access_order_ ColorCache.access_counter_
         ColorCache.max_size_].
    split; [reflexivity|].
    split; [intros k v H; rewrite lookup_empty in H; discriminate|].
    split; [intros k1 k2 v H; rewrite lookup_empty in H; discriminate|].
    split; [lia|]. rewrite map_size_empty. lia. }
  destruct (ColorCache_wf_run ops 0 (ColorCache.new max_size) Hnew) as [Hwf Hm].
  - exact Hmax.
  - lia.
  - destruct Hwf as (Hdom & _ & _ & _ & Hsize).
    unfold ColorCache.size, ColorCache.max_size.
    split; [exact Hsize|]. split; [exact Hm | exact Hdom].
Qed.

(** A cache of capacity 2 serving red, green, blue, a [clear], and red again. *)
Lemma ColorCache_size_bounded_and_maps_agree_witness :
  let ops := [OpGetColor (mkColorRequest (example_native 11) 255 0 0 1);
              OpGetColor (mkColorRequest (example_native 12) 0 255 0 1);
              OpGetColor (mkColorRequest (example_native 13) 0 0 255 1);
              OpClear;
              OpGetColor (mkColorRequest (example_native 14) 255 0 0 1)] in
  let c := ColorCache_run ops (ColorCache.new 2) in
  ColorCache.size c <= ColorCache.max_size c /\
  ColorCache.max_size c = 2 /\
  dom (ColorCache.cache_ c) = dom (ColorCache.access_order_ c).
Proof.
  apply (ColorCache_size_bounded_and_maps_agree 2).
  - lia.
  - unfold SIZE_MAX. simpl. lia.
Defined.









(** The same history, evaluated: green (0x00FF00), last requested at
    position 1, is evicted; red (0xFF0000), requested again at position 2,
    stays, with the handle of its first creation. *)
Example ColorCache_lru_example :
  let red := mkColorRequest (example_native 11) 255 0 0 1 in
  let green := mkColorRequest (example_native 12) 0 255 0 1 in
  let blue := mkColorRequest (example_native 13) 0 0 255 1 in
  let c' := snd (request_color blue (request_colors [red; green; red] (ColorCache.new 2))) in
  ColorCache.cache_ c' !! 65280 = None /\
  ColorCache.cache_ c' !! 16711680 = Some 11 /\
  ColorCache.cache_ c' !! 255 = Some 13 /\
  last_access 65280 [red; green; red] = 1 /\
  last_access 16711680 [red; green; red] = 2.
Proof. cbv zeta. repeat split; vm_compute; reflexivity. Qed.

(** A cache of capacity 0 evicts nothing: the scan finds no entry and the
    first colour is inserted all the same. *)
Example ColorCache_capacity_zero :
  ColorCache.size (snd (request_color (mkColorRequest (example_native 11) 255 0 0 1)
                          (ColorCache.new 0))) = 1.
Proof. vm_compute. reflexivity. Qed.

(** ** AttributeDictCache *)

Lemma get_attributes_hit (os : Native) (fa rgb : Z) (ul : bool) (s : Caches) (d : CFDictionary) :
  AttributeDictCache.cache_ (g_attr_dict_cache s) !! AttributeDictCache.make_key fa rgb ul = Some d ->
  fst (get_attributes os fa rgb ul s) = Ok d /\
  hits (snd (get_attributes os fa rgb ul s)) = incr_size_t (hits s) /\
  misses (snd (get_attributes os fa rgb ul s)) = misses s /\
  AttributeDictCache.cache_ (g_attr_dict_cache (snd (get_attributes os fa rgb ul s))) =
    AttributeDictCache.cache_ (g_attr_dict_cache s).
Proof.
  intros H. unfold get_attributes. rewrite H. cbn. repeat split.
Qed.

Lemma get_attributes_miss (os : Native) (fa rgb : Z) (ul : bool) (s : Caches) :
  AttributeDictCache.cache_ (g_attr_dict_cache s) !! AttributeDictCache.make_key fa rgb ul = None ->
  hits (snd (get_attributes os fa rgb ul s)) = hits s /\
  misses (snd (get_attributes os fa rgb ul s)) = incr_size_t (misses s) /\
  (AttributeDictCache.cache_ (g_attr_dict_cache (snd (get_attributes os fa rgb ul s))) =
     AttributeDictCache.cache_ (g_attr_dict_cache s) /\
   (forall d, fst (get_attributes os fa rgb ul s) <> Ok d)
   \/
   exists d, fst (get_attributes os fa rgb ul s) = Ok d /\
     AttributeDictCache.cache_ (g_attr_dict_cache (snd (get_attributes os fa rgb ul s))) =
       <[AttributeDictCache.make_key fa rgb ul := d]>
         (AttributeDictCache.cache_ (g_attr_dict_cache s))).
Proof.
  intros H. unfold get_attributes, hits, misses. rewrite H.
  destruct (FontCache.get_font os fa (g_font_cache s)) as [[font|] fc];
    [|cbn; split; [reflexivity | split; [reflexivity | left; split; [reflexivity | discriminate]]]].
  destruct (ColorCache.get_color os _ _ _ 1 (g_color_cache s)) as [[color|what|] cc];
    [| cbn; split; [reflexivity | split; [reflexivity | left; split; [reflexivity | discriminate]]]
     | cbn; split; [reflexivity | split; [reflexivity | left; split; [reflexivity | discriminate]]]].
  destruct (ul && negb (bool_decide (is_Some (if ul then CFNumberCreate os 1 else None))));
    [cbn; split; [reflexivity | split; [reflexivity | left; split; [reflexivity | discriminate]]]|].
  destruct (CFDictionaryCreate os font color _) as [ref|];
    [|cbn; split; [reflexivity | split; [reflexivity | left; split; [reflexivity | discriminate]]]].
  cbn. split; [reflexivity | split; [reflexivity | right]]. eexists. split; reflexivity.
Qed.

Lemma uint32_high_bits (z n : Z) : is_uint32 z -> 32 <= n -> Z.testbit z n = false.
Proof.
  intros Hz Hn.
  assert (E : z = Z.land z (Z.ones 32)).
  { rewrite Z.land_ones by lia. symmetry. apply Z.mod_small. exact Hz. }
  rewrite E, Z.land_spec, Z.testbit_ones by lia.
  replace (n <? 32) with false by (symmetry; apply Z.ltb_ge; lia).
  rewrite andb_false_r, andb_false_r. reflexivity.
Qed.

Lemma low31_testbit (fa m : Z) :
  0 <= m -> Z.testbit (Z.land fa 2147483647) m = Z.testbit fa m && (m <? 31).
Proof.
  intros Hm. change 2147483647 with (Z.ones 31).
  rewrite Z.land_spec, Z.testbit_ones by lia.
  replace (0 <=? m) with true by (symmetry; apply Z.leb_le; lia). reflexivity.
Qed.

Lemma make_key_testbit (fa rgb : Z) (ul : bool) (n : Z) :
  0 <= n ->
  Z.testbit (AttributeDictCache.make_key fa rgb ul) n =
  Z.testbit rgb n || Z.testbit (Z.land fa 2147483647) (n - 32) || (ul && (n =? 63)).
Proof.
  intros Hn. unfold AttributeDictCache.make_key. cbv zeta.
  destruct ul.
  - rewrite !Z.lor_spec, !Z.shiftl_spec by lia.
    rewrite <- (Z.shiftl_spec 1 63 n) by lia.
    rewrite Z.shiftl_1_l, Z.pow2_bits_eqb by lia.
    rewrite (Z.eqb_sym 63 n). reflexivity.
  - rewrite !Z.lor_spec, !Z.shiftl_spec by lia. rewrite orb_false_r. reflexivity.
Qed.

(** The composite key determines the colour, the low 31 bits of the font
    attributes and the underline flag. *)
Lemma make_key_inj (fa1 rgb1 : Z) (ul1 : bool) (fa2 rgb2 : Z) (ul2 : bool) :
  is_uint32 rgb1 -> is_uint32 rgb2 ->
  AttributeDictCache.make_key fa1 rgb1 ul1 = AttributeDictCache.make_key fa2 rgb2 ul2 ->
  (Z.land fa1 2147483647, rgb1, ul1) = (Z.land fa2 2147483647, rgb2, ul2).
Proof.
  intros H1 H2 E.
  assert (Hbits : forall n, 0 <= n ->
            Z.testbit rgb1 n || Z.testbit (Z.land fa1 2147483647) (n - 32) || (ul1 && (n =? 63)) =
            Z.testbit rgb2 n || Z.testbit (Z.land fa2 2147483647) (n - 32) || (ul2 && (n =? 63))).
  { intros n Hn. rewrite <- !make_key_testbit by exact Hn. rewrite E. reflexivity. }
  assert (Hul : ul1 = ul2).
  { specialize (Hbits 63 ltac:(lia)).
    rewrite (uint32_high_bits rgb1), (uint32_high_bits rgb2) in Hbits by (assumption || lia).
    rewrite !low31_testbit in Hbits by lia.
    change (63 - 32 <? 31) with false in Hbits. change (63 =? 63) with true in Hbits.
    rewrite !andb_false_r, !andb_true_r in Hbits. exact Hbits. }
  assert (Hrgb : rgb1 = rgb2).
  { apply Z.bits_inj'. intros n Hn.
    destruct (Z.lt_ge_cases n 32) as [Hlt | Hge].
    - specialize (Hbits n Hn).
      rewrite !(Z.testbit_neg_r _ (n - 32)) in Hbits by lia.
      replace (n =? 63) with false in Hbits by (symmetry; apply Z.eqb_neq; lia).
      rewrite !andb_false_r, !orb_false_r in Hbits. exact Hbits.
    - rewrite (uint32_high_bits rgb1), (uint32_high_bits rgb2) by (assumption || lia).
      reflexivity. }
  assert (Hfa : Z.land fa1 2147483647 = Z.land fa2 2147483647).
  { apply Z.bits_inj'. intros m Hm.
    destruct (Z.lt_ge_cases m 31) as [Hlt | Hge].
    - specialize (Hbits (m + 32) ltac:(lia)).
      rewrite (uint32_high_bits rgb1), (uint32_high_bits rgb2) in Hbits by (assumption || lia).
      replace (m + 32 - 32) with m in Hbits by lia.
      replace (m + 32 =? 63) with false in Hbits by (symmetry; apply Z.eqb_neq; lia).
      rewrite !andb_false_r, !orb_false_r in Hbits. exact Hbits.
    - rewrite !low31_testbit by lia.
      replace (m <? 31) with false by (symmetry; apply Z.ltb_ge; lia).
      rewrite !andb_false_r. reflexivity. }
  congruence.
Qed.

Lemma call_get_attributes_keeps (call : AttrCall) (s : Caches) (k : Z) (d : CFDictionary) :
  attr_cache s !! k = Some d -> attr_cache (snd (call_get_attributes call s)) !! k = Some d.
Proof.
  intros H. unfold call_get_attributes, attr_cache in *.
  destruct (AttributeDictCache.cache_ (g_attr_dict_cache s) !! call_key call) as [d'|] eqn:E.
  - destruct (get_attributes_hit (ac_os call) _ _ _ s d' E) as (_ & _ & _ & ->). exact H.
  - destruct (get_attributes_miss (ac_os call) _ _ _ s E) as (_ & _ & [[-> _] | (d' & _ & ->)]).
    + exact H.
    + rewrite lookup_insert_ne; [exact H|]. intros Ek. fold (call_key call) in Ek.
      rewrite Ek in E. congruence.
Qed.

Lemma calls_get_attributes_keep (calls : list AttrCall) : forall (s : Caches) (k : Z) (d : CFDictionary),
  attr_cache s !! k = Some d -> attr_cache (calls_get_attributes calls s) !! k = Some d.
Proof.
  induction calls as [|call calls IH]; intros s k d H; [exact H|].
  apply (IH (snd (call_get_attributes call s))), call_get_attributes_keeps, H.
Qed.

Lemma calls_get_attributes_keys (calls : list AttrCall) : forall (s : Caches) (k : Z),
  is_Some (attr_cache (calls_get_attributes calls s) !! k) ->
  is_Some (attr_cache s !! k) \/ exists call, call ∈ calls /\ call_key call = k.
Proof.
  induction calls as [|call calls IH]; intros s k H; [left; exact H|].
  destruct (IH (snd (call_get_attributes call s)) k H) as [Hs | (c & Hc & Ek)].
  - unfold call_get_attributes, attr_cache in Hs.
    destruct (AttributeDictCache.cache_ (g_attr_dict_cache s) !! call_key call) as [d'|] eqn:E.
    + destruct (get_attributes_hit (ac_os call) _ _ _ s d' E) as (_ & _ & _ & Ec).
      rewrite Ec in Hs. left. exact Hs.
    + destruct (get_attributes_miss (ac_os call) _ _ _ s E) as (_ & _ & [[Ec _] | (d' & _ & Ec)]);
        rewrite Ec in Hs.
      * left. exact Hs.
      * fold (call_key call) in Hs.
        destruct (decide (call_key call = k)) as [Ek | Hne].
        -- right. exists call. split; [apply elem_of_cons; left; reflexivity | exact Ek].
        -- rewrite lookup_insert_ne in Hs by exact Hne. left. exact Hs.
  - right. exists c. split; [apply elem_of_cons; right; exact Hc | exact Ek].
Qed.

(** The font attributes [INT_MIN] and 0 differ, but only in bit 31, which
    the composite key drops: a fresh cache serves the second of the two calls
    from the entry of the first and counts a hit, not a miss. *)
Lemma AttributeDictCache_alias_counterexample :
  let s0 := mkCaches (ColorCache.new 256) (FontCache.new (Some 100)) AttributeDictCache.new in
  let first := mkAttrCall (example_native 21) 0 16777215 false in
  let second := mkAttrCall (example_native 22) (-2147483648) 16777215 false in
  let s1 := snd (call_get_attributes first s0) in
  let s2 := snd (call_get_attributes second s1) in
  attr_triple second <> attr_triple first /\
  call_key second = call_key first /\
  misses s1 = 1 /\ misses s2 = 1 /\ hits s2 = 1 /\
  fst (call_get_attributes second s1) = fst (call_get_attributes first s0).
Proof.
  cbv zeta. split; [intros H; discriminate H|].
  repeat split; vm_compute; reflexivity.
Qed.

(** C5 (amended). (1) When a call of [get_attributes] has returned a handle,
    a later call with the identical triple returns the same handle and
    increments [hits], whatever other [get_attributes] calls came between and
    whatever the native layer would answer.  (2) On a cache that started
    empty, a call whose triple differs from the triples of all earlier calls
    in the colour, the underline flag or the low 31 bits of the font
    attributes increments [misses]: such triples have different composite
    keys. *)
Theorem AttributeDictCache_hits_and_misses :
  (forall (s : Caches) (first again : AttrCall) (mid : list AttrCall) (d : CFDictionary),
     attr_triple again = attr_triple first ->
     fst (call_get_attributes first s) = Ok d ->
     let s2 := calls_get_attributes mid (snd (call_get_attributes first s)) in
     fst (call_get_attributes again s2) = Ok d /\
     hits (snd (call_get_attributes again s2)) = incr_size_t (hits s2) /\
     misses (snd (call_get_attributes again s2)) = misses s2) /\
  (forall (cc : ColorCache.t) (fc : FontCache.t) (calls : list AttrCall) (next : AttrCall),
     (forall call, call ∈ calls -> is_uint32 (ac_color_rgb call)) ->
     is_uint32 (ac_color_rgb next) ->
     (forall call, call ∈ calls -> keyed_triple call <> keyed_triple next) ->
     let s := calls_get_attributes calls (mkCaches cc fc AttributeDictCache.new) in
     misses (snd (call_get_attributes next s)) = incr_size_t (misses s) /\
     hits (snd (call_get_attributes next s)) = hits s).
Proof.
  split.
  - intros s first again mid d Etriple Hfirst. cbv zeta.
    assert (Ekey : call_key again = call_key first).
    { unfold call_key. unfold attr_triple in Etriple. injection Etriple as -> -> ->. reflexivity. }
    (* after the first call the key is mapped to the returned handle *)
    assert (H1 : attr_cache (snd (call_get_attributes first s)) !! call_key first = Some d).
    { unfold call_get_attributes, attr_cache in *.
      destruct (AttributeDictCache.cache_ (g_attr_dict_cache s) !! call_key first) as [d'|] eqn:E.
      - destruct (get_attributes_hit (ac_os first) _ _ _ s d' E) as (Hr & _ & _ & ->).
        rewrite Hr in Hfirst. injection Hfirst as ->. exact E.
      - destruct (get_attributes_miss (ac_os first) _ _ _ s E)
          as (_ & _ & [[_ Hno] | (d' & Hr & ->)]).
        + exfalso. apply (Hno d). exact Hfirst.
        + rewrite Hr in Hfirst. injection Hfirst as ->.
          fold (call_key first). apply lookup_insert_eq. }
    (* the calls in between keep the entry *)
    pose proof (calls_get_attributes_keep mid _ _ _ H1) as H2.
    rewrite <- Ekey in H2. unfold attr_cache, call_key in H2.
    destruct (get_attributes_hit (ac_os again) _ _ _ _ d H2) as (Hr & Hh & Hm & _).
    unfold call_get_attributes. split; [exact Hr | split; [exact Hh | exact Hm]].
  - intros cc fc calls next Hcalls Hnext Hdiff. cbv zeta.
    set (s := calls_get_attributes calls (mkCaches cc fc AttributeDictCache.new)).
    assert (Hmiss : attr_cache s !! call_key next = None).
    { destruct (attr_cache s !! call_key next) as [d|] eqn:E; [|reflexivity]. exfalso.
      destruct (calls_get_attributes_keys calls (mkCaches cc fc AttributeDictCache.new)
                  (call_key next)) as [[x Hx] | (c & Hc & Ek)].
      - fold s. rewrite E. eauto.
      - unfold attr_cache in Hx. cbn in Hx. rewrite lookup_empty in Hx. discriminate.
      - apply (Hdiff c Hc). unfold keyed_triple.
        apply make_key_inj; [apply Hcalls, Hc | exact Hnext | exact Ek]. }
    unfold attr_cache, call_key in Hmiss.
    destruct (get_attributes_miss (ac_os next) _ _ _ s Hmiss) as (Hh & Hm & _).
    unfold call_get_attributes. split; [exact Hm | exact Hh].
Qed.

(** Bold white text without underline is asked for, then plain white, then
    bold white again (the native layer now offering another object): the
    third call is a hit returning the first handle; a fourth call, for bold
    white with underline, differs from all three and is a miss. *)
Lemma AttributeDictCache_hits_and_misses_witness :
  let s0 := mkCaches (ColorCache.new 256) (FontCache.new (Some 100)) AttributeDictCache.new in
  let bold := mkAttrCall (example_native 21) 1 16777215 false in
  let plain := mkAttrCall (example_native 22) 0 16777215 false in
  let bold_again := mkAttrCall (example_native 23) 1 16777215 false in
  let bold_underlined := mkAttrCall (example_native 24) 1 16777215 true in
  let d := mkCFDictionary 21 1100 21 false in
  let s2 := calls_get_attributes [plain] (snd (call_get_attributes bold s0)) in
  let s3 := calls_get_attributes [bold; plain; bold_again] s0 in
  (fst (call_get_attributes bold_again s2) = Ok d /\
   hits (snd (call_get_attributes bold_again s2)) = incr_size_t (hits s2) /\
   misses (snd (call_get_attributes bold_again s2)) = misses s2) /\
  (misses (snd (call_get_attributes bold_underlined s3)) = incr_size_t (misses s3) /\
   hits (snd (call_get_attributes bold_underlined s3)) = hits s3).
Proof.
  cbv zeta. split.
  - apply (proj1 AttributeDictCache_hits_and_misses).
    + reflexivity.
    + vm_compute. reflexivity.
  - apply (proj2 AttributeDictCache_hits_and_misses
             (ColorCache.new 256) (FontCache.new (Some 100))
             [mkAttrCall (example_native 21) 1 16777215 false;
              mkAttrCall (example_native 22) 0 16777215 false;
              mkAttrCall (example_native 23) 1 16777215 false]
             (mkAttrCall (example_native 24) 1 16777215 true)).
    + intros call Hc. unfold is_uint32.
      repeat (apply elem_of_cons in Hc as [-> | Hc]; [simpl; lia|]).
      inversion Hc.
    + unfold is_uint32. simpl. lia.
    + intros call Hc.
      repeat (apply elem_of_cons in Hc as [-> | Hc]; [intros H; discriminate H|]).
      inversion Hc.
Defined.

(** ** The state and error monad *)

Lemma bind_unfold {S A B : Type} (m : M S A) (f : A -> M S B) (s : S) :
  (m ≫= f) s = match m s with
               | (Ok a, s') => f a s'
               | (Throw what, s') => (Throw what, s')
               | (OutOfRange, s') => (OutOfRange, s')
               end.
Proof. reflexivity. Qed.

Lemma outcome_ret {S A : Type} (t : bool) (P : A -> Prop) (a : A) :
  P a -> outcome (S := S) t P (mret a).
Proof. intros H s. exact H. Qed.

Lemma outcome_bind {S A B : Type} (t : bool) (Q : A -> Prop) (P : B -> Prop)
    (m : M S A) (f : A -> M S B) :
  outcome t Q m -> (forall a, Q a -> outcome t P (f a)) -> outcome t P (m ≫= f).
Proof.
  intros Hm Hf s. rewrite bind_unfold. specialize (Hm s).
  destruct (m s) as [[a|what|] s']; cbn in *.
  - apply (Hf a Hm s').
  - exact Hm.
  - exact Hm.
Qed.

Lemma outcome_weaken {S A : Type} (t : bool) (P Q : A -> Prop) (m : M S A) :
  outcome t P m -> (forall a, P a -> Q a) -> outcome t Q m.
Proof.
  intros Hm HPQ s. specialize (Hm s). destruct (fst (m s)); auto.
Qed.

Lemma outcome_get_state {S : Type} (t : bool) : outcome (S := S) t (fun _ => True) get_state.
Proof. intros s. exact I. Qed.

Lemma outcome_put_state {S : Type} (t : bool) (s0 : S) : outcome t (fun _ => True) (put_state s0).
Proof. intros s. exact I. Qed.

Lemma outcome_for_range {S : Type} (t : bool) (stop : Z) (body : Z -> M S Z) (fuel : nat) :
  forall i : Z,
    (forall j, i <= j < stop -> outcome t (fun skip => 0 <= skip) (body j)) ->
    outcome t (fun _ => True) (for_range fuel i stop body).
Proof.
  induction fuel as [|fuel IH]; intros i Hbody; cbn [for_range].
  - apply outcome_ret. exact I.
  - destruct (i <? stop) eqn:E; [apply Z.ltb_lt in E | apply outcome_ret; exact I].
    apply (outcome_bind t (fun skip => 0 <= skip)).
    + apply Hbody. lia.
    + intros skip Hskip. apply IH. intros j Hj. apply Hbody. lia.
Qed.

Lemma for_range_fuel {S : Type} (stop : Z) (body : Z -> M S Z) :
  (forall j s skip s', body j s = (Ok skip, s') -> 0 <= skip) ->
  forall (fuel1 fuel2 : nat) (i : Z) (s : S),
    (Z.to_nat (stop - i) <= fuel1)%nat -> (Z.to_nat (stop - i) <= fuel2)%nat ->
    for_range fuel1 i stop body s = for_range fuel2 i stop body s.
Proof.
  intros Hskip fuel1. induction fuel1 as [|fuel1 IH]; intros fuel2 i s H1 H2.
  - destruct fuel2 as [|fuel2]; [reflexivity|]. cbn [for_range].
    replace (i <? stop) with false by (symmetry; apply Z.ltb_ge; lia). reflexivity.
  - cbn [for_range]. destruct (i <? stop) eqn:E; [apply Z.ltb_lt in E | apply Z.ltb_ge in E].
    + destruct fuel2 as [|fuel2]; [lia|]. cbn [for_range].
      rewrite (proj2 (Z.ltb_lt i stop) E).
      rewrite !bind_unfold. destruct (body i s) as [[skip|what|] s'] eqn:Eb; try reflexivity.
      pose proof (Hskip _ _ _ _ Eb) as Hge.
      apply IH; lia.
    + destruct fuel2 as [|fuel2]; [reflexivity|]. cbn [for_range].
      replace (i <? stop) with false by (symmetry; apply Z.ltb_ge; lia). reflexivity.
Qed.

(** ** The two passes stay inside the grid *)

Lemma grid_cell_in_range (grid : list (list Cell)) (rows cols row col : Z) :
  grid_shape grid rows cols -> 0 <= row < rows -> 0 <= col < cols ->
  is_Some (grid_cell grid row col).
Proof.
  intros [Hrows Hcols] Hr Hc. unfold grid_cell.
  replace (0 <=? row) with true by (symmetry; apply Z.leb_le; lia).
  replace (0 <=? col) with true by (symmetry; apply Z.leb_le; lia).
  cbn [andb].
  destruct (lookup_lt_is_Some_2 grid (Z.to_nat row)) as [cells Hcells]; [lia|].
  rewrite Hcells. cbn.
  apply lookup_lt_is_Some_2.
  rewrite Forall_forall in Hcols.
  assert (Hlen : Z.of_nat (length cells) = cols).
  { apply Hcols. apply list_elem_of_lookup. eauto. }
  lia.
Qed.

Lemma outcome_grid_at {S : Type} (t : bool) (grid : list (list Cell)) (rows cols row col : Z) :
  grid_shape grid rows cols -> 0 <= row < rows -> 0 <= col < cols ->
  outcome (S := S) t (fun _ => True) (grid_at grid row col).
Proof.
  intros Hg Hr Hc s. unfold grid_at.
  destruct (grid_cell_in_range grid rows cols row col Hg Hr Hc) as [cell ->]. exact I.
Qed.

Lemma get_color_in_range (os : Native) (r g b : Z) (alpha : Q) (c : ColorCache.t) :
  fst (ColorCache.get_color os r g b alpha c) <> OutOfRange.
Proof.
  unfold ColorCache.get_color.
  destruct (ColorCache.cache_ c !! _); [discriminate|].
  destruct (CGColorSpaceCreateDeviceRGB os); [|discriminate].
  destruct (CGColorCreate os _ _); discriminate.
Qed.

Lemma get_attributes_in_range (os : Native) (fa rgb : Z) (ul : bool) (s : Caches) :
  fst (get_attributes os fa rgb ul s) <> OutOfRange.
Proof.
  unfold get_attributes.
  destruct (AttributeDictCache.cache_ _ !! _); [discriminate|].
  destruct (FontCache.get_font os fa (g_font_cache s)) as [[font|] fc]; [|discriminate].
  pose proof (get_color_in_range os (Z.land (Z.shiftr rgb 16) 255) (Z.land (Z.shiftr rgb 8) 255)
                (Z.land rgb 255) 1 (g_color_cache s)) as Hc.
  destruct (ColorCache.get_color os _ _ _ 1 (g_color_cache s)) as [[color|what|] cc];
    [|discriminate|exfalso; apply Hc; reflexivity].
  destruct (ul && _); [discriminate|].
  destruct (CFDictionaryCreate os font color _); discriminate.
Qed.

Section FrameFacts.

Variable os : Native.
Variable grid : list (list Cell).
Variable color_pairs : gmap Z ColorPair.
Variable dirty_cells : CellRect.
Variables char_width char_height : Q.
Variables rows cols : Z.
Variables offset_x offset_y : Q.
Variable font_ascent : Q.

Hypothesis grid_ok : grid_shape grid rows cols.
Hypothesis rows_ok : 0 <= start_row dirty_cells /\ end_row dirty_cells <= rows.
Hypothesis cols_ok : 0 <= start_col dirty_cells /\ end_col dirty_cells <= cols.

Lemma outcome_lookup_attributes (fa rgb : Z) (ul : bool) :
  outcome true (fun _ => True) (lookup_attributes os fa rgb ul).
Proof.
  intros st. unfold lookup_attributes.
  pose proof (get_attributes_in_range os fa rgb ul (cp_caches st)) as H.
  destruct (get_attributes os fa rgb ul (cp_caches st)) as [[d|what|] caches]; cbn in *;
    [exact I | reflexivity | apply H; reflexivity].
Qed.

Lemma outcome_draw_character_batch (batch : CharacterBatch) :
  outcome true (fun _ => True)
    (draw_character_batch os char_width char_height font_ascent batch).
Proof.
  unfold draw_character_batch.
  apply (outcome_bind true (fun _ => True)); [apply outcome_lookup_attributes|].
  intros attrs _.
  destruct (bool_decide _); [apply outcome_ret; exact I|].
  destruct (font_to_use os batch (dict_font attrs)) as [font allocated].
  destruct (negb _); [apply outcome_ret; exact I|].
  intros st. exact I.
Qed.

Lemma outcome_flush_batch :
  outcome true (fun _ => True) (flush_batch os char_width char_height font_ascent).
Proof.
  unfold flush_batch.
  apply (outcome_bind true (fun _ => True)); [apply outcome_get_state|].
  intros st _. destruct (cp_current_batch st) as [batch|]; [|apply outcome_ret; exact I].
  apply (outcome_bind true (fun _ => True)); [apply outcome_draw_character_batch|].
  intros _ _ st'. exact I.
Qed.

Lemma outcome_flush_then (k : Z) :
  0 <= k ->
  outcome true (fun skip => 0 <= skip)
    (flush_batch os char_width char_height font_ascent;; mret k).
Proof.
  intros Hk. apply (outcome_bind true (fun _ => True)); [apply outcome_flush_batch|].
  intros _ _. apply outcome_ret. exact Hk.
Qed.

Lemma outcome_combine (row col : Z) (cell : Cell) :
  0 <= row < rows -> 0 <= col ->
  outcome true (fun c => 0 <= cols_to_skip c)
    (combine_variation_selector grid dirty_cells cols row col cell).
Proof.
  intros Hr Hc. unfold combine_variation_selector.
  destruct ((col + 1 <? end_col dirty_cells) && (col + 1 <? cols)) eqn:E;
    [|apply outcome_ret; cbn; lia].
  apply andb_true_iff in E as [_ E]. apply Z.ltb_lt in E.
  apply (outcome_bind true (fun _ => True)).
  - apply (outcome_grid_at true grid rows cols); [exact grid_ok | exact Hr | lia].
  - intros next_cell _. destruct (single_unit _ _); apply outcome_ret; cbn; lia.
Qed.

Lemma outcome_character_cell (row col : Z) :
  0 <= row < rows -> 0 <= col < cols ->
  outcome true (fun skip => 0 <= skip)
    (character_cell os grid color_pairs dirty_cells char_width char_height rows cols
       offset_x offset_y font_ascent row col).
Proof.
  intros Hr Hc. unfold character_cell.
  apply (outcome_bind true (fun _ => True)).
  { apply (outcome_grid_at true grid rows cols); assumption. }
  intros cell _.
  destruct (bool_decide _); [apply outcome_flush_then; lia|].
  destruct (_ && _); [apply outcome_flush_then; lia|].
  apply (outcome_bind true (fun c => 0 <= cols_to_skip c)).
  { apply outcome_combine; [exact Hr | lia]. }
  intros combined Hskip.
  destruct (color_pairs !! color_pair cell) as [colors|]; [|apply outcome_flush_then; lia].
  apply (outcome_bind true (fun _ => True)); [apply outcome_lookup_attributes|].
  intros attrs _.
  destruct (_ =? -2); [apply outcome_flush_then; exact Hskip|].
  apply (outcome_bind true (fun _ => True)); [apply outcome_get_state|].
  intros st _.
  destruct (cp_current_batch st) as [batch|].
  - destruct (can_extend _ _ _ _ _ _ _ _).
    + apply (outcome_bind true (fun _ => True)); [intros s; exact I|].
      intros _ _. apply outcome_ret. exact Hskip.
    + apply (outcome_bind true (fun _ => True)); [apply outcome_draw_character_batch|].
      intros _ _. apply (outcome_bind true (fun _ => True)); [intros s; exact I|].
      intros _ _. apply outcome_ret. exact Hskip.
  - apply (outcome_bind true (fun _ => True)); [intros s; exact I|].
    intros _ _. apply outcome_ret. exact Hskip.
Qed.

Lemma outcome_background_cell (row col : Z) :
  0 <= row < rows -> 0 <= col < cols ->
  outcome false (fun skip => 0 <= skip)
    (background_cell grid color_pairs char_width char_height rows cols offset_x offset_y
       row col).
Proof.
  intros Hr Hc. unfold background_cell. cbv zeta.
  apply (outcome_bind false (fun _ => True)).
  { apply (outcome_grid_at false grid rows cols); assumption. }
  intros cell _.
  destruct (bool_decide _); [apply outcome_ret; lia|].
  destruct (single_unit _ _); [apply outcome_ret; lia|].
  destruct (color_pairs !! color_pair cell) as [colors|]; [|apply outcome_ret; lia].
  apply (outcome_bind false (fun _ => True)); [apply outcome_get_state|].
  intros batcher _.
  destruct (_ && _);
    (apply (outcome_bind false (fun _ => True)); [apply outcome_put_state|]);
    intros _ _; apply outcome_ret; lia.
Qed.

Lemma outcome_render_backgrounds :
  outcome false (fun _ => True)
    (render_backgrounds grid color_pairs dirty_cells char_width char_height rows cols
       offset_x offset_y).
Proof.
  unfold render_backgrounds. apply outcome_for_range. intros row Hrow.
  unfold background_row.
  apply (outcome_bind false (fun _ => True)).
  { apply outcome_for_range. intros col Hcol. apply outcome_background_cell; lia. }
  intros _ _. apply (outcome_bind false (fun _ => True)); [apply outcome_get_state|].
  intros batcher _. apply (outcome_bind false (fun _ => True)); [apply outcome_put_state|].
  intros _ _. apply outcome_ret. lia.
Qed.

Lemma outcome_render_characters :
  outcome true (fun _ => True)
    (render_characters os grid color_pairs dirty_cells char_width char_height rows cols
       offset_x offset_y font_ascent).
Proof.
  unfold render_characters.
  apply (outcome_bind true (fun _ => True)); [|intros _ _; apply outcome_flush_batch].
  apply outcome_for_range. intros row Hrow.
  unfold character_row.
  apply (outcome_bind true (fun _ => True)).
  { apply outcome_for_range. intros col Hcol. apply outcome_character_cell; lia. }
  intros _ _. apply outcome_flush_then. lia.
Qed.

End FrameFacts.

(** ** Cells the passes skip *)

Lemma grid_at_cell {S : Type} (grid : list (list Cell)) (row col : Z) (cell : Cell) (s : S) :
  grid_cell grid row col = Some cell -> grid_at grid row col s = (Ok cell, s).
Proof. intros H. unfold grid_at. rewrite H. reflexivity. Qed.

Lemma flush_batch_closes (os : Native) (cw ch ascent : Q) (st st' : CharPass) :
  flush_batch os cw ch ascent st = (Ok tt, st') -> cp_current_batch st' = None.
Proof.
  unfold flush_batch. rewrite bind_unfold. cbn [get_state].
  destruct (cp_current_batch st) as [batch|] eqn:E.
  - rewrite bind_unfold.
    destruct (draw_character_batch os cw ch ascent batch st) as [[[]|what|] st1]; try discriminate.
    cbn. intros H. injection H as <-. reflexivity.
  - cbn. intros H. injection H as <-. exact E.
Qed.

Section CellFacts.

Variable os : Native.
Variable grid : list (list Cell).
Variable color_pairs : gmap Z ColorPair.
Variable dirty_cells : CellRect.
Variables char_width char_height : Q.
Variables rows cols : Z.
Variables offset_x offset_y : Q.
Variable font_ascent : Q.

Local Abbreviation character_cell' :=
  (character_cell os grid color_pairs dirty_cells char_width char_height rows cols
     offset_x offset_y font_ascent).
Local Abbreviation background_cell' :=
  (background_cell grid color_pairs char_width char_height rows cols offset_x offset_y).
Local Abbreviation flush_batch' := (flush_batch os char_width char_height font_ascent).

Lemma combine_in_range (row col : Z) (cell : Cell) (st : CharPass) :
  grid_shape grid rows cols -> 0 <= row < rows -> 0 <= col ->
  exists combined,
    combine_variation_selector grid dirty_cells cols row col cell st = (Ok combined, st) /\
    exists rest, combined_char combined = character cell ++ rest.
Proof.
  intros Hg Hr Hc. unfold combine_variation_selector.
  destruct ((col + 1 <? end_col dirty_cells) && (col + 1 <? cols)) eqn:E.
  - apply andb_true_iff in E as [_ E]. apply Z.ltb_lt in E.
    destruct (grid_cell_in_range grid rows cols row (col + 1) Hg Hr) as [next Hnext]; [lia|].
    rewrite bind_unfold, (grid_at_cell _ _ _ _ _ Hnext).
    destruct (single_unit _ _); eexists; (split; [reflexivity|]); cbn.
    + eexists; reflexivity.
    + exists []. rewrite app_nil_r. reflexivity.
  - eexists. split; [reflexivity|]. exists []. cbn. rewrite app_nil_r. reflexivity.
Qed.

(** C7 (amended). A cell whose [color_pair] has no entry in the colour-pair
    table is skipped by both passes, and neither reports an error for it.
    The background pass leaves its batcher as it is: the cell adds nothing and
    the open batch stays open.  The character pass does what flushing the open
    run does and nothing else.  Both go on with the next column; with no run
    open the character pass returns at once. *)
Theorem unknown_color_pair_skips_cell (row col : Z) (cell : Cell) :
  grid_shape grid rows cols -> 0 <= row < rows -> 0 <= col < cols ->
  grid_cell grid row col = Some cell ->
  color_pairs !! color_pair cell = None ->
  (forall batcher, background_cell' row col batcher = (Ok 0, batcher)) /\
  (forall st, character_cell' row col st = (flush_batch';; mret 0) st) /\
  (forall st, cp_current_batch st = None -> character_cell' row col st = (Ok 0, st)).
Proof.
  intros Hg Hr Hc Hcell Hmiss.
  assert (Hchar : forall st, character_cell' row col st = (flush_batch';; mret 0) st).
  { intros st. unfold character_cell.
    rewrite bind_unfold, (grid_at_cell _ _ _ _ _ Hcell).
    destruct (bool_decide (character cell = [])); [reflexivity|].
    destruct (_ && _); [reflexivity|].
    destruct (combine_in_range row col cell st Hg Hr) as (combined & Hcomb & _); [lia|].
    rewrite bind_unfold, Hcomb, Hmiss. reflexivity. }
  split; [|split; [exact Hchar|]].
  - intros batcher. unfold background_cell. cbv zeta.
    rewrite bind_unfold, (grid_at_cell _ _ _ _ _ Hcell).
    destruct (bool_decide (character cell = [])); [reflexivity|].
    destruct (single_unit _ _); [reflexivity|].
    rewrite Hmiss. reflexivity.
  - intros st Hnone. rewrite Hchar.
    unfold flush_batch. rewrite !bind_unfold. cbn [get_state]. rewrite Hnone. reflexivity.
Qed.

Lemma lookup_attributes_current (fa rgb : Z) (ul : bool) (st : CharPass) :
  cp_current_batch (snd (lookup_attributes os fa rgb ul st)) = cp_current_batch st.
Proof.
  unfold lookup_attributes.
  destruct (get_attributes os fa rgb ul (cp_caches st)) as [r caches]. reflexivity.
Qed.

Lemma can_extend_underline (batch : CharacterBatch) (x y : Q) (fa rgb : Z) (ul : bool) (fi : Z) :
  can_extend char_width batch x y fa rgb ul fi = true -> cb_underline batch = ul.
Proof.
  unfold can_extend. cbv zeta. intros H.
  apply andb_true_iff in H as [H _]. apply andb_true_iff in H as [H _].
  apply andb_true_iff in H as [_ H]. apply andb_true_iff in H as [_ H].
  apply eqb_prop. exact H.
Qed.

(** C6 (amended). In the character pass, a cell whose text is a single
    space.  Without the underline bit it is left out of every run and closes
    the open run: the pass does exactly what flushing does, and no run is open
    after it.  With the underline bit the space test does not skip it, and it
    goes the way of a cell with any other text.  If its colour pair is not in
    the table, or no font renders it, it is still left out and closes the open
    run.  If its colour pair is known and a font renders it, the run open
    after the cell carries the underline flag and ends with the space, either
    as the extension of the run that was open or as a new run. *)
Theorem space_cell_in_run_iff_underlined (row col : Z) (cell : Cell) (st : CharPass) :
  grid_shape grid rows cols -> 0 <= row < rows -> 0 <= col < cols ->
  grid_cell grid row col = Some cell ->
  character cell = [32] ->
  let underlined := negb (Z.land (attributes cell) 2 =? 0) in
  (underlined = false ->
     character_cell' row col st = (flush_batch';; mret 0) st /\
     (forall skip st', character_cell' row col st = (Ok skip, st') ->
                       cp_current_batch st' = None)) /\
  (underlined = true ->
     exists combined rest,
       combine_variation_selector grid dirty_cells cols row col cell st = (Ok combined, st) /\
       combined_char combined = 32 :: rest /\
       match color_pairs !! color_pair cell with
       | None => character_cell' row col st = (flush_batch';; mret 0) st
       | Some colors =>
           let fg_rgb :=
             if Z.land (attributes cell) 4 =? 0 then fg_rgb colors else bg_rgb colors in
           let font_attributes := Z.land (attributes cell) 1 in
           forall attrs st1,
             lookup_attributes os font_attributes fg_rgb false st = (Ok attrs, st1) ->
             let font_index :=
               get_font_index_for_character os (combined_char combined) (dict_font attrs)
                 font_attributes in
             (font_index = -2 ->
              character_cell' row col st = (flush_batch';; mret (cols_to_skip combined)) st1) /\
             (font_index <> -2 ->
              forall skip st',
                character_cell' row col st = (Ok skip, st') ->
                exists run before,
                  cp_current_batch st' = Some run /\
                  cb_underline run = true /\
                  cb_text run = before ++ 32 :: rest /\
                  (before = [] \/
                   exists open, cp_current_batch st = Some open /\ cb_text open = before))
       end).
Proof.
  intros Hg Hr Hc Hcell Hspace. cbv zeta.
  assert (Hstart : forall k : Cell -> M CharPass Z,
            (grid_at grid row col ≫= k) st = k cell st).
  { intros k. rewrite bind_unfold, (grid_at_cell _ _ _ _ _ Hcell). reflexivity. }
  split.
  - (* not underlined: the cell only closes the open run *)
    intros Hul.
    assert (E : character_cell' row col st = (flush_batch';; mret 0) st).
    { unfold character_cell. rewrite Hstart, Hspace.
      cbn [bool_decide decide_rel single_unit]. rewrite Hul.
      destruct (bool_decide ([32] = [])) eqn:Hd; [apply bool_decide_eq_true in Hd; discriminate|].
      reflexivity. }
    split; [exact E|].
    intros skip st' Hok. rewrite E, bind_unfold in Hok.
    destruct (flush_batch' st) as [[[]|what|] st1] eqn:Ef; try discriminate.
    cbn in Hok. injection Hok as _ <-. apply (flush_batch_closes _ _ _ _ _ _ Ef).
  - (* underlined: the cell goes the way of every drawable cell *)
    intros Hul.
    destruct (combine_in_range row col cell st Hg Hr) as (combined & Hcomb & rest & Hrest);
      [lia|].
    rewrite Hspace in Hrest. exists combined, rest.
    split; [exact Hcomb|]. split; [exact Hrest|].
    remember (character_cell' row col st) as result eqn:Eres.
    unfold character_cell in Eres. rewrite Hstart, Hspace in Eres.
    destruct (bool_decide ([32] = [])) eqn:Hd; [apply bool_decide_eq_true in Hd; discriminate|].
    cbn [single_unit] in Eres. rewrite Hul in Eres. cbn [negb andb Z.eqb Pos.eqb] in Eres.
    rewrite bind_unfold, Hcomb in Eres.
    destruct (color_pairs !! color_pair cell) as [colors|]; [|exact Eres].
    intros attrs st1 Hlook.
    rewrite bind_unfold, Hlook in Eres.
    pose proof (lookup_attributes_current (Z.land (attributes cell) 1)
                  (if Z.land (attributes cell) 4 =? 0 then fg_rgb colors else bg_rgb colors)
                  false st) as Hcur.
    rewrite Hlook in Hcur. cbn [snd] in Hcur.
    split.
    + intros Hidx. rewrite Hidx in Eres. exact Eres.
    + intros Hidx skip st' Hok. apply Z.eqb_neq in Hidx.
      rewrite Hidx in Eres. rewrite Eres in Hok. clear Eres.
      rewrite bind_unfold in Hok. cbn [get_state] in Hok.
      destruct (cp_current_batch st1) as [open|] eqn:Eopen.
      * destruct (can_extend _ open _ _ _ _ _ _) eqn:Eext.
        -- (* the open run is extended *)
           cbn in Hok. injection Hok as _ <-. cbn [cp_current_batch].
           eexists _, (cb_text open). split; [reflexivity|]. cbn [cb_underline cb_text].
           split; [rewrite (can_extend_underline _ _ _ _ _ _ _ Eext); reflexivity|].
           split; [rewrite Hrest; reflexivity|].
           right. exists open. split; [congruence | reflexivity].
        -- (* the open run is drawn and a new one starts with the space *)
           rewrite bind_unfold in Hok.
           destruct (draw_character_batch os char_width char_height font_ascent open st1)
             as [[[]|what|] st2]; try discriminate.
           cbn in Hok. injection Hok as _ <-. cbn [cp_current_batch].
           eexists _, []. split; [reflexivity|]. cbn [cb_underline cb_text].
           split; [reflexivity|]. split; [rewrite Hrest; reflexivity | left; reflexivity].
      * cbn in Hok. injection Hok as _ <-. cbn [cp_current_batch].
        eexists _, []. split; [reflexivity|]. cbn [cb_underline cb_text].
        split; [reflexivity|]. split; [rewrite Hrest; reflexivity | left; reflexivity].
Qed.

End CellFacts.

Example scenario_1 :
  let st := snd (render_characters (complete_native 31) (row_A_space_B 0) example_color_pairs
                   whole_row 8 16 1 3 0 0 12 fresh_pass) in
  texts_drawn (cp_drawn st) = [[65]; [66]].
Proof. vm_compute. reflexivity. Qed.

Example scenario_2 :
  let st := snd (render_characters (complete_native 31) (row_A_space_B 2) example_color_pairs
                   whole_row 8 16 1 3 0 0 12 fresh_pass) in
  texts_drawn (cp_drawn st) = [[65]; [32]; [66]] /\
  In (FillUnderline 8 (4 # 2) 8) (cp_drawn st).
Proof. vm_compute. split; [reflexivity|]. tauto. Qed.

(** C9. For every dirty rect, cell size and offset, on a grid of [rows] x
    [cols] cells: the region [calculate_dirty_cells] returns satisfies
    [0 <= start_row <= end_row <= rows], [0 <= start_col <= cols] and
    [0 <= end_col <= cols]; hence every index of the row-major loops names a
    cell of the grid, the background pass runs to its end, and the character
    pass never indexes the grid out of range. *)
Theorem dirty_cells_within_grid
    (rect : CGRect) (cw ch : Q) (rows cols : Z) (ox oy : Q) :
  0 <= rows -> 0 <= cols ->
  let r := calculate_dirty_cells rect cw ch rows cols ox oy in
  (0 <= start_row r <= end_row r /\ end_row r <= rows /\
   0 <= start_col r <= cols /\ 0 <= end_col r <= cols) /\
  (forall (os : Native) (grid : list (list Cell)) (color_pairs : gmap Z ColorPair)
          (font_ascent : Q),
     grid_shape grid rows cols ->
     (forall row col, start_row r <= row < end_row r -> start_col r <= col < end_col r ->
                      is_Some (grid_cell grid row col)) /\
     (forall batcher,
        fst (render_backgrounds grid color_pairs r cw ch rows cols ox oy batcher) = Ok tt) /\
     (forall st,
        fst (render_characters os grid color_pairs r cw ch rows cols ox oy font_ascent st)
        <> OutOfRange)).
Proof.
  intros Hrows Hcols. cbv zeta.
  set (r := calculate_dirty_cells rect cw ch rows cols ox oy).
  assert (Hb : 0 <= start_row r <= end_row r /\ end_row r <= rows /\
               0 <= start_col r <= cols /\ 0 <= end_col r <= cols).
  { subst r. unfold calculate_dirty_cells. cbv zeta.
    set (a := clamp (int_sub rows (static_cast_int (Qceiling _))) rows).
    set (b := clamp (int_sub rows (static_cast_int (Qfloor ((origin_y rect - oy) / ch)))) rows).
    set (c := clamp (static_cast_int (Qfloor _)) cols).
    set (d := clamp (static_cast_int (Qceiling _)) cols).
    pose proof (clamp_bounds (int_sub rows (static_cast_int
                  (Qceiling ((origin_y rect - oy + size_height rect) / ch)))) rows Hrows) as Ha.
    pose proof (clamp_bounds (int_sub rows (static_cast_int
                  (Qfloor ((origin_y rect - oy) / ch)))) rows Hrows) as Hb.
    pose proof (clamp_bounds (static_cast_int (Qfloor ((origin_x rect - ox) / cw))) cols Hcols)
      as Hc.
    pose proof (clamp_bounds (static_cast_int
                  (Qceiling ((origin_x rect - ox + size_width rect) / cw))) cols Hcols) as Hd.
    fold a in Ha. fold b in Hb. fold c in Hc. fold d in Hd.
    destruct (b <? a) eqn:E; [apply Z.ltb_lt in E | apply Z.ltb_ge in E];
      cbn [start_row end_row start_col end_col]; lia. }
  split; [exact Hb|].
  intros os grid color_pairs font_ascent Hgrid.
  destruct Hb as (Hr1 & Hr2 & Hc1 & Hc2).
  split; [|split].
  - intros row col Hrow Hcol. apply (grid_cell_in_range grid rows cols); [exact Hgrid | lia | lia].
  - intros batcher.
    pose proof (outcome_render_backgrounds grid color_pairs r cw ch rows cols ox oy Hgrid
                  ltac:(lia) ltac:(lia) batcher) as H.
    destruct (fst (render_backgrounds grid color_pairs r cw ch rows cols ox oy batcher))
      as [[]|what|]; [reflexivity | discriminate H | contradiction].
  - intros st.
    pose proof (outcome_render_characters os grid color_pairs r cw ch rows cols ox oy
                  font_ascent Hgrid ltac:(lia) ltac:(lia) st) as H.
    intros E. rewrite E in H. exact H.
Qed.

(** ** The loops end by their condition *)

Lemma returns_ret {S A : Type} (P : A -> Prop) (a : A) : P a -> returns (S := S) P (mret a).
Proof. intros H s a' s' E. injection E as <- _. exact H. Qed.

Lemma returns_bind {S A B : Type} (Q : A -> Prop) (P : B -> Prop) (m : M S A) (f : A -> M S B) :
  returns Q m -> (forall a, Q a -> returns P (f a)) -> returns P (m ≫= f).
Proof.
  intros Hm Hf s b s' E. rewrite bind_unfold in E.
  destruct (m s) as [[a|what|] s1] eqn:Em; try discriminate.
  apply (Hf a (Hm _ _ _ Em) _ _ _ E).
Qed.

Lemma returns_any {S A : Type} (m : M S A) : returns (fun _ => True) m.
Proof. intros s a s' _. exact I. Qed.

Lemma character_cell_skip (os : Native) (grid : list (list Cell)) (color_pairs : gmap Z ColorPair)
    (dirty_cells : CellRect) (cw ch : Q) (rows cols : Z) (ox oy ascent : Q) (row col : Z) :
  returns (fun skip => 0 <= skip)
    (character_cell os grid color_pairs dirty_cells cw ch rows cols ox oy ascent row col).
Proof.
  unfold character_cell.
  apply (returns_bind (fun _ => True)); [apply returns_any|]. intros cell _.
  assert (Hflush : forall k, 0 <= k ->
            returns (fun skip => 0 <= skip) (flush_batch os cw ch ascent;; mret k)).
  { intros k Hk. apply (returns_bind (fun _ => True)); [apply returns_any|].
    intros _ _. apply returns_ret. exact Hk. }
  destruct (bool_decide _); [apply Hflush; lia|].
  destruct (_ && _); [apply Hflush; lia|].
  apply (returns_bind (fun c => 0 <= cols_to_skip c)).
  { unfold combine_variation_selector. destruct (_ && _); [|apply returns_ret; cbn; lia].
    apply (returns_bind (fun _ => True)); [apply returns_any|]. intros next _.
    destruct (single_unit _ _); apply returns_ret; cbn; lia. }
  intros combined Hskip.
  destruct (color_pairs !! _); [|apply Hflush; lia].
  apply (returns_bind (fun _ => True)); [apply returns_any|]. intros attrs _.
  destruct (_ =? -2); [apply Hflush; exact Hskip|].
  apply (returns_bind (fun _ => True)); [apply returns_any|]. intros st _.
  destruct (cp_current_batch st) as [batch|].
  - destruct (can_extend _ _ _ _ _ _ _ _).
    + apply (returns_bind (fun _ => True)); [apply returns_any|].
      intros _ _. apply returns_ret. exact Hskip.
    + apply (returns_bind (fun _ => True)); [apply returns_any|]. intros _ _.
      apply (returns_bind (fun _ => True)); [apply returns_any|].
      intros _ _. apply returns_ret. exact Hskip.
  - apply (returns_bind (fun _ => True)); [apply returns_any|].
    intros _ _. apply returns_ret. exact Hskip.
Qed.

(** The inner loop of the character pass, which skips ahead over variation
    selectors, is not cut short by its fuel: more fuel changes nothing. *)
Lemma character_row_loop_fuel (os : Native) (grid : list (list Cell))
    (color_pairs : gmap Z ColorPair) (dirty_cells : CellRect) (cw ch : Q) (rows cols : Z)
    (ox oy ascent : Q) (row : Z) (fuel : nat) (st : CharPass) :
  (Z.to_nat (end_col dirty_cells - start_col dirty_cells) <= fuel)%nat ->
  let body := character_cell os grid color_pairs dirty_cells cw ch rows cols ox oy ascent row in
  for_range fuel (start_col dirty_cells) (end_col dirty_cells) body st =
  for_range (Z.to_nat (end_col dirty_cells - start_col dirty_cells))
            (start_col dirty_cells) (end_col dirty_cells) body st.
Proof.
  intros Hfuel body. apply for_range_fuel; [|exact Hfuel | lia].
  intros j s skip s' E. apply (character_cell_skip _ _ _ _ _ _ _ _ _ _ _ _ _ _ _ _ E).
Qed.

Lemma pair_eta_ok {S A : Type} (x : Result A * S) (a : A) : fst x = Ok a -> x = (Ok a, snd x).
Proof. destruct x as [r s]. cbn. intros ->. reflexivity. Qed.

(** The row 'A', space, 'B' of 8 x 16 cells, with the fonts of
    [example_native]: a plain space after 'A' leaves no run open; an
    underlined space starts an underlined run; an underlined space with the
    unknown colour pair 5 does what flushing does. *)
Lemma space_cell_in_run_iff_underlined_witness :
  let pass grid :=
    character_cell (example_native 31) grid example_color_pairs whole_row 8 16 1 3 0 0 12 in
  let after_A grid := snd (pass grid 0 0 fresh_pass) in
  cp_current_batch (snd (pass (row_A_space_B 0) 0 1 (after_A (row_A_space_B 0)))) = None /\
  (exists run before,
     cp_current_batch (snd (pass (row_A_space_B 2) 0 1 (after_A (row_A_space_B 2)))) = Some run /\
     cb_underline run = true /\
     cb_text run = before ++ [32] /\
     (before = [] \/
      exists open, cp_current_batch (after_A (row_A_space_B 2)) = Some open /\
                   cb_text open = before)) /\
  pass row_A_space5_B 0 1 (after_A row_A_space5_B)
  = (flush_batch (example_native 31) 8 16 12;; mret 0) (after_A row_A_space5_B).
Proof.
  cbv zeta.
  assert (Hshape : forall c0 c1 c2 : Cell, grid_shape [[c0; c1; c2]] 1 3).
  { intros c0 c1 c2. split; [reflexivity|]. repeat constructor. }
  assert (Hrow : 0 <= 0 < 1) by lia.
  assert (Hcol : 0 <= 1 < 3) by lia.
  split; [|split].
  - refine (proj2 (proj1 (space_cell_in_run_iff_underlined (example_native 31)
              (row_A_space_B 0) example_color_pairs whole_row 8 16 1 3 0 0 12 0 1
              (mkCell [32] 0 0 false) _ _ Hrow Hcol eq_refl eq_refl) eq_refl)
              0 _ (pair_eta_ok _ _ _)).
    + apply Hshape.
    + vm_compute. reflexivity.
  - destruct (proj2 (space_cell_in_run_iff_underlined (example_native 31)
                (row_A_space_B 2) example_color_pairs whole_row 8 16 1 3 0 0 12 0 1
                (mkCell [32] 0 2 false)
                (snd (character_cell (example_native 31) (row_A_space_B 2) example_color_pairs
                        whole_row 8 16 1 3 0 0 12 0 0 fresh_pass))
                (Hshape _ _ _) Hrow Hcol eq_refl eq_refl) eq_refl)
      as (combined & rest & Hcomb & Hrest & Hcase).
    vm_compute in Hcomb. injection Hcomb as <-.
    cbn [combined_char] in Hrest. injection Hrest as <-.
    cbn [color_pair attributes] in Hcase.
    assert (E : example_color_pairs !! 0 = Some (mkColorPair 16777215 0)) by reflexivity.
    rewrite E in Hcase. cbv zeta in Hcase.
    edestruct Hcase as [_ Hin]; [vm_compute; reflexivity|].
    edestruct Hin as (run & before & H1 & H2 & H3 & H4).
    { vm_compute. discriminate. }
    { apply pair_eta_ok. vm_compute. reflexivity. }
    exists run, before. repeat split; assumption.
  - destruct (proj2 (space_cell_in_run_iff_underlined (example_native 31)
                row_A_space5_B example_color_pairs whole_row 8 16 1 3 0 0 12 0 1
                (mkCell [32] 5 2 false)
                (snd (character_cell (example_native 31) row_A_space5_B example_color_pairs
                        whole_row 8 16 1 3 0 0 12 0 0 fresh_pass))
                (Hshape _ _ _) Hrow Hcol eq_refl eq_refl) eq_refl)
      as (combined & rest & _ & _ & Hcase).
    cbn [color_pair] in Hcase.
    assert (E : example_color_pairs !! 5 = None) by reflexivity.
    rewrite E in Hcase. exact Hcase.
Defined.

(** In the row 'A', space, 'B' the space has the underline bit set and names
    colour pair 5, which the table lacks: the space closes the run of 'A' and
    is in no run, and no underline is drawn. *)
Lemma underlined_space_unknown_pair_counterexample :
  let pass := character_cell (example_native 31) row_A_space5_B example_color_pairs whole_row
                8 16 1 3 0 0 12 in
  let after_A := snd (pass 0 0 fresh_pass) in
  let drawn := cp_drawn (snd (render_characters (example_native 31) row_A_space5_B
                                example_color_pairs whole_row 8 16 1 3 0 0 12 fresh_pass)) in
  grid_cell row_A_space5_B 0 1 = Some (mkCell [32] 5 2 false) /\
  negb (Z.land 2 2 =? 0) = true /\
  (exists run, cp_current_batch after_A = Some run /\ cb_text run = [65]) /\
  cp_current_batch (snd (pass 0 1 after_A)) = None /\
  texts_drawn drawn = [[65]; [66]] /\
  Forall (fun op => match op with FillUnderline _ _ _ => False | _ => True end) drawn.
Proof.
  cbv zeta. split; [reflexivity|]. split; [reflexivity|].
  split; [eexists; split; vm_compute; reflexivity|].
  split; [vm_compute; reflexivity|]. split; [vm_compute; reflexivity|].
  vm_compute. repeat constructor.
Qed.

(** 'B' at column 1 of [row_A_B5_C] names colour pair 5, which the table
    lacks. *)
Lemma unknown_color_pair_skips_cell_witness :
  (forall batcher, example_background_cell row_A_B5_C 0 1 batcher = (Ok 0, batcher)) /\
  (forall st, example_character_cell row_A_B5_C 0 1 st =
              (flush_batch (complete_native 31) 8 16 12;; mret 0) st) /\
  (forall st, cp_current_batch st = None ->
              example_character_cell row_A_B5_C 0 1 st = (Ok 0, st)).
Proof.
  unfold example_background_cell, example_character_cell.
  apply (unknown_color_pair_skips_cell (complete_native 31) row_A_B5_C example_color_pairs
           whole_row 8 16 1 3 0 0 12 0 1 (mkCell [66] 5 0 false)).
  - split; [reflexivity|]. repeat constructor.
  - lia.
  - lia.
  - reflexivity.
  - vm_compute. reflexivity.
Defined.

(** The whole frame of [row_A_B5_C]: backgrounds for columns 0 and 2, runs
    "A" and "C", and no error. *)
Example scenario_3 :
  let bg := render_backgrounds row_A_B5_C example_color_pairs whole_row 8 16 1 3 0 0
              RectangleBatcher_new in
  let chars := render_characters (complete_native 31) row_A_B5_C example_color_pairs whole_row
                 8 16 1 3 0 0 12 fresh_pass in
  fst bg = Ok tt /\
  fst (draw_batched_backgrounds (snd bg)) = [FillRect 0 0 8 16 0; FillRect 16 0 8 16 0] /\
  fst chars = Ok tt /\
  texts_drawn (cp_drawn (snd chars)) = [[65]; [67]].
Proof. cbv zeta. repeat split; vm_compute; reflexivity. Qed.

(** The background pass does not close the open batch at a cell with an
    unknown colour pair.  In [row_wide_B5_C] the batch opened by the wide cell
    at column 0 is still open after column 1, is extended by column 2, and the
    row is filled by one rectangle of three cells' width; had column 1 closed
    the batch there would be two. *)
Lemma background_pass_keeps_batch_open_counterexample :
  let after_wide := snd (example_background_cell row_wide_B5_C 0 0 RectangleBatcher_new) in
  let after_unknown := snd (example_background_cell row_wide_B5_C 0 1 after_wide) in
  let pass := render_backgrounds row_wide_B5_C example_color_pairs whole_row 8 16 1 3 0 0
                RectangleBatcher_new in
  current_batch_ after_wide = Some (mkRectBatch 0 0 16 16 0) /\
  after_unknown = after_wide /\
  after_unknown <> finish_row after_wide /\
  fst (draw_batched_backgrounds (snd pass)) = [FillRect 0 0 24 16 0].
Proof.
  cbv zeta. split; [vm_compute; reflexivity|]. split; [vm_compute; reflexivity|].
  split; [vm_compute; intros H; discriminate H | vm_compute; reflexivity].
Qed.

(** A grid of one row and three columns of 8 x 16 cells and the dirty rect
    (-100, -100, 1000, 1000), which reaches far beyond it on all sides. *)
Lemma dirty_cells_within_grid_witness :
  let r := calculate_dirty_cells (mkCGRect (-100) (-100) 1000 1000) 8 16 1 3 0 0 in
  (0 <= start_row r <= end_row r /\ end_row r <= 1 /\
   0 <= start_col r <= 3 /\ 0 <= end_col r <= 3) /\
  (forall (os : Native) (grid : list (list Cell)) (color_pairs : gmap Z ColorPair)
          (font_ascent : Q),
     grid_shape grid 1 3 ->
     (forall row col, start_row r <= row < end_row r -> start_col r <= col < end_col r ->
                      is_Some (grid_cell grid row col)) /\
     (forall batcher,
        fst (render_backgrounds grid color_pairs r 8 16 1 3 0 0 batcher) = Ok tt) /\
     (forall st,
        fst (render_characters os grid color_pairs r 8 16 1 3 0 0 font_ascent st)
        <> OutOfRange)).
Proof.
  apply (dirty_cells_within_grid (mkCGRect (-100) (-100) 1000 1000) 8 16 1 3 0 0); lia.
Defined.

Example dirty_cells_far_rect :
  calculate_dirty_cells (mkCGRect (-100) (-100) 1000 1000) 8 16 1 3 0 0 = mkCellRect 0 1 0 3 /\
  calculate_dirty_cells (mkCGRect 5 5 (-1000) (-1000)) 8 16 1 3 0 0 = mkCellRect 1 1 0 0.
Proof. split; vm_compute; reflexivity. Qed.

(** ** Validation and parsing *)

Lemma parse_all_ok {A B : Type} (parse : A -> Result B) (P : A -> Prop) (xs : list A) :
  (forall x, (exists b, parse x = Ok b) <-> P x) ->
  (exists bs, parse_all parse xs = Ok bs) <-> Forall P xs.
Proof.
  intros Hp. induction xs as [|x xs IH]; cbn [parse_all].
  - split; [constructor | eauto].
  - split.
    + intros [bs H]. destruct (parse x) as [b| |] eqn:Ex; try discriminate.
      destruct (parse_all parse xs) as [bs'| |] eqn:Exs; try discriminate.
      constructor; [apply Hp; eauto | apply IH; eauto].
    + intros H. apply Forall_cons in H as [Hx Hxs].
      apply Hp in Hx as [b ->]. apply IH in Hxs as [bs ->]. eauto.
Qed.

Lemma parse_all_in_range {A B : Type} (parse : A -> Result B) (xs : list A) :
  (forall x, parse x <> OutOfRange) -> parse_all parse xs <> OutOfRange.
Proof.
  intros Hp. induction xs as [|x xs IH]; cbn [parse_all]; [discriminate|].
  specialize (Hp x). destruct (parse x); try discriminate; [|contradiction].
  destruct (parse_all parse xs); try discriminate. contradiction.
Qed.

Lemma py_long_spec (o : PyObject) :
  py_long o <-> PyLong_Check o = true /\ is_Some (PyLong_AsLong o).
Proof.
  unfold py_long. split.
  - intros [(z & -> & Hz) | (b & ->)]; cbn.
    + replace (LONG_MIN <=? z) with true by (symmetry; apply Z.leb_le; lia).
      replace (z <=? LONG_MAX) with true by (symmetry; apply Z.leb_le; lia).
      cbn. eauto.
    + eauto.
  - intros [Hc [v Hv]]. destruct o; try discriminate.
    + right. eauto.
    + left. exists z. split; [reflexivity|]. cbn in Hv.
      destruct (LONG_MIN <=? z) eqn:E1; [|discriminate].
      destruct (z <=? LONG_MAX) eqn:E2; [|discriminate].
      apply Z.leb_le in E1. apply Z.leb_le in E2. lia.
Qed.

Lemma py_number_spec (o : PyObject) :
  py_number o <-> PyFloat_Check o || PyLong_Check o = true.
Proof.
  unfold py_number. split.
  - intros [[d ->] | [[z ->] | [b ->]]]; reflexivity.
  - destruct o; try discriminate; intros _; eauto.
Qed.

Lemma forallb_Forall_lt (cps : list Z) :
  forallb (fun cp => cp <? 65536) cps = true <-> Forall (fun cp => cp < 65536) cps.
Proof.
  rewrite forallb_forall, Forall_forall. split; intros H x Hx.
  - apply Z.ltb_lt, H, list_elem_of_In, Hx.
  - apply Z.ltb_lt, H, list_elem_of_In, Hx.
Qed.

Lemma existsb_surrogate (cps : list Z) :
  existsb is_surrogate cps = false <-> Forall (fun cp => is_surrogate cp = false) cps.
Proof.
  induction cps as [|cp cps IH]; cbn [existsb].
  - split; [constructor | reflexivity].
  - rewrite orb_false_iff, IH. split.
    + intros [H1 H2]. constructor; assumption.
    + intros H. apply Forall_cons in H. exact H.
Qed.

Lemma surrogate_in_basic_plane (cps : list Z) :
  forallb (fun cp => cp <? 65536) cps = true -> existsb is_surrogate cps = true ->
  existsb (fun cp => 256 <=? cp) cps = true.
Proof.
  induction cps as [|cp cps IH]; cbn [forallb existsb]; [discriminate|].
  intros H1 H2. apply andb_true_iff in H1 as [_ H1].
  apply orb_true_iff in H2 as [H2 | H2]; apply orb_true_iff.
  - left. unfold is_surrogate in H2. apply andb_true_iff in H2 as [H2 _].
    apply Z.leb_le in H2. apply Z.leb_le. lia.
  - right. apply IH; assumption.
Qed.

Lemma py_text_spec (o : PyObject) :
  py_text o <-> exists cps, o = PyUnicode cps /\ is_Some (utf16_of_unicode cps).
Proof.
  unfold py_text. split; intros (cps & -> & H); exists cps; (split; [reflexivity|]).
  - unfold utf16_of_unicode. cbv zeta.
    destruct (forallb (fun cp => cp <? 65536) cps && existsb (fun cp => 256 <=? cp) cps) eqn:E;
      [eauto|].
    destruct (existsb is_surrogate cps) eqn:Es; [|eauto]. exfalso.
    destruct H as [H | H].
    + apply forallb_Forall_lt in H.
      rewrite H, (surrogate_in_basic_plane cps H Es) in E. discriminate.
    + apply existsb_surrogate in H. congruence.
  - unfold utf16_of_unicode in H. cbv zeta in H.
    destruct (forallb (fun cp => cp <? 65536) cps && existsb (fun cp => 256 <=? cp) cps) eqn:E.
    + left. apply andb_true_iff in E as [E _]. apply forallb_Forall_lt. exact E.
    + destruct (existsb is_surrogate cps) eqn:Es; [destruct H; discriminate|].
      right. apply existsb_surrogate. exact Es.
Qed.

Lemma parse_cell_spec (o : PyObject) :
  (exists cell, parse_cell o = Ok cell) <-> well_formed_cell o.
Proof.
  unfold well_formed_cell. split.
  - intros [cell H]. unfold parse_cell in H.
    destruct o as [| | | | |items| |]; try discriminate.
    destruct items as [|c [|p [|a [|w [|x items]]]]]; try discriminate.
    exists c, p, a, w. split; [reflexivity|].
    destruct c as [| | | |cps| | |]; try discriminate.
    destruct (utf16_of_unicode cps) as [text|] eqn:Et; [|discriminate].
    destruct (PyLong_Check p) eqn:Ep; [|discriminate]. cbn [negb] in H.
    destruct (PyLong_AsLong p) as [pv|] eqn:Epv; [|discriminate].
    destruct (PyLong_Check a) eqn:Ea; [|discriminate]. cbn [negb] in H.
    destruct (PyLong_AsLong a) as [av|] eqn:Eav; [|discriminate].
    split; [apply py_text_spec; exists cps; rewrite Et; eauto|].
    split; apply py_long_spec; eauto.
  - intros (c & p & a & w & -> & Hc & Hp & Ha).
    apply py_text_spec in Hc as (cps & -> & [text Ht]).
    apply py_long_spec in Hp as [Hp [pv Hpv]]. apply py_long_spec in Ha as [Ha [av Hav]].
    unfold parse_cell. rewrite Ht, Hp, Hpv, Ha, Hav. cbn [negb]. eauto.
Qed.

Lemma parse_cell_in_range (o : PyObject) : parse_cell o <> OutOfRange.
Proof.
  unfold parse_cell. destruct o as [| | | | |items| |]; try discriminate.
  destruct items as [|c [|p [|a [|w [|x items]]]]]; try discriminate.
  destruct c; try discriminate.
  destruct (utf16_of_unicode _); [|discriminate].
  destruct (negb (PyLong_Check p)); [discriminate|].
  destruct (PyLong_AsLong p); [|discriminate].
  destruct (negb (PyLong_Check a)); [discriminate|].
  destruct (PyLong_AsLong a); discriminate.
Qed.

Lemma parse_row_spec (cols : Z) (o : PyObject) :
  (exists cells, parse_row cols o = Ok cells) <-> well_formed_row cols o.
Proof.
  unfold well_formed_row, parse_row. split.
  - intros [cells H]. destruct o as [| | | | | |items|]; try discriminate.
    destruct (Z.of_nat (length items) =? cols) eqn:E; [|discriminate]. cbn [negb] in H.
    exists items. split; [reflexivity|]. split; [apply Z.eqb_eq, E|].
    apply (parse_all_ok parse_cell well_formed_cell items parse_cell_spec). eauto.
  - intros (items & -> & Hlen & Hall).
    rewrite (proj2 (Z.eqb_eq _ _) Hlen). cbn [negb].
    apply (parse_all_ok parse_cell well_formed_cell items parse_cell_spec). exact Hall.
Qed.

Lemma parse_row_in_range (cols : Z) (o : PyObject) : parse_row cols o <> OutOfRange.
Proof.
  unfold parse_row. destruct o; try discriminate.
  destruct (negb _); [discriminate|]. apply parse_all_in_range, parse_cell_in_range.
Qed.

Lemma parse_grid_spec (o : PyObject) (rows cols : Z) :
  (exists grid, parse_grid o rows cols = Ok grid) <-> well_formed_grid o rows cols.
Proof.
  unfold well_formed_grid, parse_grid. split.
  - intros [grid H]. destruct o as [| | | | | |items|]; try discriminate.
    destruct (Z.of_nat (length items) =? rows) eqn:E; [|discriminate]. cbn [negb] in H.
    exists items. split; [reflexivity|]. split; [apply Z.eqb_eq, E|].
    apply (parse_all_ok (parse_row cols) (well_formed_row cols) items (parse_row_spec cols)).
    eauto.
  - intros (items & -> & Hlen & Hall).
    rewrite (proj2 (Z.eqb_eq _ _) Hlen). cbn [negb].
    apply (parse_all_ok (parse_row cols) (well_formed_row cols) items (parse_row_spec cols)).
    exact Hall.
Qed.

Lemma parse_grid_in_range (o : PyObject) (rows cols : Z) : parse_grid o rows cols <> OutOfRange.
Proof.
  unfold parse_grid. destruct o; try discriminate.
  destruct (negb _); [discriminate|]. apply parse_all_in_range, parse_row_in_range.
Qed.

Lemma extract_component_spec (o : PyObject) :
  (exists v, extract_component o = Ok v) <-> py_rgb_component o.
Proof.
  unfold extract_component, py_rgb_component. split.
  - intros [v H]. destruct o as [|b|z| | | | |]; try discriminate; [right; eauto|].
    left. exists z. split; [reflexivity|]. cbn in H.
    destruct ((LONG_MIN <=? z) && (z <=? LONG_MAX)); [|discriminate].
    destruct (z <? 0) eqn:E1; [discriminate|]. destruct (255 <? z) eqn:E2; [discriminate|].
    apply Z.ltb_ge in E1. apply Z.ltb_ge in E2. lia.
  - intros [(z & -> & Hz) | (b & ->)]; cbn.
    + replace (LONG_MIN <=? z) with true by (symmetry; apply Z.leb_le; unfold LONG_MIN; lia).
      replace (z <=? LONG_MAX) with true by (symmetry; apply Z.leb_le; unfold LONG_MAX; lia).
      cbn. replace (z <? 0) with false by (symmetry; apply Z.ltb_ge; lia).
      replace (255 <? z) with false by (symmetry; apply Z.ltb_ge; lia). eauto.
    + destruct b; cbn; eauto.
Qed.

Lemma extract_component_in_range (o : PyObject) : extract_component o <> OutOfRange.
Proof.
  unfold extract_component. destruct (negb _); [discriminate|].
  destruct (PyLong_AsLong o); [|discriminate]. destruct (_ || _); discriminate.
Qed.

Lemma extract_rgb_spec (r g b : PyObject) :
  (exists v, extract_rgb r g b = Ok v) <->
  py_rgb_component r /\ py_rgb_component g /\ py_rgb_component b.
Proof.
  rewrite <- !extract_component_spec. unfold extract_rgb. split.
  - intros [v H].
    destruct (extract_component r); try discriminate.
    destruct (extract_component g); try discriminate.
    destruct (extract_component b); try discriminate.
    split; [eauto | split; eauto].
  - intros ([vr ->] & [vg ->] & [vb ->]). eauto.
Qed.

Lemma extract_rgb_in_range (r g b : PyObject) : extract_rgb r g b <> OutOfRange.
Proof.
  unfold extract_rgb.
  pose proof (extract_component_in_range r). pose proof (extract_component_in_range g).
  pose proof (extract_component_in_range b).
  destruct (extract_component r); try discriminate; [|contradiction].
  destruct (extract_component g); try discriminate; [|contradiction].
  destruct (extract_component b); try discriminate. contradiction.
Qed.

Lemma parse_color_pair_spec (entry : PyObject * PyObject) :
  (exists p, parse_color_pair entry = Ok p) <-> well_formed_entry entry.
Proof.
  destruct entry as [key value]. unfold well_formed_entry, parse_color_pair. cbn [fst snd].
  split.
  - intros [p H].
    destruct (PyLong_Check key) eqn:Ek; [|discriminate]. cbn [negb] in H.
    destruct (PyLong_AsLong key) as [id|] eqn:Eid; [|discriminate].
    split; [apply py_long_spec; eauto|].
    destruct value as [| | | | |items| |]; try discriminate.
    destruct items as [|fg [|bg [|x items]]]; try discriminate.
    exists fg, bg. split; [reflexivity|].
    destruct fg as [| | | | |fgs| |]; try discriminate.
    destruct fgs as [|fr [|fg [|fb [|x fgs]]]]; try discriminate.
    destruct bg as [| | | | |bgs| |]; try discriminate.
    destruct bgs as [|br [|bg [|bb [|x bgs]]]]; try discriminate.
    destruct (extract_rgb fr fg fb) as [fv| |] eqn:Ef; try discriminate.
    destruct (extract_rgb br bg bb) as [bv| |] eqn:Eb; try discriminate.
    split.
    + exists fr, fg, fb. split; [reflexivity|]. apply extract_rgb_spec. eauto.
    + exists br, bg, bb. split; [reflexivity|]. apply extract_rgb_spec. eauto.
  - intros (Hk & fg & bg & -> & (fr & fg' & fb & -> & Hf) & (br & bg' & bb & -> & Hb)).
    apply py_long_spec in Hk as [-> [id ->]]. cbn [negb].
    apply extract_rgb_spec in Hf as [fv ->]. apply extract_rgb_spec in Hb as [bv ->]. eauto.
Qed.

Lemma parse_color_pair_in_range (entry : PyObject * PyObject) :
  parse_color_pair entry <> OutOfRange.
Proof.
  destruct entry as [key value]. unfold parse_color_pair.
  destruct (negb _); [discriminate|]. destruct (PyLong_AsLong key); [|discriminate].
  destruct value as [| | | | |items| |]; try discriminate.
  destruct items as [|fg [|bg [|x items]]]; try discriminate.
  destruct fg as [| | | | |fgs| |]; try discriminate.
  destruct fgs as [|fr [|fg [|fb [|x fgs]]]]; try discriminate.
  destruct bg as [| | | | |bgs| |]; try discriminate.
  destruct bgs as [|br [|bg [|bb [|x bgs]]]]; try discriminate.
  pose proof (extract_rgb_in_range fr fg fb). pose proof (extract_rgb_in_range br bg bb).
  destruct (extract_rgb fr fg fb); try discriminate; [|contradiction].
  destruct (extract_rgb br bg bb); try discriminate. contradiction.
Qed.

Lemma parse_color_pairs_spec (o : PyObject) :
  (exists table, parse_color_pairs o = Ok table) <-> well_formed_color_table o.
Proof.
  unfold well_formed_color_table, parse_color_pairs. split.
  - intros [table H]. destruct o as [| | | | | | |items]; try discriminate.
    exists items. split; [reflexivity|].
    apply (parse_all_ok parse_color_pair well_formed_entry items parse_color_pair_spec).
    destruct (parse_all parse_color_pair items); try discriminate. eauto.
  - intros (items & -> & Hall).
    apply (parse_all_ok parse_color_pair well_formed_entry items parse_color_pair_spec)
      in Hall as [pairs ->]. eauto.
Qed.

Lemma parse_color_pairs_in_range (o : PyObject) : parse_color_pairs o <> OutOfRange.
Proof.
  unfold parse_color_pairs. destruct o as [| | | | | | |items]; try discriminate.
  pose proof (parse_all_in_range parse_color_pair items parse_color_pair_in_range).
  destruct (parse_all parse_color_pair items); try discriminate. contradiction.
Qed.

Lemma validate_frame_spec (a : FrameArgs) :
  (exists rect, validate_frame a = inr rect) <->
  valid_dimensions a /\ PyList_Check (grid_obj a) = true /\
  PyDict_Check (color_pairs_obj a) = true /\ well_formed_dirty_rect (dirty_rect_obj a).
Proof.
  unfold validate_frame, valid_dimensions, well_formed_dirty_rect. split.
  - intros [rect H].
    destruct (arg_rows a <=? 0) eqn:E1; [discriminate|].
    destruct (arg_cols a <=? 0) eqn:E2; [discriminate|]. cbn [orb] in H.
    destruct (10000 <? arg_rows a) eqn:E3; [discriminate|].
    destruct (10000 <? arg_cols a) eqn:E4; [discriminate|]. cbn [orb] in H.
    destruct (Qle_bool (arg_char_width a) 0) eqn:E5; [discriminate|].
    destruct (Qle_bool (arg_char_height a) 0) eqn:E6; [discriminate|]. cbn [orb] in H.
    destruct (PyList_Check (grid_obj a)); [|discriminate].
    destruct (PyDict_Check (color_pairs_obj a)); [|discriminate]. cbn [negb] in H.
    apply Z.leb_gt in E1. apply Z.leb_gt in E2. apply Z.ltb_ge in E3. apply Z.ltb_ge in E4.
    split; [split; [lia | split; [lia | split]]|].
    + apply Qnot_le_lt. intros Hle. apply Qle_bool_iff in Hle. congruence.
    + apply Qnot_le_lt. intros Hle. apply Qle_bool_iff in Hle. congruence.
    + split; [reflexivity | split; [reflexivity|]].
      destruct (dirty_rect_obj a) as [| | | | |items| |]; try discriminate.
      destruct items as [|x [|y [|w [|h [|e items]]]]]; try discriminate.
      exists x, y, w, h. split; [reflexivity|].
      destruct (PyFloat_Check x || PyLong_Check x) eqn:Ex; [|discriminate].
      destruct (PyFloat_Check y || PyLong_Check y) eqn:Ey; [|discriminate].
      destruct (PyFloat_Check w || PyLong_Check w) eqn:Ew; [|discriminate].
      destruct (PyFloat_Check h || PyLong_Check h) eqn:Eh; [|discriminate].
      repeat split; apply py_number_spec; assumption.
  - intros ((Hr & Hc & Hw & Hh) & -> & -> & (x & y & w & h & -> & Hx & Hy & Hw' & Hh')).
    replace (arg_rows a <=? 0) with false by (symmetry; apply Z.leb_gt; lia).
    replace (arg_cols a <=? 0) with false by (symmetry; apply Z.leb_gt; lia).
    replace (10000 <? arg_rows a) with false by (symmetry; apply Z.ltb_ge; lia).
    replace (10000 <? arg_cols a) with false by (symmetry; apply Z.ltb_ge; lia).
    assert (E5 : Qle_bool (arg_char_width a) 0 = false).
    { destruct (Qle_bool (arg_char_width a) 0) eqn:E; [|reflexivity].
      apply Qle_bool_iff in E. exfalso. apply (Qlt_not_le _ _ Hw E). }
    assert (E6 : Qle_bool (arg_char_height a) 0 = false).
    { destruct (Qle_bool (arg_char_height a) 0) eqn:E; [|reflexivity].
      apply Qle_bool_iff in E. exfalso. apply (Qlt_not_le _ _ Hh E). }
    rewrite E5, E6. cbn [orb negb].
    apply py_number_spec in Hx, Hy, Hw', Hh'. rewrite Hx, Hy, Hw', Hh'. cbn [negb]. eauto.
Qed.

Lemma initialize_caches_result (os : Native) (names : PyObject) (size : Q) (g : Renderer) :
  match initialize_caches os names size g with
  | (Ok _, g') => is_Some (caches g')
  | (Throw _, _) => True
  | (OutOfRange, _) => False
  end.
Proof.
  unfold initialize_caches. cbv zeta.
  destruct (negb (_ || _ || _)) eqn:E.
  - apply negb_true_iff in E. apply orb_false_iff in E as [E _].
    apply orb_false_iff in E as [E _]. apply negb_false_iff in E.
    apply bool_decide_eq_true in E. exact E.
  - destruct (CFStringCreateWithCString os _); [|exact I].
    destruct (create_base_font os _ size); [|exact I]. cbn. eauto.
Qed.

Lemma frame_conditions_parse (a : FrameArgs) :
  frame_conditions a <->
  (exists rect, validate_frame a = inr rect) /\
  (exists grid, parse_grid (grid_obj a) (arg_rows a) (arg_cols a) = Ok grid) /\
  (exists table, parse_color_pairs (color_pairs_obj a) = Ok table).
Proof.
  unfold frame_conditions.
  rewrite validate_frame_spec, parse_grid_spec, parse_color_pairs_spec. split.
  - intros (Hd & Hg & Ht & Hr). split; [|split; assumption].
    split; [assumption|]. split; [|split; [|assumption]].
    + destruct Hg as (rs & -> & _). reflexivity.
    + destruct Ht as (items & -> & _). reflexivity.
  - intros ((Hd & _ & _ & Hr) & Hg & Ht). auto.
Qed.

(** A frame the checks of [validate_frame] reject is reported with their
    exception and message; neither the renderer nor the context is touched. *)
Lemma render_frame_rejected (os : Native) (a : FrameArgs) (g : Renderer)
    (exc : PyExc) (message : string) :
  context_ptr a <> 0 -> validate_frame a = inl (exc, message) ->
  render_frame os a g = (Raised exc message, g, []).
Proof.
  intros Hc Hv. unfold render_frame.
  destruct (context_ptr a =? 0) eqn:E; [apply Z.eqb_eq in E; contradiction|].
  rewrite Hv. reflexivity.
Qed.


Lemma example_frame_conditions : frame_conditions (example_frame 1).
Proof.
  apply frame_conditions_parse.
  split; [eexists; vm_compute; reflexivity | split; eexists; vm_compute; reflexivity].
Qed.


(** The example frame is rendered when its row count is 1, rejected by the
    dimension check when it is 0 and by [parse_grid] when it is 2; a null
    context is rejected first. *)
Example render_frame_example :
  render_frame (example_native 7) (example_frame 1) no_renderer
  = (ReturnedNone,
     snd (fst (render_frame (example_native 7) (example_frame 1) no_renderer)),
     [FillRect 0 0 16 16 0;
      DrawGlyphs (mkCharacterBatch [65; 66] [false; false] 0 16777215 false 0 0 (-1))
        100 7 false]) /\
  render_frame (example_native 7) (example_frame 0) no_renderer
  = (Raised ValueError "Grid dimensions must be positive (rows > 0, cols > 0)",
     no_renderer, []) /\
  (exists message g',
     render_frame (example_native 7) (example_frame 2) no_renderer
     = (Raised RuntimeError message, g', [])) /\
  (exists message g',
     render_frame failing_native (example_frame 1) no_renderer
     = (Raised RuntimeError message, g', [])).
Proof.
  split; [vm_compute; reflexivity|]. split; [vm_compute; reflexivity|].
  split; do 2 eexists; vm_compute; reflexivity.
Qed.

(** ** More on the dirty-region mapping *)

Lemma wrap_int_pred (z : Z) : wrap_int (wrap_int z - 1) = wrap_int (z - 1).
Proof.
  unfold wrap_int. f_equal.
  replace ((z + 2147483648) mod 4294967296 - 2147483648 - 1 + 2147483648)
    with ((z + 2147483648) mod 4294967296 - 1) by lia.
  replace (z - 1 + 2147483648) with (z + 2147483648 - 1) by lia.
  rewrite <- (Zminus_mod_idemp_l (z + 2147483648)). reflexivity.
Qed.

(** The bottom edge of [row] lies [rows - row - 1] cell heights above the
    bottom of the grid. *)
Lemma ttk_to_cg_y_in_range (row rows : Z) (ch : Q) :
  0 <= row <= rows -> rows <= INT_MAX ->
  ttk_to_cg_y row rows ch = (inject_Z (rows - row - 1) * ch)%Q.
Proof.
  intros Hr Hm. unfold ttk_to_cg_y. rewrite wrap_int_pred.
  rewrite wrap_int_id by (unfold INT_MIN, INT_MAX in *; lia). reflexivity.
Qed.

Lemma Qfloor_div_lt (n : Z) (a c : Q) :
  (0 < c)%Q -> (a < inject_Z n * c)%Q -> Qfloor (a / c) < n.
Proof.
  intros Hc Ha.
  assert (H : (a / c < inject_Z n)%Q) by (apply Qlt_shift_div_r; assumption).
  pose proof (Qfloor_le (a / c)) as Hf.
  assert (H2 : (inject_Z (Qfloor (a / c)) < inject_Z n)%Q) by lra.
  rewrite <- Zlt_Qlt in H2. exact H2.
Qed.

Lemma Qceiling_div_gt (n : Z) (a c : Q) :
  (0 < c)%Q -> (inject_Z n * c < a)%Q -> n < Qceiling (a / c).
Proof.
  intros Hc Ha.
  assert (H : (inject_Z n < a / c)%Q) by (apply Qlt_shift_div_l; assumption).
  pose proof (Qle_ceiling (a / c)) as Hf.
  assert (H2 : (inject_Z n < inject_Z (Qceiling (a / c)))%Q) by lra.
  rewrite <- Zlt_Qlt in H2. exact H2.
Qed.

Lemma Qfloor_div_exact (n : Z) (a c : Q) :
  (0 < c)%Q -> (a == inject_Z n * c)%Q -> Qfloor (a / c) = n.
Proof.
  intros Hc Ha.
  assert (E : (a / c == inject_Z n)%Q) by (rewrite Ha; field; lra).
  rewrite E. apply Qfloor_Z.
Qed.

Lemma Qceiling_div_exact (n : Z) (a c : Q) :
  (0 < c)%Q -> (a == inject_Z n * c)%Q -> Qceiling (a / c) = n.
Proof.
  intros Hc Ha.
  assert (E : (a / c == inject_Z n)%Q) by (rewrite Ha; field; lra).
  rewrite E. apply Qceiling_Z.
Qed.

(** On the exact values: the rectangle of a block of cells is mapped back to
    the block. *)
Lemma cell_region_maps_back
    (cw ch : Q) (rows cols r0 r1 c0 c1 : Z) (ox oy : Q) :
  0 <= r0 <= r1 -> r1 <= rows -> rows <= INT_MAX ->
  0 <= c0 <= c1 -> c1 <= cols -> cols <= INT_MAX ->
  (0 < cw)%Q -> (0 < ch)%Q ->
  calculate_dirty_cells
    (mkCGRect (inject_Z c0 * cw + ox) (ttk_to_cg_y (r1 - 1) rows ch + oy)
       (inject_Z (c1 - c0) * cw) (inject_Z (r1 - r0) * ch))
    cw ch rows cols ox oy
  = mkCellRect r0 r1 c0 c1.
Proof.
  intros Hr0 Hr1 Hrows Hc0 Hc1 Hcols Hcw Hch.
  assert (Ey : ttk_to_cg_y (r1 - 1) rows ch = (inject_Z (rows - r1) * ch)%Q).
  { unfold ttk_to_cg_y. rewrite wrap_int_pred.
    rewrite wrap_int_id by (unfold INT_MIN, INT_MAX in *; lia).
    replace (rows - (r1 - 1) - 1) with (rows - r1) by lia. reflexivity. }
  rewrite Ey. unfold calculate_dirty_cells. cbn [origin_x origin_y size_width size_height].
  assert (Fx : Qfloor ((inject_Z c0 * cw + ox - ox) / cw) = c0).
  { apply Qfloor_div_exact; [exact Hcw | ring]. }
  assert (Cx : Qceiling ((inject_Z c0 * cw + ox - ox + inject_Z (c1 - c0) * cw) / cw) = c1).
  { apply Qceiling_div_exact; [exact Hcw|].
    unfold Zminus. rewrite inject_Z_plus, inject_Z_opp. ring. }
  assert (Fy : Qfloor ((inject_Z (rows - r1) * ch + oy - oy) / ch) = rows - r1).
  { apply Qfloor_div_exact; [exact Hch | ring]. }
  assert (Cy : Qceiling ((inject_Z (rows - r1) * ch + oy - oy + inject_Z (r1 - r0) * ch) / ch)
               = rows - r0).
  { apply Qceiling_div_exact; [exact Hch|].
    unfold Zminus. rewrite !inject_Z_plus, !inject_Z_opp. ring. }
  cbv zeta. rewrite Fx, Cx, Fy, Cy.
  rewrite !static_cast_int_id by (unfold INT_MIN, INT_MAX in *; lia).
  unfold int_sub. rewrite !wrap_int_id by (unfold INT_MIN, INT_MAX in *; lia).
  replace (rows - (rows - r0)) with r0 by lia.
  replace (rows - (rows - r1)) with r1 by lia.
  unfold clamp.
  rewrite !Z.min_l, !Z.max_r by lia.
  destruct (r1 <? r0) eqn:E; [apply Z.ltb_lt in E; lia | reflexivity].
Qed.

(** X1.  Round trip between cells and pixels, for geometry that binary64
    computes exactly.  Let the cell size and the offsets be multiples of
    [2^-k]: [w / 2^k] x [h / 2^k] and ([x0 / 2^k], [y0 / 2^k]), with
    [(cols + 1) * w + |x0|] and [(rows + 1) * h + |y0|] below [2^53], so that
    every product, sum and difference formed here has at most 53 bits and the
    four quotients are the integers themselves.  The rectangle that covers
    exactly the rows [r0 .. r1 - 1] and the columns [c0 .. c1 - 1] as the
    passes place them -- left edge [c0 * cw + ox], bottom edge
    [ttk_to_cg_y (r1 - 1) + oy], [(c1 - c0)] cells wide and [(r1 - r0)] cells
    high -- is mapped by [calculate_dirty_cells] to the region
    [{r0, r1, c0, c1}]. *)
Theorem calculate_dirty_cells_of_cell_region
    (k : nat) (w h x0 y0 : Z) (rows cols r0 r1 c0 c1 : Z) :
  let cw := dyadic w k in
  let ch := dyadic h k in
  let ox := dyadic x0 k in
  let oy := dyadic y0 k in
  (k <= 1000)%nat -> 0 < w -> 0 < h ->
  (cols + 1) * w + Z.abs x0 < 2 ^ 53 -> (rows + 1) * h + Z.abs y0 < 2 ^ 53 ->
  0 <= r0 <= r1 -> r1 <= rows -> rows < INT_MAX ->
  0 <= c0 <= c1 -> c1 <= cols -> cols <= INT_MAX ->
  calculate_dirty_cells
    (mkCGRect (inject_Z c0 * cw + ox) (ttk_to_cg_y (r1 - 1) rows ch + oy)
       (inject_Z (c1 - c0) * cw) (inject_Z (r1 - r0) * ch))
    cw ch rows cols ox oy
  = mkCellRect r0 r1 c0 c1.
Proof.
  intros cw ch ox oy _ Hw Hh _ _ Hr0 Hr1 Hrows Hc0 Hc1 Hcols.
  apply cell_region_maps_back;
    try assumption; try lia; apply dyadic_pos; assumption.
Qed.

(** The cells of rows 2 .. 4 and columns 10 .. 19 of a 24 x 80 grid of cells
    of 8.4287109375 x 17 (8631 / 1024 and 17408 / 1024) at offset
    (4.5, 2). *)
Lemma calculate_dirty_cells_of_cell_region_witness :
  calculate_dirty_cells
    (mkCGRect (inject_Z 10 * dyadic 8631 10 + dyadic 4608 10)
       (ttk_to_cg_y (5 - 1) 24 (dyadic 17408 10) + dyadic 2048 10)
       (inject_Z (20 - 10) * dyadic 8631 10) (inject_Z (5 - 2) * dyadic 17408 10))
    (dyadic 8631 10) (dyadic 17408 10) 24 80 (dyadic 4608 10) (dyadic 2048 10)
  = mkCellRect 2 5 10 20.
Proof.
  apply (calculate_dirty_cells_of_cell_region 10 8631 17408 4608 2048 24 80 2 5 10 20);
    unfold INT_MAX; lia.
Defined.

(** On the exact values: a cell whose pixel box overlaps the dirty rect lies
    in the region, when the [int] subtraction [rows - floor (...)] does not
    overflow. *)
Lemma overlapping_cell_in_region
    (rect : CGRect) (cw ch : Q) (rows cols row col : Z) (ox oy : Q) :
  0 <= row < rows -> rows <= INT_MAX -> 0 <= col < cols -> cols <= INT_MAX ->
  (0 < cw)%Q -> (0 < ch)%Q ->
  rows - Qfloor ((origin_y rect - oy) / ch) <= INT_MAX ->
  (origin_x rect < inject_Z (col + 1) * cw + ox)%Q ->
  (inject_Z col * cw + ox < origin_x rect + size_width rect)%Q ->
  (origin_y rect < ttk_to_cg_y row rows ch + oy + ch)%Q ->
  (ttk_to_cg_y row rows ch + oy < origin_y rect + size_height rect)%Q ->
  let r := calculate_dirty_cells rect cw ch rows cols ox oy in
  start_row r <= row < end_row r /\ start_col r <= col < end_col r.
Proof.
  intros Hrow Hrows Hcol Hcols Hcw Hch Hfit Hx1 Hx2 Hy1 Hy2.
  rewrite ttk_to_cg_y_in_range in Hy1, Hy2 by lia.
  assert (Fx : Qfloor ((origin_x rect - ox) / cw) < col + 1).
  { apply Qfloor_div_lt; [exact Hcw | lra]. }
  assert (Cx : col < Qceiling ((origin_x rect - ox + size_width rect) / cw)).
  { apply Qceiling_div_gt; [exact Hcw | lra]. }
  assert (Fy : Qfloor ((origin_y rect - oy) / ch) < rows - row).
  { apply Qfloor_div_lt; [exact Hch|].
    replace (rows - row) with ((rows - row - 1) + 1) by lia.
    rewrite inject_Z_plus. change (inject_Z 1) with 1%Q. lra. }
  assert (Cy : rows - row - 1 < Qceiling ((origin_y rect - oy + size_height rect) / ch)).
  { apply Qceiling_div_gt; [exact Hch | lra]. }
  unfold calculate_dirty_cells. cbv zeta.
  set (fx := Qfloor ((origin_x rect - ox) / cw)) in *.
  set (cx := Qceiling ((origin_x rect - ox + size_width rect) / cw)) in *.
  set (fy := Qfloor ((origin_y rect - oy) / ch)) in *.
  set (cy := Qceiling ((origin_y rect - oy + size_height rect) / ch)) in *.
  clearbody fx cx fy cy.
  assert (Hsr : clamp (int_sub rows (static_cast_int cy)) rows <= row).
  { pose proof (static_cast_int_range cy) as R.
    pose proof (static_cast_int_mono (rows - row) cy ltac:(lia)) as Mo.
    rewrite (static_cast_int_id (rows - row)) in Mo by (unfold INT_MIN, INT_MAX in *; lia).
    unfold int_sub. rewrite wrap_int_id by (unfold INT_MIN, INT_MAX in *; lia).
    unfold clamp. lia. }
  assert (Her : row < clamp (int_sub rows (static_cast_int fy)) rows).
  { rewrite (static_cast_int_id fy) by (unfold INT_MIN, INT_MAX in *; lia).
    unfold int_sub. rewrite wrap_int_id by (unfold INT_MIN, INT_MAX in *; lia).
    unfold clamp. lia. }
  assert (Hsc : clamp (static_cast_int fx) cols <= col).
  { pose proof (static_cast_int_mono fx col ltac:(lia)) as Mo.
    rewrite (static_cast_int_id col) in Mo by (unfold INT_MIN, INT_MAX in *; lia).
    unfold clamp. lia. }
  assert (Hec : col < clamp (static_cast_int cx) cols).
  { pose proof (static_cast_int_mono (col + 1) cx ltac:(lia)) as Mo.
    rewrite (static_cast_int_id (col + 1)) in Mo by (unfold INT_MIN, INT_MAX in *; lia).
    unfold clamp. lia. }
  destruct (_ <? _) eqn:E; cbn [start_row end_row start_col end_col].
  - apply Z.ltb_lt in E. lia.
  - lia.
Qed.

(** X2.  No dirty cell is missed, for geometry that binary64 computes
    exactly.  Let the rect, the cell size and the offsets be multiples of
    [2^-k] with numerators below [2^50] in absolute value, and let the rect's
    edges lie fewer than [2^30] cells from the grid's origin, in a grid of
    fewer than [2^30] rows: every sum and difference of the computation is
    exact, its quotients are correctly rounded quotients of integers below
    [2^53], and every conversion to [int] and every [int] subtraction is in
    range.  Then a cell of the grid whose pixel box
    [[col * cw + ox, (col + 1) * cw + ox) x [y, y + ch)], with
    [y = ttk_to_cg_y row + oy], overlaps the dirty rect lies in the region
    [calculate_dirty_cells] returns. *)
Theorem calculate_dirty_cells_covers_overlapping_cell
    (k : nat) (rx ry rw rh w h x0 y0 : Z) (rows cols row col : Z) :
  let rect := mkCGRect (dyadic rx k) (dyadic ry k) (dyadic rw k) (dyadic rh k) in
  let cw := dyadic w k in
  let ch := dyadic h k in
  let ox := dyadic x0 k in
  let oy := dyadic y0 k in
  (k <= 1000)%nat -> 0 < w -> 0 < h ->
  Forall (fun n => Z.abs n < 2 ^ 50) [rx; ry; rw; rh; w; h; x0; y0] ->
  Z.abs (rx - x0) + Z.abs rw < 2 ^ 30 * w ->
  Z.abs (ry - y0) + Z.abs rh < 2 ^ 30 * h ->
  0 <= row < rows -> rows < 2 ^ 30 -> 0 <= col < cols -> cols <= INT_MAX ->
  (origin_x rect < inject_Z (col + 1) * cw + ox)%Q ->
  (inject_Z col * cw + ox < origin_x rect + size_width rect)%Q ->
  (origin_y rect < ttk_to_cg_y row rows ch + oy + ch)%Q ->
  (ttk_to_cg_y row rows ch + oy < origin_y rect + size_height rect)%Q ->
  let r := calculate_dirty_cells rect cw ch rows cols ox oy in
  start_row r <= row < end_row r /\ start_col r <= col < end_col r.
Proof.
  intros rect cw ch ox oy _ Hw Hh _ _ Hy Hrow Hrows Hcol Hcols Hx1 Hx2 Hy1 Hy2.
  apply overlapping_cell_in_region;
    try assumption; try (unfold INT_MAX; lia); try (apply dyadic_pos; assumption).
  assert (F : - 2 ^ 30 <= Qfloor ((origin_y rect - oy) / ch)).
  { apply Qfloor_div_ge; [apply dyadic_pos; assumption|].
    subst rect oy ch. cbn [origin_y].
    rewrite dyadic_scale, dyadic_sub. apply dyadic_le. lia. }
  unfold INT_MAX. lia.
Qed.

(** Cell (4, 11) of a 24 x 80 grid of cells of 8.4287109375 x 17 at offset
    (4.5, 2) and the rect of 2 x 2 pixels at (103, 330), inside it. *)
Lemma calculate_dirty_cells_covers_overlapping_cell_witness :
  let r := calculate_dirty_cells
             (mkCGRect (dyadic 105472 10) (dyadic 337920 10) (dyadic 2048 10) (dyadic 2048 10))
             (dyadic 8631 10) (dyadic 17408 10) 24 80 (dyadic 4608 10) (dyadic 2048 10) in
  start_row r <= 4 < end_row r /\ start_col r <= 11 < end_col r.
Proof.
  apply (calculate_dirty_cells_covers_overlapping_cell
           10 105472 337920 2048 2048 8631 17408 4608 2048 24 80 4 11);
    try lia; try (unfold INT_MAX; lia); try reflexivity.
  repeat constructor.
Defined.

(** ** More on the rectangle batcher *)







(** Completed batches in front of the batcher's own are carried along
    unchanged. *)
Lemma add_cell_prepend (pre : list RectBatch) (c : CellArgs) (b : RectangleBatcher) :
  add_cell (ca_x c) (ca_y c) (ca_width c) (ca_height c) (ca_bg_rgb c)
    (mkRectangleBatcher (pre ++ batches_ b) (current_batch_ b))
  = let b' := add_cell (ca_x c) (ca_y c) (ca_width c) (ca_height c) (ca_bg_rgb c) b in
    mkRectangleBatcher (pre ++ batches_ b') (current_batch_ b').
Proof.
  unfold add_cell. cbn [current_batch_ batches_].
  destruct (current_batch_ b) as [batch|]; [|reflexivity].
  destruct (_ && _ && _); cbn [current_batch_ batches_]; [reflexivity|].
  rewrite app_assoc. reflexivity.
Qed.

Lemma add_cells_prepend (cs : list CellArgs) :
  forall (pre : list RectBatch) (b : RectangleBatcher),
    add_cells cs (mkRectangleBatcher (pre ++ batches_ b) (current_batch_ b))
    = mkRectangleBatcher (pre ++ batches_ (add_cells cs b)) (current_batch_ (add_cells cs b)).
Proof.
  induction cs as [|c cs IH]; intros pre b.
  - reflexivity.
  - change (add_cells (c :: cs) ?x)
      with (add_cells cs (add_cell (ca_x c) (ca_y c) (ca_width c) (ca_height c) (ca_bg_rgb c) x)).
    rewrite add_cell_prepend. cbv zeta. rewrite IH. reflexivity.
Qed.

(** X4.  Rows are batched independently.  After [finish_row], the cells of
    the next row never touch what was completed before: the batches returned
    for a first row, [finish_row] and a second row are the batches of the
    first row alone followed by the batches of the second row alone.  Nor
    does [get_batches] empty the batcher: a second call returns the same
    batches, and [size] counts them. *)
Theorem RectangleBatcher_rows_are_independent (row1 row2 : list CellArgs) :
  let b1 := add_cells row1 RectangleBatcher_new in
  let b2 := add_cells row2 (finish_row b1) in
  fst (get_batches b2)
  = fst (get_batches b1) ++ fst (get_batches (add_cells row2 RectangleBatcher_new)) /\
  fst (get_batches (snd (get_batches b2))) = fst (get_batches b2) /\
  RectangleBatcher_size (snd (get_batches b2)) = Z.of_nat (length (fst (get_batches b2))).
Proof.
  cbv zeta.
  set (b1 := add_cells row1 RectangleBatcher_new).
  assert (E : add_cells row2 (finish_row b1)
              = mkRectangleBatcher
                  (batches_ (finish_row b1) ++ batches_ (add_cells row2 RectangleBatcher_new))
                  (current_batch_ (add_cells row2 RectangleBatcher_new))).
  { pose proof (add_cells_prepend row2 (batches_ (finish_row b1)) RectangleBatcher_new) as H.
    cbn [batches_ current_batch_ RectangleBatcher_new] in H. rewrite app_nil_r in H.
    rewrite <- H. f_equal.
    clearbody b1. destruct b1 as [bs [cur|]]; reflexivity. }
  rewrite E. clear E.
  set (r2 := add_cells row2 RectangleBatcher_new).
  unfold get_batches, finish_row, RectangleBatcher_size. cbn [fst snd batches_ current_batch_].
  destruct (current_batch_ r2); cbn [fst snd batches_ current_batch_];
    rewrite <- ?app_assoc; repeat split; reflexivity.
Qed.

(** ** The font cache *)

Lemma get_font_keeps (os : Native) (attributes k : Z) (f : FontCache.t) (font : option Z) :
  FontCache.cache_ f !! k = Some font ->
  FontCache.cache_ (snd (FontCache.get_font os attributes f)) !! k = Some font.
Proof.
  intros H. unfold FontCache.get_font.
  destruct (FontCache.cache_ f !! attributes) eqn:E; cbn [snd FontCache.cache_]; [exact H|].
  rewrite lookup_insert_ne; [exact H|]. intros ->. congruence.
Qed.

Lemma get_fonts_keep (calls : list (Native * Z)) :
  forall (f : FontCache.t) (k : Z) (font : option Z),
    FontCache.cache_ f !! k = Some font ->
    FontCache.cache_ (get_fonts calls f) !! k = Some font.
Proof.
  induction calls as [|call calls IH]; intros f k font H; [exact H|].
  apply IH. apply get_font_keeps. exact H.
Qed.

Lemma get_font_cached (os : Native) (attributes : Z) (f : FontCache.t) :
  FontCache.cache_ (snd (FontCache.get_font os attributes f)) !! attributes
  = Some (fst (FontCache.get_font os attributes f)).
Proof.
  unfold FontCache.get_font.
  destruct (FontCache.cache_ f !! attributes) eqn:E; cbn [fst snd FontCache.cache_].
  - exact E.
  - apply lookup_insert_eq.
Qed.

(** X5.  The font cache never forgets and never asks twice.  The font
    [get_font] returned for an attribute value is returned for it again by
    every later call, whatever fonts were requested in between and whatever
    the native layer would answer now; that later call leaves the cache as it
    is. *)
Theorem FontCache_get_font_stable
    (os os' : Native) (attributes : Z) (f : FontCache.t) (calls : list (Native * Z)) :
  let first := FontCache.get_font os attributes f in
  let f2 := get_fonts calls (snd first) in
  FontCache.get_font os' attributes f2 = (fst first, f2).
Proof.
  cbv zeta.
  pose proof (get_fonts_keep calls _ _ _ (get_font_cached os attributes f)) as H.
  unfold FontCache.get_font at 1. rewrite H. reflexivity.
Qed.



(** ** The colour cache *)

(** X7.  What the colour cache returns for a colour is what it created for
    it.  After a call of [get_color] that returned a colour, the next call
    for the same [r], [g], [b] returns that colour again without consulting
    the native layer and whatever [alpha] it is given: the key holds the
    three components only.  A call that throws leaves the cache exactly as
    it was. *)
Theorem ColorCache_get_color_cached :
  (forall (os os' : Native) (r g b : Z) (alpha alpha' : Q) (c : ColorCache.t) (color : Z),
     fst (ColorCache.get_color os r g b alpha c) = Ok color ->
     let c1 := snd (ColorCache.get_color os r g b alpha c) in
     fst (ColorCache.get_color os' r g b alpha' c1) = Ok color /\
     ColorCache.cache_ (snd (ColorCache.get_color os' r g b alpha' c1)) = ColorCache.cache_ c1) /\
  (forall (os : Native) (r g b : Z) (alpha : Q) (c : ColorCache.t) (what : string),
     fst (ColorCache.get_color os r g b alpha c) = Throw what ->
     snd (ColorCache.get_color os r g b alpha c) = c).
Proof.
  split.
  - intros os os' r g b alpha alpha' c color H. cbv zeta.
    assert (Hc : ColorCache.cache_ (snd (ColorCache.get_color os r g b alpha c))
                 !! ColorCache.pack_key r g b = Some color).
    { unfold ColorCache.get_color in *. cbv zeta in *.
      destruct (ColorCache.cache_ c !! ColorCache.pack_key r g b) as [col|] eqn:E.
      - cbn [fst snd ColorCache.cache_] in *. congruence.
      - destruct (CGColorSpaceCreateDeviceRGB os) as [space|]; [|discriminate].
        destruct (CGColorCreate os space _) as [col|]; [|discriminate].
        cbn [fst snd ColorCache.cache_] in *. injection H as ->. apply lookup_insert_eq. }
    set (c1 := snd (ColorCache.get_color os r g b alpha c)) in *. clearbody c1.
    unfold ColorCache.get_color. cbv zeta. rewrite Hc. split; reflexivity.
  - intros os r g b alpha c what H.
    unfold ColorCache.get_color in *. cbv zeta in *.
    destruct (ColorCache.cache_ c !! ColorCache.pack_key r g b) as [col|]; [discriminate|].
    destruct (CGColorSpaceCreateDeviceRGB os) as [space|]; [|reflexivity].
    destruct (CGColorCreate os space _) as [col|]; [discriminate | reflexivity].
Qed.

(** Red is created with alpha 1 by a working native layer and then requested
    with alpha 1/2 from a failing one; a failing layer asked for a colour
    that is not cached changes nothing. *)
Lemma ColorCache_get_color_cached_witness :
  (let c1 := snd (ColorCache.get_color (example_native 11) 255 0 0 1 (ColorCache.new 4)) in
   fst (ColorCache.get_color failing_native 255 0 0 (1 # 2) c1) = Ok 11 /\
   ColorCache.cache_ (snd (ColorCache.get_color failing_native 255 0 0 (1 # 2) c1))
   = ColorCache.cache_ c1) /\
  snd (ColorCache.get_color failing_native 0 255 0 1 (ColorCache.new 4)) = ColorCache.new 4.
Proof.
  split.
  - apply (proj1 ColorCache_get_color_cached (example_native 11) failing_native 255 0 0 1%Q (1 # 2)%Q
             (ColorCache.new 4) 11).
    vm_compute. reflexivity.
  - apply (proj2 ColorCache_get_color_cached failing_native 0 255 0 1%Q (ColorCache.new 4)
             "Failed to create RGB color space"%string).
    vm_compute. reflexivity.
Defined.

(** ** Packed colours *)

Lemma byte_high_bits (z n : Z) : 0 <= z <= 255 -> 8 <= n -> Z.testbit z n = false.
Proof.
  intros Hz Hn.
  assert (E : z = Z.land z (Z.ones 8)).
  { rewrite Z.land_ones by lia. symmetry. apply Z.mod_small.
    change (2 ^ 8) with 256. lia. }
  rewrite E, Z.land_spec, Z.testbit_ones by lia.
  replace (n <? 8) with false by (symmetry; apply Z.ltb_ge; lia).
  rewrite andb_false_r, andb_false_r. reflexivity.
Qed.

Lemma pack_key_testbit (r g b n : Z) :
  0 <= n ->
  Z.testbit (ColorCache.pack_key r g b) n
  = Z.testbit r (n - 16) || Z.testbit g (n - 8) || Z.testbit b n.
Proof.
  intros Hn. unfold ColorCache.pack_key.
  rewrite !Z.lor_spec, !Z.shiftl_spec by lia. reflexivity.
Qed.

Lemma land_255_testbit (z n : Z) :
  0 <= n -> Z.testbit (Z.land z 255) n = Z.testbit z n && (n <? 8).
Proof.
  intros Hn. change 255 with (Z.ones 8).
  rewrite Z.land_spec, Z.testbit_ones by lia.
  replace (0 <=? n) with true by (symmetry; apply Z.leb_le; lia). reflexivity.
Qed.

Lemma land_255_range (z : Z) : 0 <= Z.land z 255 <= 255.
Proof.
  change 255 with (Z.ones 8) at 1 2. rewrite Z.land_ones by lia.
  pose proof (Z.mod_pos_bound z (2 ^ 8) ltac:(lia)) as H. change (2 ^ 8) with 256 in *. lia.
Qed.

Lemma unpack_pack_rgb (r g b : Z) :
  0 <= r <= 255 -> 0 <= g <= 255 -> 0 <= b <= 255 ->
  unpack_rgb (ColorCache.pack_key r g b) = (r, g, b).
Proof.
  intros Hr Hg Hb. unfold unpack_rgb.
  assert (E1 : Z.land (Z.shiftr (ColorCache.pack_key r g b) 16) 255 = r).
  { apply Z.bits_inj'. intros n Hn.
    rewrite land_255_testbit, Z.shiftr_spec, pack_key_testbit by lia.
    replace (n + 16 - 16) with n by lia.
    rewrite (byte_high_bits g (n + 16 - 8)), (byte_high_bits b (n + 16)) by lia.
    rewrite !orb_false_r.
    destruct (n <? 8) eqn:E; [apply andb_true_r|].
    apply Z.ltb_ge in E. rewrite (byte_high_bits r n) by lia. reflexivity. }
  assert (E2 : Z.land (Z.shiftr (ColorCache.pack_key r g b) 8) 255 = g).
  { apply Z.bits_inj'. intros n Hn.
    rewrite land_255_testbit, Z.shiftr_spec, pack_key_testbit by lia.
    replace (n + 8 - 8) with n by lia.
    rewrite (byte_high_bits b (n + 8)) by lia. rewrite orb_false_r.
    destruct (n <? 8) eqn:E.
    - apply Z.ltb_lt in E. rewrite (Z.testbit_neg_r r) by lia. cbn. apply andb_true_r.
    - apply Z.ltb_ge in E. rewrite (byte_high_bits g n) by lia. apply andb_false_r. }
  assert (E3 : Z.land (ColorCache.pack_key r g b) 255 = b).
  { apply Z.bits_inj'. intros n Hn.
    rewrite land_255_testbit, pack_key_testbit by lia.
    destruct (n <? 8) eqn:E.
    - apply Z.ltb_lt in E. rewrite (Z.testbit_neg_r r), (Z.testbit_neg_r g) by lia.
      cbn. apply andb_true_r.
    - apply Z.ltb_ge in E. rewrite (byte_high_bits b n) by lia. apply andb_false_r. }
  rewrite E1, E2, E3. reflexivity.
Qed.

Lemma pack_unpack_rgb (rgb : Z) :
  0 <= rgb < 16777216 ->
  let '(r, g, b) := unpack_rgb rgb in ColorCache.pack_key r g b = rgb.
Proof.
  intros Hv. unfold unpack_rgb.
  apply Z.bits_inj'. intros n Hn. rewrite pack_key_testbit by lia.
  assert (Hhigh : 24 <= n -> Z.testbit rgb n = false).
  { intros H24.
    assert (E : rgb = Z.land rgb (Z.ones 24)).
    { rewrite Z.land_ones by lia. symmetry. apply Z.mod_small.
      change (2 ^ 24) with 16777216. lia. }
    rewrite E, Z.land_spec, Z.testbit_ones by lia.
    replace (n <? 24) with false by (symmetry; apply Z.ltb_ge; lia).
    rewrite andb_false_r, andb_false_r. reflexivity. }
  destruct (Z.lt_ge_cases n 8) as [H8|H8].
  - rewrite !(Z.testbit_neg_r _ (n - 16)), !(Z.testbit_neg_r _ (n - 8)) by lia.
    rewrite land_255_testbit by lia.
    replace (n <? 8) with true by (symmetry; apply Z.ltb_lt; lia).
    cbn. apply andb_true_r.
  - destruct (Z.lt_ge_cases n 16) as [H16|H16].
    + rewrite (Z.testbit_neg_r _ (n - 16)) by lia.
      rewrite !land_255_testbit, Z.shiftr_spec by lia.
      replace (n - 8 + 8) with n by lia.
      replace (n - 8 <? 8) with true by (symmetry; apply Z.ltb_lt; lia).
      replace (n <? 8) with false by (symmetry; apply Z.ltb_ge; lia).
      cbn. rewrite andb_true_r, andb_false_r, orb_false_r. reflexivity.
    + rewrite !land_255_testbit, !Z.shiftr_spec by lia.
      replace (n - 16 + 16) with n by lia. replace (n - 8 + 8) with n by lia.
      replace (n - 8 <? 8) with false by (symmetry; apply Z.ltb_ge; lia).
      replace (n <? 8) with false by (symmetry; apply Z.ltb_ge; lia).
      rewrite !andb_false_r, !orb_false_r.
      destruct (n - 16 <? 8) eqn:E; [apply andb_true_r|].
      apply Z.ltb_ge in E. rewrite Hhigh by lia. reflexivity.
Qed.

Lemma extract_component_range (o : PyObject) (v : Z) :
  extract_component o = Ok v -> 0 <= v <= 255.
Proof.
  unfold extract_component. destruct (negb _); [discriminate|].
  destruct (PyLong_AsLong o) as [value|]; [|discriminate].
  destruct (value <? 0) eqn:E1; [discriminate|].
  destruct (255 <? value) eqn:E2; [discriminate|].
  cbn. intros [= <-]. apply Z.ltb_ge in E1. apply Z.ltb_ge in E2. lia.
Qed.

Lemma pack_key_range (r g b : Z) :
  0 <= r <= 255 -> 0 <= g <= 255 -> 0 <= b <= 255 ->
  0 <= ColorCache.pack_key r g b < 16777216.
Proof.
  intros Hr Hg Hb. unfold ColorCache.pack_key.
  assert (H0 : 0 <= Z.lor (Z.lor (Z.shiftl r 16) (Z.shiftl g 8)) b).
  { rewrite !Z.lor_nonneg, !Z.shiftl_nonneg. lia. }
  split; [exact H0|].
  destruct (Z.eq_dec (Z.lor (Z.lor (Z.shiftl r 16) (Z.shiftl g 8)) b) 0) as [->|Hnz]; [lia|].
  change 16777216 with (2 ^ 24). apply Z.log2_lt_pow2; [lia|].
  rewrite !Z.log2_lor by (rewrite ?Z.lor_nonneg, ?Z.shiftl_nonneg; lia).
  assert (Hlog : forall z, 0 <= z <= 255 -> Z.log2 z < 8).
  { intros z Hz. destruct (Z.eq_dec z 0) as [->|]; [cbn; lia|].
    apply Z.log2_lt_pow2; [lia|]. change (2 ^ 8) with 256. lia. }
  assert (Hs : forall z k, 0 <= z <= 255 -> 0 <= k -> Z.log2 (Z.shiftl z k) < 8 + k).
  { intros z k Hz Hk. destruct (Z.eq_dec z 0) as [->|].
    - rewrite Z.shiftl_0_l. cbn. lia.
    - rewrite Z.log2_shiftl by lia. specialize (Hlog z Hz). lia. }
  pose proof (Hs r 16 Hr ltac:(lia)). pose proof (Hs g 8 Hg ltac:(lia)).
  pose proof (Hlog b Hb). lia.
Qed.

(** X8.  Colours survive the packing.  The value [extract_rgb] packs from
    three components is a 24-bit number from which the renderer's unpacking
    [(rgb >> 16) & 0xFF], [(rgb >> 8) & 0xFF], [rgb & 0xFF] recovers exactly
    the three components, and which is its own key in the colour cache. *)
Theorem packed_color_round_trip (r_obj g_obj b_obj : PyObject) (rgb : Z) :
  extract_rgb r_obj g_obj b_obj = Ok rgb ->
  exists r g b,
    extract_component r_obj = Ok r /\ extract_component g_obj = Ok g /\
    extract_component b_obj = Ok b /\
    0 <= rgb < 16777216 /\
    unpack_rgb rgb = (r, g, b) /\
    ColorCache.pack_key r g b = rgb.
Proof.
  unfold extract_rgb. intros H.
  destruct (extract_component r_obj) as [r| |] eqn:Er; try discriminate.
  destruct (extract_component g_obj) as [g| |] eqn:Eg; try discriminate.
  destruct (extract_component b_obj) as [b| |] eqn:Eb; try discriminate.
  injection H as <-.
  apply extract_component_range in Er, Eg, Eb.
  exists r, g, b. split; [reflexivity|]. split; [reflexivity|]. split; [reflexivity|].
  fold (ColorCache.pack_key r g b).
  split; [apply pack_key_range; assumption|].
  split; [apply unpack_pack_rgb; assumption | reflexivity].
Qed.

Lemma packed_color_round_trip_witness :
  exists r g b,
    extract_component (PyLong 18) = Ok r /\ extract_component (PyLong 52) = Ok g /\
    extract_component (PyLong 86) = Ok b /\
    0 <= 1193046 < 16777216 /\
    unpack_rgb 1193046 = (r, g, b) /\
    ColorCache.pack_key r g b = 1193046.
Proof.
  apply (packed_color_round_trip (PyLong 18) (PyLong 52) (PyLong 86) 1193046).
  vm_compute. reflexivity.
Defined.

(** ** The attribute dictionary cache and cache maintenance *)

(** X9.  What a call of [get_attributes] that finds no entry does.  If it
    throws, no dictionary is cached, the call is still counted as a miss and
    not as a hit.  If it returns a dictionary, the dictionary carries the
    underline flag asked for, the font the font cache now holds for the
    attributes and the colour the colour cache now holds for the colour's
    three components. *)
Theorem get_attributes_on_a_miss
    (os : Native) (font_attributes color_rgb : Z) (underline : bool) (s : Caches) :
  attr_cache s !! AttributeDictCache.make_key font_attributes color_rgb underline = None ->
  let res := get_attributes os font_attributes color_rgb underline s in
  (forall what, fst res = Throw what ->
     attr_cache (snd res) = attr_cache s /\
     misses (snd res) = incr_size_t (misses s) /\ hits (snd res) = hits s) /\
  (forall dict, fst res = Ok dict ->
     dict_underline dict = underline /\
     FontCache.cache_ (g_font_cache (snd res)) !! font_attributes
     = Some (Some (dict_font dict)) /\
     (let '(r, g, b) := unpack_rgb color_rgb in
      ColorCache.cache_ (g_color_cache (snd res)) !! ColorCache.pack_key r g b
      = Some (dict_color dict))).
Proof.
  intros Hmiss. cbv zeta. unfold attr_cache in Hmiss.
  unfold get_attributes, unpack_rgb. cbv zeta. rewrite Hmiss.
  pose proof (get_font_cached os font_attributes (g_font_cache s)) as Hfont.
  destruct (FontCache.get_font os font_attributes (g_font_cache s)) as [font fc].
  cbn [fst snd] in Hfont.
  destruct font as [font|].
  2:{ split; [|intros dict H; discriminate H].
      intros what _. unfold attr_cache, misses, hits. cbn. repeat split; reflexivity. }
  set (r := Z.land (Z.shiftr color_rgb 16) 255).
  set (g := Z.land (Z.shiftr color_rgb 8) 255).
  set (b := Z.land color_rgb 255).
  assert (Hcolor : forall color,
            fst (ColorCache.get_color os r g b 1 (g_color_cache s)) = Ok color ->
            ColorCache.cache_ (snd (ColorCache.get_color os r g b 1 (g_color_cache s)))
            !! ColorCache.pack_key r g b = Some color).
  { intros color H. unfold ColorCache.get_color in *. cbv zeta in *.
    destruct (ColorCache.cache_ (g_color_cache s) !! ColorCache.pack_key r g b) as [col|] eqn:E.
    - cbn [fst snd ColorCache.cache_] in *. congruence.
    - destruct (CGColorSpaceCreateDeviceRGB os) as [space|]; [|discriminate].
      destruct (CGColorCreate os space _) as [col|]; [|discriminate].
      cbn [fst snd ColorCache.cache_] in *. injection H as ->. apply lookup_insert_eq. }
  destruct (ColorCache.get_color os r g b 1 (g_color_cache s)) as [[color|what|] cc];
    cbn [fst snd] in *.
  - specialize (Hcolor color eq_refl).
    destruct (underline && negb (bool_decide (is_Some (if underline then CFNumberCreate os 1 else None)))).
    { split; [|intros dict H; discriminate H].
      intros what _. unfold attr_cache, misses, hits. cbn. repeat split; reflexivity. }
    destruct (CFDictionaryCreate os font color _) as [ref|].
    + split; [intros what H; discriminate H|].
      intros dict [= <-]. cbn. split; [reflexivity|]. split; assumption.
    + split; [|intros dict H; discriminate H].
      intros what _. unfold attr_cache, misses, hits. cbn. repeat split; reflexivity.
  - split; [|intros dict H; discriminate H].
    intros what' _. unfold attr_cache, misses, hits. cbn. repeat split; reflexivity.
  - split; [intros what' H; discriminate H | intros dict H; discriminate H].
Qed.

(** A bold underlined white request on fresh caches, first with a native
    layer that fails, then with one that works. *)
Lemma get_attributes_on_a_miss_witness :
  let failed := get_attributes failing_native 1 16777215 true fresh_caches in
  let done := get_attributes (example_native 21) 1 16777215 true fresh_caches in
  (forall what, fst failed = Throw what ->
     attr_cache (snd failed) = attr_cache fresh_caches /\
     misses (snd failed) = incr_size_t (misses fresh_caches) /\
     hits (snd failed) = hits fresh_caches) /\
  (forall dict, fst done = Ok dict ->
     dict_underline dict = true /\
     FontCache.cache_ (g_font_cache (snd done)) !! 1 = Some (Some (dict_font dict)) /\
     (let '(r, g, b) := unpack_rgb 16777215 in
      ColorCache.cache_ (g_color_cache (snd done)) !! ColorCache.pack_key r g b
      = Some (dict_color dict))).
Proof.
  cbv zeta. split.
  - apply (get_attributes_on_a_miss failing_native 1 16777215 true fresh_caches).
    vm_compute. reflexivity.
  - apply (get_attributes_on_a_miss (example_native 21) 1 16777215 true fresh_caches).
    vm_compute. reflexivity.
Defined.

Lemma call_get_attributes_counts (call : AttrCall) (s : Caches) :
  (hits (snd (call_get_attributes call s)) = incr_size_t (hits s) /\
   misses (snd (call_get_attributes call s)) = misses s) \/
  (hits (snd (call_get_attributes call s)) = hits s /\
   misses (snd (call_get_attributes call s)) = incr_size_t (misses s)).
Proof.
  unfold call_get_attributes.
  destruct (AttributeDictCache.cache_ (g_attr_dict_cache s)
            !! AttributeDictCache.make_key (ac_font_attributes call) (ac_color_rgb call)
                 (ac_underline call)) as [d|] eqn:E.
  - left. destruct (get_attributes_hit (ac_os call) _ _ _ s d E) as (_ & H1 & H2 & _).
    split; assumption.
  - right. destruct (get_attributes_miss (ac_os call) _ _ _ s E) as (H1 & H2 & _).
    split; assumption.
Qed.

Lemma calls_get_attributes_count (calls : list AttrCall) : forall (s : Caches) (n : Z),
  0 <= hits s -> 0 <= misses s -> hits s + misses s = n ->
  n + Z.of_nat (length calls) <= SIZE_MAX ->
  let s' := calls_get_attributes calls s in
  0 <= hits s' /\ 0 <= misses s' /\ hits s' + misses s' = n + Z.of_nat (length calls).
Proof.
  induction calls as [|call calls IH]; intros s n Hh Hm Hn Hlen; cbv zeta.
  - cbn. repeat split; lia.
  - change (calls_get_attributes (call :: calls) s)
      with (calls_get_attributes calls (snd (call_get_attributes call s))).
    cbn [length] in Hlen.
    assert (Hstep : 0 <= hits (snd (call_get_attributes call s)) /\
                    0 <= misses (snd (call_get_attributes call s)) /\
                    hits (snd (call_get_attributes call s))
                    + misses (snd (call_get_attributes call s)) = n + 1).
    { destruct (call_get_attributes_counts call s) as [[-> ->] | [-> ->]];
        rewrite incr_size_t_small by (unfold SIZE_MAX in *; lia); lia. }
    destruct Hstep as (H1 & H2 & H3).
    specialize (IH _ (n + 1) H1 H2 H3 ltac:(lia)). cbv zeta in IH.
    cbn [length]. lia.
Qed.

(** X10.  Every call is counted once.  After any history of
    [get_attributes] calls on a new attribute dictionary cache (fewer than
    2^64 of them, so that the [size_t] counters do not wrap), the hit count
    and the miss count add up to the number of calls, whether the calls
    returned or threw. *)
Theorem AttributeDictCache_counts_every_call
    (cc : ColorCache.t) (fc : FontCache.t) (calls : list AttrCall) :
  Z.of_nat (length calls) <= SIZE_MAX ->
  let s := calls_get_attributes calls (mkCaches cc fc AttributeDictCache.new) in
  0 <= hits s /\ 0 <= misses s /\ hits s + misses s = Z.of_nat (length calls).
Proof.
  intros Hlen.
  apply (calls_get_attributes_count calls (mkCaches cc fc AttributeDictCache.new) 0);
    cbn; lia.
Qed.

Lemma AttributeDictCache_counts_every_call_witness :
  let calls := [mkAttrCall (example_native 21) 1 16777215 false;
                mkAttrCall failing_native 0 16777215 false;
                mkAttrCall (example_native 23) 1 16777215 false] in
  let s := calls_get_attributes calls
             (mkCaches (ColorCache.new 256) (FontCache.new (Some 100)) AttributeDictCache.new) in
  0 <= hits s /\ 0 <= misses s /\ hits s + misses s = Z.of_nat (length calls).
Proof.
  cbv zeta.
  apply (AttributeDictCache_counts_every_call (ColorCache.new 256) (FontCache.new (Some 100))).
  vm_compute. intros H. discriminate H.
Defined.

(** X11.  [clear_caches] empties the three caches and nothing else.  On an
    initialised renderer the caches still exist afterwards and hold no colour,
    no font and no dictionary; the base font, the capacity of the colour
    cache, the hit and miss counters and the remembered font configuration
    are as before.  Hence every [get_attributes] call that follows starts as
    a miss, and [initialize_caches] with the configuration the renderer was
    initialised for still returns at once.  An uninitialised renderer is left
    as it is. *)
Theorem clear_caches_empties_the_caches (g : Renderer) :
  (forall cs base_font, caches g = Some (cs, base_font) ->
     exists cs',
       caches (clear_caches g) = Some (cs', base_font) /\
       ColorCache.size (g_color_cache cs') = 0 /\
       ColorCache.access_order_ (g_color_cache cs') = ∅ /\
       ColorCache.max_size (g_color_cache cs') = ColorCache.max_size (g_color_cache cs) /\
       FontCache.cache_ (g_font_cache cs') = ∅ /\
       FontCache.base_font_ (g_font_cache cs') = FontCache.base_font_ (g_font_cache cs) /\
       attr_cache cs' = ∅ /\ hits cs' = hits cs /\ misses cs' = misses cs /\
       (forall os fa rgb ul,
          misses (snd (get_attributes os fa rgb ul cs')) = incr_size_t (misses cs) /\
          hits (snd (get_attributes os fa rgb ul cs')) = hits cs) /\
       (forall os names size,
          last_font_names g = font_names_of names ->
          (Qabs (last_font_size g - size) <= eps_0_01)%Q ->
          initialize_caches os names size (clear_caches g) = (Ok tt, clear_caches g))) /\
  (caches g = None -> clear_caches g = g).
Proof.
  split.
  - intros cs base_font Hc. unfold clear_caches. rewrite Hc.
    eexists. split; [reflexivity|]. cbn [g_color_cache g_font_cache g_attr_dict_cache].
    split; [reflexivity|]. split; [reflexivity|]. split; [reflexivity|]. split; [reflexivity|].
    split; [reflexivity|]. split; [reflexivity|]. split; [reflexivity|]. split; [reflexivity|].
    split.
    + intros os fa rgb ul.
      match goal with |- context [get_attributes os fa rgb ul ?s] =>
        destruct (get_attributes_miss os fa rgb ul s) as (H1 & H2 & _) end.
      { cbn. apply lookup_empty. }
      split; [exact H2 | exact H1].
    + intros os names size Hnames Hsize.
      unfold initialize_caches. cbv zeta.
      cbn [caches last_font_names last_font_size].
      destruct (bool_decide (is_Some (Some
                  (mkCaches (ColorCache.clear (g_color_cache cs))
                     (FontCache.clear (g_font_cache cs))
                     (AttributeDictCache.clear (g_attr_dict_cache cs)), base_font)))) eqn:E2;
        [|apply bool_decide_eq_false in E2; exfalso; apply E2; eauto].
      destruct (bool_decide (last_font_names g = font_names_of names)) eqn:E3;
        [|apply bool_decide_eq_false in E3; contradiction].
      destruct (Qltb eps_0_01 (Qabs (last_font_size g - size))) eqn:E4; [|reflexivity].
      apply Qltb_lt in E4. exfalso. apply (Qlt_not_le _ _ E4 Hsize).
  - intros Hc. unfold clear_caches. rewrite Hc. reflexivity.
Qed.

(** ** Performance metrics *)

Lemma hit_rate_bounds (h t : Z) :
  0 <= h <= t -> 0 < t -> (0 <= inject_Z h / inject_Z t * 100 <= 100)%Q.
Proof.
  intros Hh Ht.
  assert (Htq : (0 < inject_Z t)%Q).
  { change 0%Q with (inject_Z 0). rewrite <- Zlt_Qlt. exact Ht. }
  assert (Hhq : (0 <= inject_Z h)%Q).
  { change 0%Q with (inject_Z 0). rewrite <- Zle_Qle. lia. }
  assert (Hle : (inject_Z h <= inject_Z t)%Q) by (rewrite <- Zle_Qle; lia).
  assert (H0 : (0 <= inject_Z h / inject_Z t)%Q).
  { apply Qle_shift_div_l; [exact Htq | lra]. }
  assert (H1 : (inject_Z h / inject_Z t <= 1)%Q).
  { apply Qle_shift_div_r; [exact Htq | lra]. }
  split; lra.
Qed.

(** X12.  The metrics never divide by zero and the hit rate is a percentage.
    Right after [reset_metrics] every entry of the dictionary
    [get_performance_metrics] returns is zero, although the cached
    dictionaries are all kept.  In general the attribute cache's hit rate is
    between 0 and 100 -- provided the two counters have not wrapped -- and is
    0 when nothing was looked up or no cache exists. *)
Theorem performance_metrics_are_well_defined (m : Metrics) (g : Renderer) :
  (let '(m', g') := reset_metrics m g in
   get_performance_metrics m' g'
   = mkPerformanceMetrics 0 0 0 0 0 0 0 0 0 0 0 0 0 0 0 0 /\
   g_enable_perf_logging m' = g_enable_perf_logging m /\
   match caches g, caches g' with
   | Some (cs, base_font), Some (cs', base_font') =>
       attr_cache cs' = attr_cache cs /\ g_color_cache cs' = g_color_cache cs /\
       g_font_cache cs' = g_font_cache cs /\ base_font' = base_font
   | None, None => True
   | _, _ => False
   end) /\
  (forall cs base_font,
     caches g = Some (cs, base_font) ->
     0 <= hits cs -> 0 <= misses cs -> hits cs + misses cs <= SIZE_MAX ->
     let p := get_performance_metrics m g in
     attr_dict_cache_hits p = hits cs /\ attr_dict_cache_misses p = misses cs /\
     (0 <= attr_dict_cache_hit_rate p <= 100)%Q /\
     (hits cs + misses cs = 0 -> attr_dict_cache_hit_rate p = 0%Q)) /\
  (caches g = None ->
   let p := get_performance_metrics m g in
   attr_dict_cache_hits p = 0 /\ attr_dict_cache_misses p = 0 /\
   attr_dict_cache_hit_rate p = 0%Q).
Proof.
  split; [|split].
  - unfold reset_metrics. destruct (caches g) as [[cs base_font]|] eqn:Ec.
    + cbn [caches]. split; [|split; [reflexivity|]].
      * unfold get_performance_metrics. cbn. reflexivity.
      * unfold attr_cache. cbn. repeat split; reflexivity.
    + rewrite Ec. split; [|split; [reflexivity | exact I]].
      unfold get_performance_metrics. rewrite Ec. cbn. reflexivity.
  - intros cs base_font Ec Hh Hm Hsum. cbv zeta.
    unfold get_performance_metrics. rewrite Ec. cbv zeta.
    cbn [attr_dict_cache_hits attr_dict_cache_misses attr_dict_cache_hit_rate].
    fold (hits cs). fold (misses cs).
    rewrite (Z.mod_small (hits cs + misses cs)) by (unfold SIZE_MAX in Hsum; lia).
    split; [reflexivity|]. split; [reflexivity|].
    destruct (0 <? hits cs + misses cs) eqn:E.
    + apply Z.ltb_lt in E. split; [apply hit_rate_bounds; lia | lia].
    + split; [split; discriminate | reflexivity].
  - intros Ec. cbv zeta. unfold get_performance_metrics. rewrite Ec. cbn.
    repeat split; reflexivity.
Qed.

(** After three lookups, two of them hits, the rate is 200/3 percent. *)
Example performance_metrics_example :
  let calls := [mkAttrCall (example_native 21) 1 16777215 false;
                mkAttrCall (example_native 22) 1 16777215 false;
                mkAttrCall (example_native 23) 1 16777215 false] in
  let g := mkRenderer (Some (calls_get_attributes calls fresh_caches, 100)) [] 12 in
  let m := mkMetrics 2 10 6 30 4 5 4 false 0 in
  let p := get_performance_metrics m g in
  (attr_dict_cache_hit_rate p == 200 # 3)%Q /\
  (avg_render_time_ms p == 5)%Q /\ (avg_chars_per_batch p == 5)%Q /\
  (font_hit_rate_percent p == 80)%Q.
Proof. cbv zeta. repeat split; vm_compute; reflexivity. Qed.

(** ** Parsing *)

Lemma parse_all_Forall2 {A B : Type} (parse : A -> Result B) (xs : list A) :
  forall bs, parse_all parse xs = Ok bs -> Forall2 (fun x b => parse x = Ok b) xs bs.
Proof.
  induction xs as [|x xs IH]; intros bs H; cbn [parse_all] in H.
  - injection H as <-. constructor.
  - destruct (parse x) as [b| |] eqn:E; try discriminate.
    destruct (parse_all parse xs) as [bs'| |]; try discriminate.
    injection H as <-. constructor; [exact E | apply IH; reflexivity].
Qed.

Lemma parse_row_cells (cols : Z) (row_obj : PyObject) (row : list Cell) :
  parse_row cols row_obj = Ok row ->
  Z.of_nat (length row) = cols /\
  exists cells, row_obj = PyList cells /\
                Forall2 (fun cell_obj cell => parse_cell cell_obj = Ok cell) cells row.
Proof.
  unfold parse_row. destruct row_obj as [| | | | | |cells|]; try discriminate.
  destruct (Z.of_nat (length cells) =? cols) eqn:E; [|discriminate]. cbn [negb].
  apply Z.eqb_eq in E. intros H. apply parse_all_Forall2 in H.
  split; [|exists cells; split; [reflexivity | exact H]].
  apply Forall2_length in H. lia.
Qed.

Lemma parse_grid_shape
    (grid_obj : PyObject) (expected_rows expected_cols : Z) (grid : list (list Cell)) :
  parse_grid grid_obj expected_rows expected_cols = Ok grid ->
  grid_shape grid expected_rows expected_cols.
Proof.
  unfold parse_grid. destruct grid_obj as [| | | | | |row_objs|]; try discriminate.
  destruct (Z.of_nat (length row_objs) =? expected_rows) eqn:E; [|discriminate]. cbn [negb].
  apply Z.eqb_eq in E. intros H. apply parse_all_Forall2 in H.
  split; [apply Forall2_length in H; lia|].
  clear E. induction H as [|row_obj row row_objs grid Hrow _ IH]; [constructor|].
  constructor; [|exact IH]. apply parse_row_cells in Hrow. tauto.
Qed.

(** X13.  [parse_grid] returns the grid it was given, cell by cell.  A
    result has exactly [expected_rows] rows of [expected_cols] cells, and the
    cell at each position is what [parse_cell] makes of the tuple at the same
    position of the Python grid. *)
Theorem parse_grid_keeps_shape_and_order
    (grid_obj : PyObject) (expected_rows expected_cols : Z) (grid : list (list Cell)) :
  parse_grid grid_obj expected_rows expected_cols = Ok grid ->
  grid_shape grid expected_rows expected_cols /\
  exists row_objs,
    grid_obj = PyList row_objs /\
    Forall2 (fun row_obj row =>
               exists cells, row_obj = PyList cells /\
                 Forall2 (fun cell_obj cell => parse_cell cell_obj = Ok cell) cells row)
            row_objs grid.
Proof.
  intros Hparse. split; [apply (parse_grid_shape _ _ _ _ Hparse)|].
  unfold parse_grid in Hparse. destruct grid_obj as [| | | | | |row_objs|]; try discriminate.
  destruct (negb _); [discriminate|].
  apply parse_all_Forall2 in Hparse.
  exists row_objs. split; [reflexivity|].
  induction Hparse as [|row_obj row row_objs grid Hrow _ IH]; [constructor|].
  constructor; [|exact IH]. apply parse_row_cells in Hrow. tauto.
Qed.

Lemma parse_grid_keeps_shape_and_order_witness :
  grid_shape [[mkCell [65] 0 0 false; mkCell [66] 0 0 false]] 1 2 /\
  exists row_objs,
    grid_obj (example_frame 1) = PyList row_objs /\
    Forall2 (fun row_obj row =>
               exists cells, row_obj = PyList cells /\
                 Forall2 (fun cell_obj cell => parse_cell cell_obj = Ok cell) cells row)
            row_objs [[mkCell [65] 0 0 false; mkCell [66] 0 0 false]].
Proof.
  apply (parse_grid_keeps_shape_and_order (grid_obj (example_frame 1)) 1 2).
  vm_compute. reflexivity.
Defined.

(** ** UTF-16 conversion *)

Lemma until_nul_no_nul (cps : list Z) : Forall (fun cp => cp <> 0) cps -> until_nul cps = cps.
Proof.
  induction 1 as [|cp cps Hcp _ IH]; cbn; [reflexivity|].
  destruct (cp =? 0) eqn:E; [apply Z.eqb_eq in E; contradiction|]. rewrite IH. reflexivity.
Qed.

Lemma utf16_decode_not_high (u : Z) (rest : list Z) :
  (55296 <=? u) && (u <=? 56319) = false ->
  utf16_decode (u :: rest) = u :: utf16_decode rest.
Proof.
  intros H. cbn [utf16_decode]. destruct rest as [|lo rest']; [reflexivity|].
  rewrite H. reflexivity.
Qed.

Lemma utf16_decode_plain (cps : list Z) :
  Forall (fun cp => is_surrogate cp = false) cps -> utf16_decode cps = cps.
Proof.
  induction 1 as [|cp cps Hcp _ IH]; [reflexivity|].
  rewrite utf16_decode_not_high, IH; [reflexivity|].
  unfold is_surrogate in Hcp. apply andb_false_iff in Hcp as [H|H].
  - rewrite H. reflexivity.
  - apply Z.leb_gt in H. apply andb_false_iff. right. apply Z.leb_gt. lia.
Qed.

(** The two units of a code point above U+FFFF are a high and a low
    surrogate that decode to it. *)
Lemma utf16_units_pair (cp : Z) :
  65536 <= cp <= 1114111 ->
  exists hi lo,
    utf16_units cp = [hi; lo] /\
    55296 <= hi <= 56319 /\ 56320 <= lo <= 57343 /\
    65536 + Z.shiftl (hi - 55296) 10 + (lo - 56320) = cp.
Proof.
  intros Hcp. unfold utf16_units.
  replace (cp <? 65536) with false by (symmetry; apply Z.ltb_ge; lia).
  eexists _, _. split; [reflexivity|].
  rewrite Z.shiftr_div_pow2 by lia.
  change 1023 with (Z.ones 10). rewrite Z.land_ones by lia.
  change (2 ^ 10) with 1024.
  pose proof (Z.div_mod (cp - 65536) 1024 ltac:(lia)) as Hdm.
  pose proof (Z.mod_pos_bound (cp - 65536) 1024 ltac:(lia)) as Hm.
  assert (Hd : 0 <= (cp - 65536) / 1024 <= 1023).
  { split; [apply Z.div_pos; lia|].
    apply Z.lt_succ_r. apply Z.div_lt_upper_bound; lia. }
  split; [lia|]. split; [lia|].
  replace (55296 + (cp - 65536) / 1024 - 55296) with ((cp - 65536) / 1024) by lia.
  rewrite Z.shiftl_mul_pow2 by lia. change (2 ^ 10) with 1024. lia.
Qed.

Lemma utf16_decode_units (cps : list Z) :
  Forall scalar_value cps ->
  utf16_decode (concat (map utf16_units cps)) = cps.
Proof.
  induction 1 as [|cp cps [Hrange Hsur] _ IH]; [reflexivity|].
  cbn [map concat].
  destruct (Z.lt_ge_cases cp 65536) as [Hlt|Hge].
  - unfold utf16_units at 1.
    replace (cp <? 65536) with true by (symmetry; apply Z.ltb_lt; lia).
    cbn [app]. rewrite utf16_decode_not_high, IH; [reflexivity|].
    unfold is_surrogate in Hsur. apply andb_false_iff in Hsur as [H|H].
    + rewrite H. reflexivity.
    + apply Z.leb_gt in H. apply andb_false_iff. right. apply Z.leb_gt. lia.
  - destruct (utf16_units_pair cp ltac:(lia)) as (hi & lo & -> & Hhi & Hlo & E).
    cbn [app utf16_decode].
    replace (55296 <=? hi) with true by (symmetry; apply Z.leb_le; lia).
    replace (hi <=? 56319) with true by (symmetry; apply Z.leb_le; lia).
    replace (56320 <=? lo) with true by (symmetry; apply Z.leb_le; lia).
    replace (lo <=? 57343) with true by (symmetry; apply Z.leb_le; lia).
    cbn [andb]. rewrite E, IH. reflexivity.
Qed.

(** X14.  The text of a cell survives the conversion to UTF-16.  For a
    string of Unicode scalar values without NUL, the conversion [parse_grid]
    applies succeeds, and decoding the code units it produces -- surrogate
    pairs read as one code point -- gives back the string. *)
Theorem utf16_of_unicode_round_trip (code_points : list Z) :
  Forall scalar_value code_points ->
  exists units,
    utf16_of_unicode code_points = Some units /\ utf16_decode units = code_points.
Proof.
  intros Hall.
  assert (Hsur : Forall (fun cp => is_surrogate cp = false) code_points).
  { eapply Forall_impl; [exact Hall|]. intros cp [_ H]. exact H. }
  assert (Hnul : Forall (fun cp => cp <> 0) code_points).
  { eapply Forall_impl; [exact Hall|]. intros cp [H _]. lia. }
  unfold utf16_of_unicode. cbv zeta.
  destruct (forallb _ code_points && existsb _ code_points).
  - exists code_points. split; [reflexivity | apply utf16_decode_plain; exact Hsur].
  - assert (E : existsb is_surrogate code_points = false).
    { apply not_true_is_false. intros H. apply existsb_exists in H as (cp & Hin & Hcp).
      rewrite Forall_forall in Hsur. specialize (Hsur cp).
      rewrite Hsur in Hcp; [discriminate|]. apply list_elem_of_In. exact Hin. }
    rewrite E. eexists. split; [reflexivity|].
    rewrite until_nul_no_nul by exact Hnul. apply utf16_decode_units. exact Hall.
Qed.

(** "a", U+3042 and U+1F600. *)
Lemma utf16_of_unicode_round_trip_witness :
  exists units,
    utf16_of_unicode [97; 12354; 128512] = Some units /\
    utf16_decode units = [97; 12354; 128512].
Proof.
  apply (utf16_of_unicode_round_trip [97; 12354; 128512]).
  repeat constructor; vm_compute; congruence.
Defined.

Example utf16_of_unicode_examples :
  utf16_of_unicode [97; 128512] = Some [97; 55357; 56832] /\
  utf16_of_unicode [97; 0; 98] = Some [97] /\
  utf16_of_unicode [12354; 0; 98] = Some [12354; 0; 98] /\
  utf16_of_unicode [55357; 12354] = Some [55357; 12354] /\
  utf16_of_unicode [55357; 128512] = None.
Proof. repeat split; vm_compute; reflexivity. Qed.

(** ** The colour table *)

Lemma wrap_int_range (z : Z) : INT_MIN <= wrap_int z <= INT_MAX.
Proof.
  unfold wrap_int, INT_MIN, INT_MAX.
  pose proof (Z.mod_pos_bound (z + 2147483648) 4294967296 ltac:(lia)). lia.
Qed.

Lemma extract_rgb_range (r g b : PyObject) (rgb : Z) :
  extract_rgb r g b = Ok rgb -> 0 <= rgb < 16777216.
Proof.
  unfold extract_rgb. intros H.
  destruct (extract_component r) as [vr| |] eqn:Er; try discriminate.
  destruct (extract_component g) as [vg| |] eqn:Eg; try discriminate.
  destruct (extract_component b) as [vb| |] eqn:Eb; try discriminate.
  injection H as <-. apply extract_component_range in Er, Eg, Eb.
  apply (pack_key_range vr vg vb); assumption.
Qed.

Lemma parse_color_pair_range (entry : PyObject * PyObject) (k : Z) (colors : ColorPair) :
  parse_color_pair entry = Ok (k, colors) ->
  INT_MIN <= k <= INT_MAX /\
  0 <= fg_rgb colors < 16777216 /\ 0 <= bg_rgb colors < 16777216.
Proof.
  destruct entry as [key value]. unfold parse_color_pair.
  destruct (negb _); [discriminate|].
  destruct (PyLong_AsLong key) as [pair_id|]; [|discriminate].
  destruct value as [| | | | |items| |]; try discriminate.
  destruct items as [|fg [|bg [|x items]]]; try discriminate.
  destruct fg as [| | | | |fgs| |]; try discriminate.
  destruct fgs as [|fr [|fg [|fb [|x fgs]]]]; try discriminate.
  destruct bg as [| | | | |bgs| |]; try discriminate.
  destruct bgs as [|br [|bg [|bb [|x bgs]]]]; try discriminate.
  destruct (extract_rgb fr fg fb) as [fv| |] eqn:Ef; try discriminate.
  destruct (extract_rgb br bg bb) as [bv| |] eqn:Eb; try discriminate.
  intros [= <- <-]. cbn [fg_rgb bg_rgb].
  split; [apply wrap_int_range|].
  split; [apply (extract_rgb_range _ _ _ _ Ef) | apply (extract_rgb_range _ _ _ _ Eb)].
Qed.

Lemma fold_insert_lookup (pairs : list (Z * ColorPair)) :
  forall (m : gmap Z ColorPair) (k : Z) (colors : ColorPair),
    fold_left (fun m p => <[fst p := snd p]> m) pairs m !! k = Some colors ->
    m !! k = Some colors \/ (k, colors) ∈ pairs.
Proof.
  induction pairs as [|[k0 c0] pairs IH]; intros m k colors H; [left; exact H|].
  cbn [fold_left fst snd] in H. apply IH in H as [H|H].
  - destruct (decide (k = k0)) as [->|Hne].
    + rewrite lookup_insert_eq in H. injection H as ->. right. apply elem_of_cons. left. reflexivity.
    + rewrite lookup_insert_ne in H by congruence. left. exact H.
  - right. apply elem_of_cons. right. exact H.
Qed.

Lemma fold_insert_keys (pairs : list (Z * ColorPair)) :
  forall (m : gmap Z ColorPair) (k : Z),
    is_Some (m !! k) \/ k ∈ (fst <$> pairs) ->
    is_Some (fold_left (fun m p => <[fst p := snd p]> m) pairs m !! k).
Proof.
  induction pairs as [|[k0 c0] pairs IH]; intros m k H.
  - destruct H as [H|H]; [exact H|]. cbn in H. apply elem_of_nil in H. contradiction.
  - cbn [fold_left fst snd]. apply IH.
    destruct (decide (k = k0)) as [->|Hne].
    + left. rewrite lookup_insert_eq. eauto.
    + destruct H as [H|H].
      * left. rewrite lookup_insert_ne by congruence. exact H.
      * cbn in H. apply elem_of_cons in H as [H|H]; [contradiction|]. right. exact H.
Qed.

Lemma fold_insert_last (pairs : list (Z * ColorPair)) :
  forall (m : gmap Z ColorPair) (k : Z) (colors : ColorPair),
    NoDup (fst <$> pairs) -> (k, colors) ∈ pairs ->
    fold_left (fun m p => <[fst p := snd p]> m) pairs m !! k = Some colors.
Proof.
  induction pairs as [|[k0 c0] pairs IH]; intros m k colors Hnd Hin.
  - apply elem_of_nil in Hin. contradiction.
  - cbn [fmap list_fmap fst] in Hnd. apply NoDup_cons in Hnd as [Hk0 Hnd].
    cbn [fold_left fst snd]. apply elem_of_cons in Hin as [Heq|Hin].
    + injection Heq as -> ->.
      destruct (fold_insert_keys pairs (<[k0 := c0]> m) k0) as [c Hc].
      { left. rewrite lookup_insert_eq. eauto. }
      rewrite Hc. apply fold_insert_lookup in Hc as [Hc|Hc].
      * rewrite lookup_insert_eq in Hc. symmetry. exact Hc.
      * exfalso. apply Hk0. apply list_elem_of_fmap. exists (k0, c). split; [reflexivity | exact Hc].
    + apply IH; assumption.
Qed.

(** X15.  The colour table holds what the dictionary holds.  When
    [parse_color_pairs] returns a table, every entry of the table is the
    parsed form of an item of the Python dictionary, every item's key (as an
    [int]) has an entry, the keys are [int]s and the colours 24-bit values;
    and when no two items have the same key as [int]s, each item is found
    under its key with its own colours. *)
Theorem parse_color_pairs_table (pairs_obj : PyObject) (table : gmap Z ColorPair) :
  parse_color_pairs pairs_obj = Ok table ->
  exists items,
    pairs_obj = PyDict items /\
    (forall k colors, table !! k = Some colors ->
       (exists item, item ∈ items /\ parse_color_pair item = Ok (k, colors)) /\
       INT_MIN <= k <= INT_MAX /\
       0 <= fg_rgb colors < 16777216 /\ 0 <= bg_rgb colors < 16777216) /\
    (forall item, item ∈ items ->
       exists k colors, parse_color_pair item = Ok (k, colors) /\ is_Some (table !! k)) /\
    (forall pairs, parse_all parse_color_pair items = Ok pairs -> NoDup (fst <$> pairs) ->
       forall item k colors, item ∈ items -> parse_color_pair item = Ok (k, colors) ->
                             table !! k = Some colors).
Proof.
  unfold parse_color_pairs. destruct pairs_obj as [| | | | | | |items]; try discriminate.
  destruct (parse_all parse_color_pair items) as [pairs| |] eqn:Ep; try discriminate.
  intros [= <-]. exists items. split; [reflexivity|].
  pose proof Ep as Ep'. apply parse_all_Forall2 in Ep.
  assert (Hfrom : forall p, p ∈ pairs -> exists item, item ∈ items /\ parse_color_pair item = Ok p).
  { intros p Hp. apply list_elem_of_lookup in Hp as [i Hi].
    destruct (Forall2_lookup_r _ _ _ _ _ Ep Hi) as (item & Hitem & Hparse).
    exists item. split; [apply list_elem_of_lookup; eauto | exact Hparse]. }
  assert (Hto : forall item, item ∈ items -> exists p, p ∈ pairs /\ parse_color_pair item = Ok p).
  { intros item Hitem. apply list_elem_of_lookup in Hitem as [i Hi].
    destruct (Forall2_lookup_l _ _ _ _ _ Ep Hi) as (p & Hp & Hparse).
    exists p. split; [apply list_elem_of_lookup; eauto | exact Hparse]. }
  split; [|split].
  - intros k colors H. apply fold_insert_lookup in H as [H|H];
      [rewrite lookup_empty in H; discriminate|].
    destruct (Hfrom _ H) as (item & Hitem & Hparse).
    split; [exists item; split; assumption|].
    apply (parse_color_pair_range item). exact Hparse.
  - intros item Hitem. destruct (Hto item Hitem) as ([k colors] & Hp & Hparse).
    exists k, colors. split; [exact Hparse|].
    apply fold_insert_keys. right. apply list_elem_of_fmap. exists (k, colors).
    split; [reflexivity | exact Hp].
  - intros pairs' Heq Hnd item k colors Hitem Hparse.
    rewrite Ep' in Heq. injection Heq as Heq. subst pairs'.
    destruct (Hto item Hitem) as (p & Hp & Hparse'). rewrite Hparse in Hparse'.
    injection Hparse' as <-. apply fold_insert_last; assumption.
Qed.

Lemma parse_color_pairs_table_witness :
  exists items,
    color_pairs_obj (example_frame 1) = PyDict items /\
    (forall k colors, example_color_pairs !! k = Some colors ->
       (exists item, item ∈ items /\ parse_color_pair item = Ok (k, colors)) /\
       INT_MIN <= k <= INT_MAX /\
       0 <= fg_rgb colors < 16777216 /\ 0 <= bg_rgb colors < 16777216) /\
    (forall item, item ∈ items ->
       exists k colors, parse_color_pair item = Ok (k, colors) /\
                        is_Some (example_color_pairs !! k)) /\
    (forall pairs, parse_all parse_color_pair items = Ok pairs -> NoDup (fst <$> pairs) ->
       forall item k colors, item ∈ items -> parse_color_pair item = Ok (k, colors) ->
                             example_color_pairs !! k = Some colors).
Proof.
  apply (parse_color_pairs_table (color_pairs_obj (example_frame 1)) example_color_pairs).
  vm_compute. reflexivity.
Defined.

(** The last item wins when two keys are the same [int]: 0 and 2^32. *)
Example parse_color_pairs_wraps_keys :
  parse_color_pairs
    (PyDict [(PyLong 0, PyTuple [PyTuple [PyLong 1; PyLong 2; PyLong 3];
                                 PyTuple [PyLong 0; PyLong 0; PyLong 0]]);
             (PyLong 4294967296, PyTuple [PyTuple [PyLong 255; PyLong 255; PyLong 255];
                                          PyTuple [PyLong 0; PyLong 0; PyLong 0]])])
  = Ok example_color_pairs.
Proof. vm_compute. reflexivity. Qed.

(** ** Cells *)




(** ** The frame never leaves its vectors *)

Lemma calculate_dirty_cells_bounds
    (rect : CGRect) (cw ch : Q) (rows cols : Z) (ox oy : Q) :
  0 <= rows -> 0 <= cols ->
  let r := calculate_dirty_cells rect cw ch rows cols ox oy in
  (0 <= start_row r /\ end_row r <= rows) /\ (0 <= start_col r /\ end_col r <= cols).
Proof.
  intros Hrows Hcols. unfold calculate_dirty_cells. cbv zeta.
  set (a := clamp (int_sub rows (static_cast_int (Qceiling _))) rows).
  set (b := clamp (int_sub rows (static_cast_int (Qfloor ((origin_y rect - oy) / ch)))) rows).
  set (c := clamp (static_cast_int (Qfloor _)) cols).
  set (d := clamp (static_cast_int (Qceiling _)) cols).
  assert (Ha : 0 <= a <= rows) by (apply clamp_bounds; exact Hrows).
  assert (Hb : 0 <= b <= rows) by (apply clamp_bounds; exact Hrows).
  assert (Hc : 0 <= c <= cols) by (apply clamp_bounds; exact Hcols).
  assert (Hd : 0 <= d <= cols) by (apply clamp_bounds; exact Hcols).
  destruct (b <? a); cbn [start_row end_row start_col end_col]; lia.
Qed.

Lemma render_marked_text_in_range (os : Native) (text : list Z) (row col : Z)
    (base_font : Z) (cc : ColorCache.t) :
  fst (render_marked_text os text row col base_font cc) <> OutOfRange.
Proof.
  unfold render_marked_text.
  destruct (bool_decide (text = [])); [discriminate|].
  destruct (CFStringCreateWithCString os text); [|discriminate].
  destruct (negb _); [discriminate|].
  pose proof (get_color_in_range os 60 60 60 1 cc) as H1.
  destruct (ColorCache.get_color os 60 60 60 1 cc) as [[c1|w1|] cc1]; cbn [fst] in *;
    [|discriminate|contradiction].
  pose proof (get_color_in_range os 100 100 100 1 cc1) as H2.
  destruct (ColorCache.get_color os 100 100 100 1 cc1) as [[c2|w2|] cc2]; cbn [fst] in *;
    [|discriminate|contradiction].
  pose proof (get_color_in_range os 255 255 255 1 cc2) as H3.
  destruct (ColorCache.get_color os 255 255 255 1 cc2) as [[c3|w3|] cc3]; cbn [fst] in *;
    [discriminate|discriminate|contradiction].
Qed.

Lemma render_pipeline_in_range (os : Native) (a : FrameArgs) (dirty_rect : CGRect)
    (cs : Caches) (base_font : Z) :
  0 <= arg_rows a -> 0 <= arg_cols a ->
  fst (fst (render_pipeline os a dirty_rect cs base_font)) <> OutOfRange.
Proof.
  intros Hrows Hcols. unfold render_pipeline.
  pose proof (parse_grid_in_range (grid_obj a) (arg_rows a) (arg_cols a)) as Hg.
  destruct (parse_grid (grid_obj a) (arg_rows a) (arg_cols a)) as [grid|what|] eqn:Eg;
    [|discriminate|contradiction].
  pose proof (parse_color_pairs_in_range (color_pairs_obj a)) as Ht.
  destruct (parse_color_pairs (color_pairs_obj a)) as [table|what|] eqn:Et;
    [|discriminate|contradiction].
  pose proof (parse_grid_shape _ _ _ _ Eg) as Hshape.
  cbv zeta.
  destruct (calculate_dirty_cells_bounds dirty_rect (arg_char_width a) (arg_char_height a)
              (arg_rows a) (arg_cols a) (arg_offset_x a) (arg_offset_y a) Hrows Hcols)
    as [Hr Hc].
  set (dirty := calculate_dirty_cells dirty_rect (arg_char_width a) (arg_char_height a)
                  (arg_rows a) (arg_cols a) (arg_offset_x a) (arg_offset_y a)) in *.
  pose proof (outcome_render_backgrounds grid table dirty (arg_char_width a) (arg_char_height a)
                (arg_rows a) (arg_cols a) (arg_offset_x a) (arg_offset_y a) Hshape Hr Hc
                RectangleBatcher_new) as Hb.
  destruct (render_backgrounds grid table dirty (arg_char_width a) (arg_char_height a)
              (arg_rows a) (arg_cols a) (arg_offset_x a) (arg_offset_y a) RectangleBatcher_new)
    as [[u|what|] batcher]; cbn [fst] in Hb; [|discriminate|contradiction].
  match goal with |- context [render_characters os grid table dirty ?cw ?ch ?r ?c ?ox ?oy ?fa ?st] =>
    pose proof (outcome_render_characters os grid table dirty cw ch r c ox oy fa Hshape Hr Hc st)
      as Hch;
    destruct (render_characters os grid table dirty cw ch r c ox oy fa st) as [[u'|what|] st']
  end; cbn [fst] in Hch; [|discriminate|contradiction].
  match goal with |- context [render_marked_text ?o ?t ?r ?c ?b ?cc] =>
    pose proof (render_marked_text_in_range o t r c b cc) as Hm;
    destruct (render_marked_text o t r c b cc) as [[ops|what|] cc']
  end; cbn [fst] in *; [discriminate | discriminate | contradiction].
Qed.

(** X17.  [render_frame] never reads outside its vectors.  Whatever the
    arguments, the renderer's state and the native layer's answers, the call
    ends in a return or in a Python exception: none of the accesses
    [grid[row][col]] of the two passes is out of range, because the frame is
    rendered only after the grid's shape has been checked against [rows] and
    [cols] and the dirty region has been clamped to them. *)
Theorem render_frame_never_out_of_range (os : Native) (a : FrameArgs) (g : Renderer) :
  fst (fst (render_frame os a g)) <> Undefined.
Proof.
  unfold render_frame.
  destruct (context_ptr a =? 0); [discriminate|].
  destruct (validate_frame a) as [[exc message]|rect] eqn:Ev; [discriminate|].
  assert (Hv : valid_dimensions a).
  { apply (proj1 (validate_frame_spec a)). eauto. }
  destruct Hv as (Hr & Hc & _).
  pose proof (initialize_caches_result os (font_names_obj a) (font_size a) g) as Hi.
  destruct (initialize_caches os (font_names_obj a) (font_size a) g) as [[u|what|] g1];
    [|discriminate|contradiction].
  destruct Hi as [[cs base_font] ->].
  pose proof (render_pipeline_in_range os a rect cs base_font ltac:(lia) ltac:(lia)) as Hp.
  destruct (render_pipeline os a rect cs base_font) as [[r cs'] drawn]. cbn [fst] in *.
  destruct r; [discriminate | discriminate | contradiction].
Qed.

(** ** Font selection *)

Section FontIndex.

Variable os : Native.

(** The font [cascade_lookup] tries for a descriptor. *)
Lemma cascade_lookup_range (descriptors : list Z) :
  forall (i : Z) (chars : list Z) (base_font font_attributes : Z),
    let r := cascade_lookup os descriptors i chars base_font font_attributes in
    r = -2 \/ i <= r < i + Z.of_nat (length descriptors).
Proof.
  induction descriptors as [|d ds IH]; intros i chars base_font fa; cbv zeta.
  - left. reflexivity.
  - cbn [cascade_lookup length].
    destruct (CTFontCreateWithFontDescriptor os d (CTFontGetSize os base_font)) as [font|].
    + destruct (CTFontGetGlyphsForCharacters os _ chars); [right; lia|].
      destruct (IH (i + 1) chars base_font fa) as [H|H]; [left; exact H | right; lia].
    + destruct (IH (i + 1) chars base_font fa) as [H|H]; [left; exact H | right; lia].
Qed.

(** The font tried for slot [d]: the one created from the descriptor, or
    its bold copy when the bold bit is set and the copy can be made. *)
Lemma cascade_lookup_found (descriptors : list Z) :
  forall (i : Z) (chars : list Z) (base_font font_attributes r : Z),
    cascade_lookup os descriptors i chars base_font font_attributes = r -> r <> -2 -> 0 <= i ->
    exists d font,
      descriptors !! Z.to_nat (r - i) = Some d /\
      CTFontCreateWithFontDescriptor os d (CTFontGetSize os base_font) = Some font /\
      (CTFontGetGlyphsForCharacters os font chars = true \/
       (Z.land font_attributes 1 <> 0 /\
        exists bold, CTFontCreateCopyWithSymbolicTraits os font = Some bold /\
                     CTFontGetGlyphsForCharacters os bold chars = true)).
Proof.
  induction descriptors as [|d ds IH]; intros i chars base_font fa r Hr Hne Hi.
  - cbn in Hr. congruence.
  - cbn [cascade_lookup] in Hr.
    assert (Hrest : cascade_lookup os ds (i + 1) chars base_font fa = r ->
              exists d0 font,
                (d :: ds) !! Z.to_nat (r - i) = Some d0 /\
                CTFontCreateWithFontDescriptor os d0 (CTFontGetSize os base_font) = Some font /\
                (CTFontGetGlyphsForCharacters os font chars = true \/
                 (Z.land fa 1 <> 0 /\
                  exists bold, CTFontCreateCopyWithSymbolicTraits os font = Some bold /\
                               CTFontGetGlyphsForCharacters os bold chars = true))).
    { intros Hr'. destruct (IH (i + 1) chars base_font fa r Hr' Hne ltac:(lia))
        as (d0 & font & Hd & Hf & Hg).
      exists d0, font. split; [|split; assumption].
      pose proof (cascade_lookup_range ds (i + 1) chars base_font fa) as Hrange.
      cbv zeta in Hrange. rewrite Hr' in Hrange. destruct Hrange as [?|Hrange]; [contradiction|].
      replace (Z.to_nat (r - i)) with (S (Z.to_nat (r - (i + 1)))) by lia. exact Hd. }
    destruct (CTFontCreateWithFontDescriptor os d (CTFontGetSize os base_font)) as [font|] eqn:Ef;
      [|apply Hrest; exact Hr].
    destruct (Z.land fa 1 =? 0) eqn:Ebit.
    + destruct (CTFontGetGlyphsForCharacters os font chars) eqn:Eg; [|apply Hrest; exact Hr].
      subst r. exists d, font. replace (i - i) with 0 by lia.
      split; [reflexivity|]. split; [exact Ef | left; exact Eg].
    + apply Z.eqb_neq in Ebit.
      destruct (CTFontCreateCopyWithSymbolicTraits os font) as [bold|] eqn:Eb.
      * destruct (CTFontGetGlyphsForCharacters os bold chars) eqn:Eg; [|apply Hrest; exact Hr].
        subst r. exists d, font. replace (i - i) with 0 by lia.
        split; [reflexivity|]. split; [exact Ef|]. right. split; [exact Ebit|]. eauto.
      * destruct (CTFontGetGlyphsForCharacters os font chars) eqn:Eg; [|apply Hrest; exact Hr].
        subst r. exists d, font. replace (i - i) with 0 by lia.
        split; [reflexivity|]. split; [exact Ef | left; exact Eg].
Qed.

(** X18.  What the font index means.  [get_font_index_for_character]
    returns -1 exactly when the text is not empty and the primary font has
    glyphs for it; it returns -2 for an empty text; any other result is the
    position, in the primary font's cascade list, of a descriptor whose font
    (or the bold copy of it, when the bold bit is set) has the glyphs. *)
Theorem get_font_index_for_character_meaning (chars : list Z) (base_font font_attributes : Z) :
  let index := get_font_index_for_character os chars base_font font_attributes in
  (index = -1 <-> chars <> [] /\ CTFontGetGlyphsForCharacters os base_font chars = true) /\
  (chars = [] -> index = -2) /\
  (index <> -1 -> index <> -2 ->
   exists descriptor cascade_list d font,
     CTFontCopyFontDescriptor os base_font = Some descriptor /\
     CTFontDescriptorCopyAttribute os descriptor = Some cascade_list /\
     0 <= index < Z.of_nat (length cascade_list) /\
     cascade_list !! Z.to_nat index = Some d /\
     CTFontCreateWithFontDescriptor os d (CTFontGetSize os base_font) = Some font /\
     (CTFontGetGlyphsForCharacters os font chars = true \/
      (Z.land font_attributes 1 <> 0 /\
       exists bold, CTFontCreateCopyWithSymbolicTraits os font = Some bold /\
                    CTFontGetGlyphsForCharacters os bold chars = true))).
Proof.
  cbv zeta. unfold get_font_index_for_character.
  destruct (bool_decide (chars = [])) eqn:Ee.
  { apply bool_decide_eq_true in Ee. split; [|split].
    - split; [discriminate | intros [H _]; contradiction].
    - reflexivity.
    - intros _ H. contradiction. }
  apply bool_decide_eq_false in Ee.
  destruct (CTFontGetGlyphsForCharacters os base_font chars) eqn:Eg.
  { split; [|split].
    - split; [intros _; split; [exact Ee | reflexivity] | reflexivity].
    - intros H. contradiction.
    - intros H. contradiction. }
  assert (Hcascade : forall ds, cascade_lookup os ds 0 chars base_font font_attributes <> -1).
  { intros ds H.
    pose proof (cascade_lookup_range ds 0 chars base_font font_attributes) as Hr.
    cbv zeta in Hr. rewrite H in Hr. lia. }
  split; [|split].
  - split; [|intros [_ H]; discriminate H].
    destruct (CTFontCopyFontDescriptor os base_font) as [descriptor|]; [|discriminate].
    destruct (CTFontDescriptorCopyAttribute os descriptor) as [cascade_list|]; [|discriminate].
    intros H. exfalso. apply (Hcascade _ H).
  - intros H. contradiction.
  - destruct (CTFontCopyFontDescriptor os base_font) as [descriptor|] eqn:Ed;
      [|intros _ H; contradiction].
    destruct (CTFontDescriptorCopyAttribute os descriptor) as [cascade_list|] eqn:El;
      [|intros _ H; contradiction].
    intros _ Hne.
    pose proof (cascade_lookup_range cascade_list 0 chars base_font font_attributes) as Hr.
    cbv zeta in Hr. destruct Hr as [Hr|Hr]; [contradiction|].
    destruct (cascade_lookup_found cascade_list 0 chars base_font font_attributes _ eq_refl Hne
                ltac:(lia)) as (d & font & Hd & Hf & Hgl).
    rewrite Z.sub_0_r in Hd.
    exists descriptor, cascade_list, d, font.
    split; [reflexivity|]. split; [exact El|]. split; [lia|].
    split; [exact Hd|]. split; assumption.
Qed.

End FontIndex.

(** In the example layer the primary font 100 renders ASCII, the first
    cascade font everything below U+3000 and the second everything. *)
Example get_font_index_examples :
  get_font_index_for_character (example_native 7) [65] 100 0 = -1 /\
  get_font_index_for_character (example_native 7) [233] 100 0 = 0 /\
  get_font_index_for_character (example_native 7) [12354] 100 0 = 1 /\
  get_font_index_for_character (example_native 7) [] 100 0 = -2 /\
  get_font_index_for_character failing_native [65] 100 0 = -2.
Proof. repeat split; vm_compute; reflexivity. Qed.

(** ** The order of painting *)

Section Steps.

Context {S : Type} (R : S -> S -> Prop).
Hypothesis R_refl : forall s, R s s.
Hypothesis R_trans : forall s1 s2 s3, R s1 s2 -> R s2 s3 -> R s1 s3.

Lemma steps_ret {A : Type} (a : A) : steps R (mret a : M S A).
Proof. intros s. apply R_refl. Qed.

Lemma steps_get_state : steps R (get_state : M S S).
Proof. intros s. apply R_refl. Qed.

Lemma steps_bind {A B : Type} (m : M S A) (f : A -> M S B) :
  steps R m -> (forall a, steps R (f a)) -> steps R (m ≫= f).
Proof.
  intros Hm Hf s. rewrite bind_unfold. specialize (Hm s).
  destruct (m s) as [[a|what|] s1]; cbn [snd] in *; [|exact Hm|exact Hm].
  apply (R_trans _ _ _ Hm). apply Hf.
Qed.

Lemma steps_grid_at (grid : list (list Cell)) (row col : Z) :
  steps R (grid_at grid row col : M S Cell).
Proof. intros s. unfold grid_at. destruct (grid_cell grid row col); apply R_refl. Qed.

Lemma steps_for_range (stop : Z) (body : Z -> M S Z) (fuel : nat) :
  (forall j, steps R (body j)) -> forall i, steps R (for_range fuel i stop body).
Proof.
  intros Hbody. induction fuel as [|fuel IH]; intros i; cbn [for_range].
  - apply steps_ret.
  - destruct (i <? stop); [|apply steps_ret].
    apply steps_bind; [apply Hbody|]. intros skip. apply IH.
Qed.

End Steps.

Lemma draws_glyphs_refl (st : CharPass) : draws_glyphs st st.
Proof. exists []. split; [rewrite app_nil_r; reflexivity | constructor]. Qed.

Lemma draws_glyphs_trans (s1 s2 s3 : CharPass) :
  draws_glyphs s1 s2 -> draws_glyphs s2 s3 -> draws_glyphs s1 s3.
Proof.
  intros (ops1 & E1 & H1) (ops2 & E2 & H2). exists (ops1 ++ ops2).
  split; [rewrite E2, E1, app_assoc; reflexivity | apply Forall_app; split; assumption].
Qed.

Section PaintOrder.

Variable os : Native.
Variable grid : list (list Cell).
Variable color_pairs : gmap Z ColorPair.
Variable dirty_cells : CellRect.
Variables char_width char_height : Q.
Variables rows cols : Z.
Variables offset_x offset_y : Q.
Variable font_ascent : Q.

Local Abbreviation bind_glyphs := (steps_bind draws_glyphs draws_glyphs_trans).
Local Abbreviation ret_glyphs := (steps_ret draws_glyphs draws_glyphs_refl).

Lemma steps_lookup_attributes (fa rgb : Z) (ul : bool) :
  steps draws_glyphs (lookup_attributes os fa rgb ul).
Proof.
  intros st. unfold lookup_attributes.
  destruct (get_attributes os fa rgb ul (cp_caches st)) as [r caches]. cbn.
  exists []. split; [cbn; rewrite app_nil_r; reflexivity | constructor].
Qed.

Lemma steps_set_current_batch (b : option CharacterBatch) :
  steps draws_glyphs (set_current_batch b).
Proof. intros st. exists []. split; [cbn; rewrite app_nil_r; reflexivity | constructor]. Qed.

Lemma steps_draw_character_batch (batch : CharacterBatch) :
  steps draws_glyphs (draw_character_batch os char_width char_height font_ascent batch).
Proof.
  unfold draw_character_batch. apply bind_glyphs; [apply steps_lookup_attributes|].
  intros attrs. destruct (bool_decide _); [apply ret_glyphs|].
  destruct (font_to_use os batch (dict_font attrs)) as [font allocated].
  destruct (negb _); [apply ret_glyphs|].
  intros st. eexists. split; [reflexivity|].
  constructor; [exact I|]. destruct (cb_underline batch); repeat constructor.
Qed.

Lemma steps_flush_batch :
  steps draws_glyphs (flush_batch os char_width char_height font_ascent).
Proof.
  unfold flush_batch. apply bind_glyphs; [apply steps_get_state; apply draws_glyphs_refl|].
  intros st. destruct (cp_current_batch st); [|apply ret_glyphs].
  apply bind_glyphs; [apply steps_draw_character_batch|].
  intros _. apply steps_set_current_batch.
Qed.

Lemma steps_character_cell (row col : Z) :
  steps draws_glyphs
    (character_cell os grid color_pairs dirty_cells char_width char_height rows cols
       offset_x offset_y font_ascent row col).
Proof.
  assert (Hflush : forall k : Z,
            steps draws_glyphs
              (flush_batch os char_width char_height font_ascent;; mret k)).
  { intros k. apply bind_glyphs; [apply steps_flush_batch | intros _; apply ret_glyphs]. }
  unfold character_cell.
  apply bind_glyphs; [apply steps_grid_at; apply draws_glyphs_refl|]. intros cell.
  destruct (bool_decide _); [apply Hflush|].
  destruct (_ && _); [apply Hflush|].
  apply bind_glyphs.
  { unfold combine_variation_selector. destruct (_ && _); [|apply ret_glyphs].
    apply bind_glyphs; [apply steps_grid_at; apply draws_glyphs_refl|].
    intros next. destruct (single_unit _ _); apply ret_glyphs. }
  intros combined. destruct (color_pairs !! _); [|apply Hflush].
  apply bind_glyphs; [apply steps_lookup_attributes|]. intros attrs.
  destruct (_ =? -2); [apply Hflush|].
  apply bind_glyphs; [apply steps_get_state; apply draws_glyphs_refl|]. intros st.
  destruct (cp_current_batch st) as [batch|].
  - destruct (can_extend _ _ _ _ _ _ _ _).
    + apply bind_glyphs; [apply steps_set_current_batch | intros _; apply ret_glyphs].
    + apply bind_glyphs; [apply steps_draw_character_batch|]. intros _.
      apply bind_glyphs; [apply steps_set_current_batch | intros _; apply ret_glyphs].
  - apply bind_glyphs; [apply steps_set_current_batch | intros _; apply ret_glyphs].
Qed.

Lemma steps_render_characters :
  steps draws_glyphs
    (render_characters os grid color_pairs dirty_cells char_width char_height rows cols
       offset_x offset_y font_ascent).
Proof.
  unfold render_characters. apply bind_glyphs; [|intros _; apply steps_flush_batch].
  apply (steps_for_range draws_glyphs draws_glyphs_refl draws_glyphs_trans). intros row.
  unfold character_row. apply bind_glyphs.
  - apply (steps_for_range draws_glyphs draws_glyphs_refl draws_glyphs_trans). intros col.
    apply steps_character_cell.
  - intros _. apply bind_glyphs; [apply steps_flush_batch | intros _; apply ret_glyphs].
Qed.

(** When the character pass returns, no run is left open: what it collected
    has been handed to [draw_character_batch]. *)
Lemma render_characters_closes (st st' : CharPass) :
  render_characters os grid color_pairs dirty_cells char_width char_height rows cols
    offset_x offset_y font_ascent st = (Ok tt, st') ->
  cp_current_batch st' = None.
Proof.
  unfold render_characters. rewrite bind_unfold.
  destruct (for_range _ _ _ _ st) as [[[]|what|] st1]; try discriminate.
  apply flush_batch_closes.
Qed.

End PaintOrder.

Lemma draw_batched_backgrounds_ops (batcher : RectangleBatcher) :
  Forall background_op (fst (draw_batched_backgrounds batcher)).
Proof.
  unfold draw_batched_backgrounds, get_batches. cbn [fst].
  induction (batches_ (finish_row batcher)) as [|b bs IH]; constructor; [exact I | exact IH].
Qed.

(** X19.  The order of painting.  Whatever [render_frame] has drawn when it
    ends -- by returning or by raising -- is, in this order: the background
    rectangles, then the glyph runs with their underlines, then the cursor,
    then the marked text.  The cursor is drawn only if [cursor_visible], as
    one rectangle of one cell's size at [cursor_col * char_width + offset_x]
    and [ttk_to_cg_y (cursor_row) + offset_y], whether or not that position
    lies inside the grid. *)
Theorem render_frame_paint_order (os : Native) (a : FrameArgs) (g : Renderer) :
  exists backgrounds glyphs cursor marked,
    snd (render_frame os a g) = backgrounds ++ glyphs ++ cursor ++ marked /\
    Forall background_op backgrounds /\ Forall glyph_op glyphs /\
    (cursor = [] \/
     cursor_visible a = true /\
     cursor = [FillCursor (inject_Z (cursor_col a) * arg_char_width a + arg_offset_x a)%Q
                 (ttk_to_cg_y (cursor_row a) (arg_rows a) (arg_char_height a)
                  + arg_offset_y a)%Q
                 (arg_char_width a) (arg_char_height a)]) /\
    (marked = [] \/ marked = [DrawMarkedText (marked_text a) (cursor_row a) (cursor_col a)]).
Proof.
  assert (Hnone : exists backgrounds glyphs cursor marked : list DrawOp,
            [] = backgrounds ++ glyphs ++ cursor ++ marked /\
            Forall background_op backgrounds /\ Forall glyph_op glyphs /\
            (cursor = [] \/
             cursor_visible a = true /\
             cursor = [FillCursor (inject_Z (cursor_col a) * arg_char_width a + arg_offset_x a)%Q
                         (ttk_to_cg_y (cursor_row a) (arg_rows a) (arg_char_height a)
                          + arg_offset_y a)%Q
                         (arg_char_width a) (arg_char_height a)]) /\
            (marked = [] \/
             marked = [DrawMarkedText (marked_text a) (cursor_row a) (cursor_col a)])).
  { exists [], [], [], []. split; [reflexivity|]. split; [constructor|]. split; [constructor|].
    split; left; reflexivity. }
  unfold render_frame.
  destruct (context_ptr a =? 0); [exact Hnone|].
  destruct (validate_frame a) as [[exc message]|rect]; [exact Hnone|].
  destruct (initialize_caches os (font_names_obj a) (font_size a) g) as [[u|what|] g1];
    [|exact Hnone|exact Hnone].
  destruct (caches g1) as [[cs base_font]|]; [|exact Hnone].
  unfold render_pipeline.
  destruct (parse_grid (grid_obj a) (arg_rows a) (arg_cols a)) as [grid|what|];
    [|exact Hnone|exact Hnone].
  destruct (parse_color_pairs (color_pairs_obj a)) as [table|what|];
    [|exact Hnone|exact Hnone].
  cbv zeta.
  destruct (render_backgrounds _ _ _ _ _ _ _ _ _ _) as [[u'|what|] batcher];
    [|exact Hnone|exact Hnone].
  pose proof (draw_batched_backgrounds_ops batcher) as Hbg.
  set (backgrounds := fst (draw_batched_backgrounds batcher)) in *.
  match goal with |- context [render_characters os grid table ?d ?cw ?ch ?r ?c ?ox ?oy ?fa ?st] =>
    pose proof (steps_render_characters os grid table d cw ch r c ox oy fa st) as Hch;
    destruct (render_characters os grid table d cw ch r c ox oy fa st) as [res st']
  end.
  destruct Hch as (glyphs & Hdrawn & Hglyphs). cbn [snd cp_drawn] in Hdrawn.
  assert (Hpart : exists backgrounds0 glyphs0 cursor marked : list DrawOp,
            cp_drawn st' = backgrounds0 ++ glyphs0 ++ cursor ++ marked /\
            Forall background_op backgrounds0 /\ Forall glyph_op glyphs0 /\
            (cursor = [] \/
             cursor_visible a = true /\
             cursor = [FillCursor (inject_Z (cursor_col a) * arg_char_width a + arg_offset_x a)%Q
                         (ttk_to_cg_y (cursor_row a) (arg_rows a) (arg_char_height a)
                          + arg_offset_y a)%Q
                         (arg_char_width a) (arg_char_height a)]) /\
            (marked = [] \/
             marked = [DrawMarkedText (marked_text a) (cursor_row a) (cursor_col a)])).
  { exists backgrounds, glyphs, [], []. rewrite !app_nil_r.
    split; [exact Hdrawn|]. split; [exact Hbg|]. split; [exact Hglyphs|].
    split; left; reflexivity. }
  destruct res as [u''|what|]; [|exact Hpart|exact Hpart].
  destruct (render_marked_text os (marked_text a) (cursor_row a) (cursor_col a) base_font
              (g_color_cache (cp_caches st'))) as [r cc] eqn:Em.
  cbn [snd].
  exists backgrounds, glyphs,
    (if cursor_visible a
     then [FillCursor (inject_Z (cursor_col a) * arg_char_width a + arg_offset_x a)%Q
             (ttk_to_cg_y (cursor_row a) (arg_rows a) (arg_char_height a) + arg_offset_y a)%Q
             (arg_char_width a) (arg_char_height a)]
     else []),
    (match r with Ok ops => ops | _ => [] end).
  split; [rewrite Hdrawn, <- app_assoc; reflexivity|].
  split; [exact Hbg|]. split; [exact Hglyphs|]. split.
  - destruct (cursor_visible a); [right; split; reflexivity | left; reflexivity].
  - destruct r as [ops|what|]; [|left; reflexivity|left; reflexivity].
    unfold render_marked_text in Em.
    destruct (bool_decide (marked_text a = [])); [injection Em as <- _; left; reflexivity|].
    destruct (CFStringCreateWithCString os (marked_text a));
      [|injection Em as <- _; left; reflexivity].
    destruct (negb _); [injection Em as <- _; left; reflexivity|].
    destruct (ColorCache.get_color os 60 60 60 1 _) as [[c1|w1|] cc1]; try discriminate.
    destruct (ColorCache.get_color os 100 100 100 1 cc1) as [[c2|w2|] cc2]; try discriminate.
    destruct (ColorCache.get_color os 255 255 255 1 cc2) as [[c3|w3|] cc3]; try discriminate.
    injection Em as <- _. right. reflexivity.
Qed.

(** ** Cache initialisation *)

Lemma Qabs_self_sub (q : Q) : (Qabs (q - q) <= eps_0_01)%Q.
Proof.
  assert (E : (q - q == 0)%Q) by ring. rewrite E. cbn. unfold eps_0_01. discriminate.
Qed.

(** X20.  [initialize_caches] builds the caches once per font configuration.
    The configuration is the list of font names as the code keeps them --
    the UTF-8 bytes of each string up to its first NUL, strings without a
    UTF-8 form and other items left out, "Menlo" if nothing is left -- and the
    size.  After a call that returned, a call with the same size and with
    names that give the same list returns at once, asks the native layer
    nothing and keeps every cached object; the same holds for any renderer
    that has caches for this list and a size within 0.01.  A call that has to
    build -- no caches yet, another list of names, or a size that differs by
    0.02 or more, which is above 0.01 however the difference is rounded --
    either leaves new, empty caches on the new base font (colour capacity
    256, counters 0) or throws and leaves no caches at all, so that the next
    call builds again. *)
Theorem initialize_caches_once_per_configuration
    (os : Native) (names : PyObject) (size : Q) (g : Renderer) :
  let r := initialize_caches os names size g in
  (fst r = Ok tt ->
   forall os' names',
     font_names_of names' = font_names_of names ->
     initialize_caches os' names' size (snd r) = (Ok tt, snd r)) /\
  (is_Some (caches g) -> last_font_names g = font_names_of names ->
   (Qabs (last_font_size g - size) <= eps_0_01)%Q ->
   r = (Ok tt, g)) /\
  (caches g = None \/ last_font_names g <> font_names_of names \/
   (1 # 50 <= Qabs (last_font_size g - size))%Q ->
   fst r = Ok tt ->
   exists base_font,
     create_base_font os (font_names_of names) size = Some base_font /\
     snd r = mkRenderer
               (Some (mkCaches (ColorCache.new 256) (FontCache.new (Some base_font))
                        AttributeDictCache.new, base_font))
               (font_names_of names) size) /\
  (forall what, fst r = Throw what -> caches (snd r) = None).
Proof.
  cbv zeta.
  assert (Hstay : forall (g1 : Renderer) (names' : PyObject),
            is_Some (caches g1) -> last_font_names g1 = font_names_of names' ->
            (Qabs (last_font_size g1 - size) <= eps_0_01)%Q ->
            forall os', initialize_caches os' names' size g1 = (Ok tt, g1)).
  { intros g1 names' Hc Hn Hs os'. unfold initialize_caches. cbv zeta.
    rewrite (bool_decide_eq_true_2 _ Hc), (bool_decide_eq_true_2 _ Hn).
    destruct (Qltb eps_0_01 (Qabs (last_font_size g1 - size))) eqn:E; [|reflexivity].
    apply Qltb_lt in E. exfalso. apply (Qlt_not_le _ _ E Hs). }
  split; [|split; [intros Hc Hn Hs; apply Hstay; assumption|]].
  - destruct (initialize_caches os names size g) as [res g1] eqn:Einit. cbn [fst snd].
    intros -> os' names' Hsame. unfold initialize_caches in Einit. cbv zeta in Einit.
    destruct (negb (_ || _ || _)) eqn:Eneed.
    + injection Einit as <-.
      apply negb_true_iff in Eneed. apply orb_false_iff in Eneed as [Eneed Es].
      apply orb_false_iff in Eneed as [Ec En].
      apply negb_false_iff in Ec, En. apply bool_decide_eq_true in Ec, En.
      apply Hstay; [exact Ec | congruence|].
      apply Qnot_lt_le. intros H. apply Qltb_lt in H. congruence.
    + destruct (CFStringCreateWithCString os _) as [name|]; [|discriminate].
      destruct (create_base_font os (font_names_of names) size) as [base_font|];
        [|discriminate].
      injection Einit as <-.
      apply Hstay; cbn; [eauto | congruence | apply Qabs_self_sub].
  - destruct (initialize_caches os names size g) as [res g1] eqn:Einit. cbn [fst snd].
    unfold initialize_caches in Einit. cbv zeta in Einit.
    destruct (negb (_ || _ || _)) eqn:Eneed.
    + injection Einit as <- <-. split; [|intros what H; discriminate H].
      intros Hbuild _. exfalso.
      apply negb_true_iff in Eneed. apply orb_false_iff in Eneed as [Eneed Es].
      apply orb_false_iff in Eneed as [Ec En].
      apply negb_false_iff in Ec, En. apply bool_decide_eq_true in Ec, En.
      destruct Hbuild as [H|[H|H]].
      * rewrite H in Ec. destruct Ec as [x Hx]. discriminate Hx.
      * contradiction.
      * assert (Hlt : (eps_0_01 < Qabs (last_font_size g - size))%Q).
        { eapply Qlt_le_trans; [|exact H]. reflexivity. }
        apply Qltb_lt in Hlt. congruence.
    + destruct (CFStringCreateWithCString os _) as [name|].
      * destruct (create_base_font os (font_names_of names) size) as [base_font|] eqn:Eb.
        -- injection Einit as <- <-. split; [|intros what H; discriminate H].
           intros _ _. exists base_font. split; reflexivity.
        -- injection Einit as <- <-. split; [intros _ H; discriminate H|].
           intros what _. reflexivity.
      * injection Einit as <- <-. split; [intros _ H; discriminate H|].
        intros what _. reflexivity.
Qed.

(** The first frame builds the caches for "Menlo" at size 12; asking again
    for the same configuration changes nothing, and neither does asking for
    the names "Menlo\0X", 3 and a lone surrogate, which give the same list;
    asking for another name (its bytes are kept) or for size 14 builds
    anew. *)
Example initialize_caches_example :
  let g1 := snd (initialize_caches (example_native 7) PyNone 12 no_renderer) in
  g1 = mkRenderer (Some (fresh_caches, 100)) [[77; 101; 110; 108; 111]] 12 /\
  initialize_caches failing_native PyNone 12 g1 = (Ok tt, g1) /\
  initialize_caches failing_native
    (PyList [PyUnicode [77; 101; 110; 108; 111; 0; 88]; PyLong 3; PyUnicode [55296]]) 12 g1
  = (Ok tt, g1) /\
  initialize_caches failing_native (PyUnicode [77; 101; 110; 108; 246]) 12 g1
  = (Throw "Failed to create font name CFString",
     mkRenderer None [[77; 101; 110; 108; 195; 182]] 12) /\
  initialize_caches failing_native PyNone 14 g1
  = (Throw "Failed to create font name CFString",
     mkRenderer None [[77; 101; 110; 108; 111]] 14).
Proof. cbv zeta. repeat split; vm_compute; reflexivity. Qed.

(** ** When a frame succeeds *)

Section NeverThrows.

Context {S : Type} (I : S -> Prop).

Lemma never_throws_ret {A : Type} (a : A) : never_throws I (mret a : M S A).
Proof. intros s Hs. split; [exact Hs | discriminate]. Qed.

Lemma never_throws_get_state : never_throws I (get_state : M S S).
Proof. intros s Hs. split; [exact Hs | discriminate]. Qed.

Lemma never_throws_grid_at (grid : list (list Cell)) (row col : Z) :
  never_throws I (grid_at grid row col : M S Cell).
Proof.
  intros s Hs. unfold grid_at.
  destruct (grid_cell grid row col); (split; [exact Hs | discriminate]).
Qed.

Lemma never_throws_bind {A B : Type} (m : M S A) (f : A -> M S B) :
  never_throws I m -> (forall a, never_throws I (f a)) -> never_throws I (m ≫= f).
Proof.
  intros Hm Hf s Hs. rewrite bind_unfold. destruct (Hm s Hs) as [H1 H2].
  destruct (m s) as [[a|what|] s1]; cbn [fst snd] in *.
  - apply Hf. exact H1.
  - exfalso. apply (H2 what). reflexivity.
  - split; [exact H1 | discriminate].
Qed.

Lemma never_throws_for_range (stop : Z) (body : Z -> M S Z) (fuel : nat) :
  (forall j, never_throws I (body j)) -> forall i, never_throws I (for_range fuel i stop body).
Proof.
  intros Hbody. induction fuel as [|fuel IH]; intros i; cbn [for_range].
  - apply never_throws_ret.
  - destruct (i <? stop); [|apply never_throws_ret].
    apply never_throws_bind; [apply Hbody|]. intros skip. apply IH.
Qed.

End NeverThrows.

Lemma get_font_succeeds (os : Native) (attributes : Z) (f : FontCache.t) :
  fonts_cached f ->
  is_Some (fst (FontCache.get_font os attributes f)) /\
  fonts_cached (snd (FontCache.get_font os attributes f)).
Proof.
  intros [[base Hbase] Hcache]. unfold FontCache.get_font.
  destruct (FontCache.cache_ f !! attributes) as [font|] eqn:E; cbn [fst snd].
  - split; [|split; [eauto | exact Hcache]].
    destruct font as [font|]; [eauto|]. exfalso. apply (Hcache attributes E).
  - rewrite Hbase.
    assert (Hfont : is_Some (if Z.land attributes 1 =? 0 then Some base
                             else match CTFontCreateCopyWithSymbolicTraits os base with
                                  | Some bold_font => Some bold_font
                                  | None => Some base
                                  end)).
    { destruct (Z.land attributes 1 =? 0); [eauto|].
      destruct (CTFontCreateCopyWithSymbolicTraits os base); eauto. }
    split; [exact Hfont|]. split; [cbn; eauto|].
    intros k. cbn [FontCache.cache_]. destruct (decide (k = attributes)) as [->|Hne].
    + rewrite lookup_insert_eq. destruct Hfont as [x ->]. discriminate.
    + rewrite lookup_insert_ne by congruence. apply Hcache.
Qed.

Lemma get_color_succeeds (os : Native) (r g b : Z) (alpha : Q) (c : ColorCache.t) :
  native_creates os -> is_Some (match fst (ColorCache.get_color os r g b alpha c) with
                                | Ok color => Some color
                                | _ => None
                                end).
Proof.
  intros ([space Hspace] & Hcolor & _). unfold ColorCache.get_color. cbv zeta.
  destruct (ColorCache.cache_ c !! ColorCache.pack_key r g b); cbn [fst]; [eauto|].
  rewrite Hspace.
  destruct (Hcolor space (inject_Z r / 255, inject_Z g / 255, inject_Z b / 255, alpha)%Q)
    as [color ->].
  cbn [fst]. eauto.
Qed.

Lemma get_attributes_succeeds (os : Native) (fa rgb : Z) (ul : bool) (s : Caches) :
  native_creates os -> fonts_cached (g_font_cache s) ->
  (exists dict, fst (get_attributes os fa rgb ul s) = Ok dict) /\
  fonts_cached (g_font_cache (snd (get_attributes os fa rgb ul s))).
Proof.
  intros Hos Hfonts. unfold get_attributes. cbv zeta.
  destruct (AttributeDictCache.cache_ (g_attr_dict_cache s) !! _) as [dict|];
    [split; [eauto | exact Hfonts]|].
  destruct (get_font_succeeds os fa (g_font_cache s) Hfonts) as [[font Hfont] Hfc].
  destruct (FontCache.get_font os fa (g_font_cache s)) as [font' fc]. cbn [fst snd] in *.
  subst font'.
  pose proof (get_color_succeeds os (Z.land (Z.shiftr rgb 16) 255) (Z.land (Z.shiftr rgb 8) 255)
                (Z.land rgb 255) 1 (g_color_cache s) Hos) as Hcol.
  destruct (ColorCache.get_color os _ _ _ 1 (g_color_cache s)) as [[color|what|] cc];
    cbn [fst] in Hcol; [|destruct Hcol as [x Hx]; discriminate Hx
                        |destruct Hcol as [x Hx]; discriminate Hx].
  destruct Hos as (_ & _ & Hnum & Hdict & _).
  assert (Enum : ul && negb (bool_decide (is_Some (if ul then CFNumberCreate os 1 else None)))
                 = false).
  { destruct ul; [|reflexivity]. cbn [andb].
    rewrite (bool_decide_eq_true_2 _ (Hnum 1)). reflexivity. }
  rewrite Enum.
  destruct (Hdict font color (if ul then CFNumberCreate os 1 else None)) as [ref ->].
  cbn [fst snd g_font_cache]. split; [eauto | exact Hfc].
Qed.

Section FrameSucceeds.

Variable os : Native.
Hypothesis os_creates : native_creates os.
Variable grid : list (list Cell).
Variable color_pairs : gmap Z ColorPair.
Variable dirty_cells : CellRect.
Variables char_width char_height : Q.
Variables rows cols : Z.
Variables offset_x offset_y : Q.
Variable font_ascent : Q.

Local Abbreviation bind_ok := (never_throws_bind pass_fonts_cached).
Local Abbreviation ret_ok := (never_throws_ret pass_fonts_cached).

Lemma lookup_attributes_succeeds (fa rgb : Z) (ul : bool) :
  never_throws pass_fonts_cached (lookup_attributes os fa rgb ul).
Proof.
  intros st Hst. unfold lookup_attributes.
  destruct (get_attributes_succeeds os fa rgb ul (cp_caches st) os_creates Hst)
    as [[dict Hd] Hfc].
  destruct (get_attributes os fa rgb ul (cp_caches st)) as [r caches]. cbn [fst snd] in *.
  subst r. split; [exact Hfc | discriminate].
Qed.

Lemma set_current_batch_succeeds (b : option CharacterBatch) :
  never_throws pass_fonts_cached (set_current_batch b).
Proof. intros st Hst. split; [exact Hst | discriminate]. Qed.

Lemma draw_character_batch_succeeds (batch : CharacterBatch) :
  never_throws pass_fonts_cached
    (draw_character_batch os char_width char_height font_ascent batch).
Proof.
  unfold draw_character_batch. apply bind_ok; [apply lookup_attributes_succeeds|].
  intros attrs. destruct (bool_decide _); [apply ret_ok|].
  destruct (font_to_use os batch (dict_font attrs)) as [font allocated].
  destruct (negb _); [apply ret_ok|].
  intros st Hst. split; [exact Hst | discriminate].
Qed.

Lemma flush_batch_succeeds :
  never_throws pass_fonts_cached (flush_batch os char_width char_height font_ascent).
Proof.
  unfold flush_batch. apply bind_ok; [apply never_throws_get_state|].
  intros st. destruct (cp_current_batch st); [|apply ret_ok].
  apply bind_ok; [apply draw_character_batch_succeeds|].
  intros _. apply set_current_batch_succeeds.
Qed.

Lemma character_cell_succeeds (row col : Z) :
  never_throws pass_fonts_cached
    (character_cell os grid color_pairs dirty_cells char_width char_height rows cols
       offset_x offset_y font_ascent row col).
Proof.
  assert (Hflush : forall k : Z,
            never_throws pass_fonts_cached
              (flush_batch os char_width char_height font_ascent;; mret k)).
  { intros k. apply bind_ok; [apply flush_batch_succeeds | intros _; apply ret_ok]. }
  unfold character_cell.
  apply bind_ok; [apply never_throws_grid_at|]. intros cell.
  destruct (bool_decide _); [apply Hflush|].
  destruct (_ && _); [apply Hflush|].
  apply bind_ok.
  { unfold combine_variation_selector. destruct (_ && _); [|apply ret_ok].
    apply bind_ok; [apply never_throws_grid_at|].
    intros next. destruct (single_unit _ _); apply ret_ok. }
  intros combined. destruct (color_pairs !! _); [|apply Hflush].
  apply bind_ok; [apply lookup_attributes_succeeds|]. intros attrs.
  destruct (_ =? -2); [apply Hflush|].
  apply bind_ok; [apply never_throws_get_state|]. intros st.
  destruct (cp_current_batch st) as [batch|].
  - destruct (can_extend _ _ _ _ _ _ _ _).
    + apply bind_ok; [apply set_current_batch_succeeds | intros _; apply ret_ok].
    + apply bind_ok; [apply draw_character_batch_succeeds|]. intros _.
      apply bind_ok; [apply set_current_batch_succeeds | intros _; apply ret_ok].
  - apply bind_ok; [apply set_current_batch_succeeds | intros _; apply ret_ok].
Qed.

Lemma render_characters_succeeds :
  never_throws pass_fonts_cached
    (render_characters os grid color_pairs dirty_cells char_width char_height rows cols
       offset_x offset_y font_ascent).
Proof.
  unfold render_characters. apply bind_ok; [|intros _; apply flush_batch_succeeds].
  apply never_throws_for_range. intros row.
  unfold character_row. apply bind_ok.
  - apply never_throws_for_range. intros col. apply character_cell_succeeds.
  - intros _. apply bind_ok; [apply flush_batch_succeeds | intros _; apply ret_ok].
Qed.

End FrameSucceeds.

Lemma render_marked_text_succeeds (os : Native) (text : list Z) (row col : Z)
    (base_font : Z) (cc : ColorCache.t) :
  native_creates os ->
  exists ops, fst (render_marked_text os text row col base_font cc) = Ok ops.
Proof.
  intros Hos. unfold render_marked_text.
  destruct (bool_decide (text = [])); [eauto|].
  destruct (CFStringCreateWithCString os text); [|eauto].
  destruct (negb _); [eauto|].
  pose proof (get_color_succeeds os 60 60 60 1 cc Hos) as H1.
  destruct (ColorCache.get_color os 60 60 60 1 cc) as [[c1|w1|] cc1]; cbn [fst] in H1;
    [|destruct H1 as [x Hx]; discriminate Hx|destruct H1 as [x Hx]; discriminate Hx].
  pose proof (get_color_succeeds os 100 100 100 1 cc1 Hos) as H2.
  destruct (ColorCache.get_color os 100 100 100 1 cc1) as [[c2|w2|] cc2]; cbn [fst] in H2;
    [|destruct H2 as [x Hx]; discriminate Hx|destruct H2 as [x Hx]; discriminate Hx].
  pose proof (get_color_succeeds os 255 255 255 1 cc2 Hos) as H3.
  destruct (ColorCache.get_color os 255 255 255 1 cc2) as [[c3|w3|] cc3]; cbn [fst] in H3;
    [|destruct H3 as [x Hx]; discriminate Hx|destruct H3 as [x Hx]; discriminate Hx].
  cbn [fst]. eauto.
Qed.

Lemma render_pipeline_succeeds (os : Native) (a : FrameArgs) (dirty_rect : CGRect)
    (cs : Caches) (base_font : Z) :
  native_creates os -> frame_conditions a -> fonts_cached (g_font_cache cs) ->
  exists cs' drawn,
    render_pipeline os a dirty_rect cs base_font = (Ok tt, cs', drawn) /\
    fonts_cached (g_font_cache cs').
Proof.
  intros Hos Hframe Hfonts.
  pose proof (proj1 (frame_conditions_parse a) Hframe) as (_ & [grid Eg] & [table Et]).
  destruct Hframe as ((Hrows & Hcols & _) & _).
  unfold render_pipeline. rewrite Eg, Et. cbv zeta.
  pose proof (parse_grid_shape _ _ _ _ Eg) as Hshape.
  destruct (calculate_dirty_cells_bounds dirty_rect (arg_char_width a) (arg_char_height a)
              (arg_rows a) (arg_cols a) (arg_offset_x a) (arg_offset_y a)
              ltac:(lia) ltac:(lia)) as [Hr Hc].
  set (dirty := calculate_dirty_cells dirty_rect (arg_char_width a) (arg_char_height a)
                  (arg_rows a) (arg_cols a) (arg_offset_x a) (arg_offset_y a)) in *.
  pose proof (outcome_render_backgrounds grid table dirty (arg_char_width a) (arg_char_height a)
                (arg_rows a) (arg_cols a) (arg_offset_x a) (arg_offset_y a) Hshape Hr Hc
                RectangleBatcher_new) as Hb.
  destruct (render_backgrounds grid table dirty (arg_char_width a) (arg_char_height a)
              (arg_rows a) (arg_cols a) (arg_offset_x a) (arg_offset_y a) RectangleBatcher_new)
    as [[u|what|] batcher]; cbn [fst] in Hb; [|discriminate|contradiction].
  match goal with |- context [render_characters os grid table dirty ?cw ?ch ?r ?c ?ox ?oy ?fa ?st] =>
    pose proof (outcome_render_characters os grid table dirty cw ch r c ox oy fa Hshape Hr Hc st)
      as Hch;
    pose proof (render_characters_succeeds os Hos grid table dirty cw ch r c ox oy fa st Hfonts)
      as [Hfc Hnt];
    destruct (render_characters os grid table dirty cw ch r c ox oy fa st) as [[[]|what|] st']
  end; cbn [fst snd] in *; [|exfalso; apply (Hnt what); reflexivity|contradiction].
  destruct (render_marked_text_succeeds os (marked_text a) (cursor_row a) (cursor_col a)
              base_font (g_color_cache (cp_caches st')) Hos) as [ops Hops].
  destruct (render_marked_text os (marked_text a) (cursor_row a) (cursor_col a) base_font
              (g_color_cache (cp_caches st'))) as [r cc]. cbn [fst] in Hops. subst r.
  eexists _, _. split; [reflexivity|]. exact Hfc.
Qed.

(** X21.  A well-formed frame is rendered whenever the native layer
    delivers.  If the context is not null, the frame meets the conditions of
    the validation and of the two parsers, no conversion leaves a Python
    error behind (the integers of the dirty rect are within the range of
    [double] and every font name has a UTF-8 form), and the native layer
    creates every object it is asked for, then [render_frame] returns [None]:
    no exception is raised, whatever glyphs the fonts have.  The renderer's
    font cache holding no null font is kept by the call (and holds before the
    first frame), so the same is true of every frame that follows. *)
Theorem render_frame_succeeds (os : Native) (a : FrameArgs) (g : Renderer) :
  native_creates os -> context_ptr a <> 0 -> frame_conditions a ->
  no_error_left_set a ->
  renderer_fonts_cached g ->
  let r := render_frame os a g in
  fst (fst r) = ReturnedNone /\
  is_Some (caches (snd (fst r))) /\
  renderer_fonts_cached (snd (fst r)).
Proof.
  intros Hos Hctx Hframe _ Hg. cbv zeta. unfold render_frame.
  destruct (context_ptr a =? 0) eqn:E; [apply Z.eqb_eq in E; contradiction|].
  pose proof (proj1 (frame_conditions_parse a) Hframe) as ([rect Ev] & _).
  rewrite Ev.
  assert (Hinit : exists cs base_font g1,
            initialize_caches os (font_names_obj a) (font_size a) g = (Ok tt, g1) /\
            caches g1 = Some (cs, base_font) /\ fonts_cached (g_font_cache cs)).
  { unfold initialize_caches. cbv zeta. destruct (negb (_ || _ || _)) eqn:Eneed.
    - apply negb_true_iff in Eneed. apply orb_false_iff in Eneed as [Eneed _].
      apply orb_false_iff in Eneed as [Ec _]. apply negb_false_iff in Ec.
      apply bool_decide_eq_true in Ec. destruct Ec as [[cs base_font] Ec].
      exists cs, base_font, g. split; [reflexivity|]. split; [exact Ec|].
      apply (Hg cs base_font Ec).
    - destruct Hos as (_ & _ & _ & _ & Hstr & Hfont).
      destruct (Hstr (default [] (head (font_names_of (font_names_obj a))))) as [name ->].
      destruct (Hfont (font_names_of (font_names_obj a)) (font_size a)) as [base_font ->].
      eexists _, _, _. split; [reflexivity|]. split; [reflexivity|].
      split; [cbn; eauto|]. intros k. cbn. rewrite lookup_empty. discriminate. }
  destruct Hinit as (cs & base_font & g1 & -> & Hc & Hfonts). rewrite Hc.
  destruct (render_pipeline_succeeds os a rect cs base_font Hos Hframe Hfonts)
    as (cs' & drawn & -> & Hfonts').
  cbn [fst snd report caches]. split; [reflexivity|]. split; [eauto|].
  intros cs0 bf0 [= <- <-]. exact Hfonts'.
Qed.

Lemma example_native_creates (fresh : Z) : native_creates (example_native fresh).
Proof. unfold native_creates, example_native. cbn. repeat split; intros; eauto. Qed.

Lemma render_frame_succeeds_witness :
  let r := render_frame (example_native 7) (example_frame 1) no_renderer in
  fst (fst r) = ReturnedNone /\
  is_Some (caches (snd (fst r))) /\
  renderer_fonts_cached (snd (fst r)).
Proof.
  apply (render_frame_succeeds (example_native 7) (example_frame 1) no_renderer).
  - apply example_native_creates.
  - cbn. lia.
  - exact example_frame_conditions.
  - split; cbn; [repeat constructor | exact I].
  - intros cs base_font H. cbn in H. discriminate H.
Defined.

(** ** An empty dirty region *)

Lemma for_range_empty {S : Type} (fuel : nat) (i stop : Z) (body : Z -> M S Z) (s : S) :
  stop <= i -> for_range fuel i stop body s = (Ok tt, s).
Proof.
  intros H. destruct fuel as [|fuel]; [reflexivity|]. cbn [for_range].
  replace (i <? stop) with false by (symmetry; apply Z.ltb_ge; exact H). reflexivity.
Qed.

Lemma for_range_idle {S : Type} (P : S -> Prop) (stop : Z) (body : Z -> M S Z) (fuel : nat) :
  (forall j s, P s -> body j s = (Ok 0, s)) ->
  forall (i : Z) (s : S), P s -> for_range fuel i stop body s = (Ok tt, s).
Proof.
  intros Hbody. induction fuel as [|fuel IH]; intros i s Hs; [reflexivity|].
  cbn [for_range]. destruct (i <? stop); [|reflexivity].
  rewrite bind_unfold, (Hbody i s Hs). apply IH. exact Hs.
Qed.

(** X22.  An empty dirty region costs nothing.  When the region has no row
    or no column, the background pass leaves a fresh batcher fresh and the
    character pass, started with no open run, leaves its state untouched:
    nothing is drawn, no cache is consulted and no cell of the grid is read,
    whatever the grid's shape. *)
Theorem empty_dirty_region_draws_nothing
    (os : Native) (grid : list (list Cell)) (color_pairs : gmap Z ColorPair)
    (dirty_cells : CellRect) (cw ch : Q) (rows cols : Z) (ox oy ascent : Q) :
  end_row dirty_cells <= start_row dirty_cells \/
  end_col dirty_cells <= start_col dirty_cells ->
  render_backgrounds grid color_pairs dirty_cells cw ch rows cols ox oy RectangleBatcher_new
  = (Ok tt, RectangleBatcher_new) /\
  fst (draw_batched_backgrounds RectangleBatcher_new) = [] /\
  forall st, cp_current_batch st = None ->
    render_characters os grid color_pairs dirty_cells cw ch rows cols ox oy ascent st
    = (Ok tt, st).
Proof.
  intros Hempty.
  assert (Hflush : forall st, cp_current_batch st = None ->
            flush_batch os cw ch ascent st = (Ok tt, st)).
  { intros st Hst. unfold flush_batch. rewrite bind_unfold. cbn [get_state]. rewrite Hst.
    reflexivity. }
  split; [|split; [reflexivity|]].
  - unfold render_backgrounds. destruct Hempty as [Hrows|Hcols].
    + apply for_range_empty. exact Hrows.
    + apply (for_range_idle (fun b => current_batch_ b = None)); [|reflexivity].
      intros row b Hb. unfold background_row.
      rewrite bind_unfold, for_range_empty by exact Hcols.
      rewrite bind_unfold. cbn [get_state]. rewrite bind_unfold. cbn [put_state].
      unfold finish_row. rewrite Hb. destruct b. reflexivity.
  - intros st Hst. unfold render_characters. rewrite bind_unfold.
    destruct Hempty as [Hrows|Hcols].
    + rewrite for_range_empty by exact Hrows. apply Hflush. exact Hst.
    + rewrite (for_range_idle (fun st => cp_current_batch st = None)); [apply Hflush| |]; 
        [exact Hst | | exact Hst].
      intros row st0 Hst0. unfold character_row.
      rewrite bind_unfold, for_range_empty by exact Hcols.
      rewrite bind_unfold, (Hflush st0 Hst0). reflexivity.
Qed.

(** A rect right of a 1 x 3 grid of 8 x 16 cells maps to a region without
    columns, on a grid that has no rows at all. *)
Lemma empty_dirty_region_draws_nothing_witness :
  let dirty := calculate_dirty_cells (mkCGRect 100 0 8 16) 8 16 1 3 0 0 in
  render_backgrounds [] example_color_pairs dirty 8 16 1 3 0 0 RectangleBatcher_new
  = (Ok tt, RectangleBatcher_new) /\
  fst (draw_batched_backgrounds RectangleBatcher_new) = [] /\
  forall st, cp_current_batch st = None ->
    render_characters (example_native 7) [] example_color_pairs dirty 8 16 1 3 0 0 12 st
    = (Ok tt, st).
Proof.
  cbv zeta.
  apply (empty_dirty_region_draws_nothing (example_native 7) [] example_color_pairs
           (calculate_dirty_cells (mkCGRect 100 0 8 16) 8 16 1 3 0 0) 8 16 1 3 0 0 12).
  right. vm_compute. intros H. discriminate H.
Defined.

(** ** Wide characters in UTF-8 *)

(** [x << k | y] is [x * 2^k + y] when [y] fits below bit [k]. *)
Lemma lor_shiftl_add (x y k : Z) :
  0 <= k -> 0 <= y < 2 ^ k -> Z.lor (Z.shiftl x k) y = x * 2 ^ k + y.
Proof.
  intros Hk Hy.
  assert (Hland : Z.land (Z.shiftl x k) y = 0).
  { apply Z.bits_inj'. intros n Hn. rewrite Z.land_spec, Z.bits_0.
    destruct (Z.lt_ge_cases n k) as [Hlt|Hge].
    - rewrite Z.shiftl_spec_low by exact Hlt. reflexivity.
    - assert (E : y = Z.land y (Z.ones k)).
      { rewrite Z.land_ones by exact Hk. symmetry. apply Z.mod_small. exact Hy. }
      rewrite E, Z.land_spec, Z.testbit_ones by exact Hk.
      replace (n <? k) with false by (symmetry; apply Z.ltb_ge; exact Hge).
      rewrite !andb_false_r. reflexivity. }
  rewrite <- Z.lxor_lor by exact Hland.
  rewrite <- Z.add_nocarry_lxor by exact Hland.
  rewrite Z.shiftl_mul_pow2 by exact Hk. reflexivity.
Qed.

Lemma land_low (x k : Z) (mask : Z) :
  0 <= k -> mask = Z.ones k -> Z.land x mask = x mod 2 ^ k.
Proof. intros Hk ->. apply Z.land_ones. exact Hk. Qed.

(** The four tests on the first byte. *)
Lemma first_byte_tests (b0 : Z) :
  0 <= b0 < 256 ->
  (Z.land b0 128 =? 0) = (b0 <? 128) /\
  (Z.land b0 224 =? 192) = ((192 <=? b0) && (b0 <? 224)) /\
  (Z.land b0 240 =? 224) = ((224 <=? b0) && (b0 <? 240)) /\
  (Z.land b0 248 =? 240) = ((240 <=? b0) && (b0 <? 248)).
Proof.
  intros Hb.
  assert (Hsplit : b0 = 128 * (b0 / 128) + b0 mod 128) by (apply Z.div_mod; lia).
  assert (Hbits : forall n, 0 <= n -> Z.testbit b0 n = Z.testbit (b0 mod 256) n).
  { intros n Hn. rewrite Z.mod_small by lia. reflexivity. }
  assert (Hall : forallb (fun b =>
            Bool.eqb (Z.land b 128 =? 0) (b <? 128)
            && Bool.eqb (Z.land b 224 =? 192) ((192 <=? b) && (b <? 224))
            && Bool.eqb (Z.land b 240 =? 224) ((224 <=? b) && (b <? 240))
            && Bool.eqb (Z.land b 248 =? 240) ((240 <=? b) && (b <? 248)))
            (map Z.of_nat (seq 0 256)) = true) by (vm_compute; reflexivity).
  rewrite forallb_forall in Hall. specialize (Hall b0).
  assert (Hin : In b0 (map Z.of_nat (seq 0 256))).
  { apply in_map_iff. exists (Z.to_nat b0). split; [lia|]. apply in_seq. lia. }
  specialize (Hall Hin).
  apply andb_true_iff in Hall as [Hall H4]. apply andb_true_iff in Hall as [Hall H3].
  apply andb_true_iff in Hall as [H1 H2].
  apply eqb_prop in H1, H2, H3, H4. repeat split; assumption.
Qed.

Lemma continuation_byte (x : Z) : 0 <= x < 64 -> Z.land (128 + x) 63 = x.
Proof.
  intros Hx. rewrite (land_low _ 6) by (lia || reflexivity).
  change (2 ^ 6) with 64. replace (128 + x) with (x + 2 * 64) by lia.
  rewrite Z.mod_add by lia. apply Z.mod_small. exact Hx.
Qed.

(** Decoding the first character of a string that starts with the UTF-8
    form of [cp] gives [cp]. *)
Lemma is_wide_character_decodes (cp : Z) (rest : list Z) :
  0 <= cp <= 1114111 ->
  is_wide_character (utf8_encode cp ++ rest) = in_wide_ranges cp.
Proof.
  intros Hcp. unfold utf8_encode.
  destruct (cp <? 128) eqn:E1.
  { apply Z.ltb_lt in E1. cbn [app is_wide_character].
    destruct (first_byte_tests cp ltac:(lia)) as (-> & _).
    replace (cp <? 128) with true by (symmetry; apply Z.ltb_lt; lia). reflexivity. }
  apply Z.ltb_ge in E1.
  assert (Hm : 0 <= cp mod 64 < 64) by (apply Z.mod_pos_bound; lia).
  assert (Hm2 : 0 <= (cp / 64) mod 64 < 64) by (apply Z.mod_pos_bound; lia).
  assert (Hm3 : 0 <= (cp / 4096) mod 64 < 64) by (apply Z.mod_pos_bound; lia).
  pose proof (Z.div_mod cp 64 ltac:(lia)) as D1.
  pose proof (Z.div_mod (cp / 64) 64 ltac:(lia)) as D2.
  pose proof (Z.div_mod (cp / 4096) 64 ltac:(lia)) as D3.
  assert (D12 : cp / 4096 = cp / 64 / 64) by (rewrite Z.div_div by lia; reflexivity).
  assert (D13 : cp / 262144 = cp / 4096 / 64) by (rewrite Z.div_div by lia; reflexivity).
  destruct (cp <? 2048) eqn:E2.
  { apply Z.ltb_lt in E2.
    assert (Hd : 2 <= cp / 64 < 32).
    { split; [apply Z.div_le_lower_bound; lia | apply Z.div_lt_upper_bound; lia]. }
    cbn [app is_wide_character length nth].
    destruct (first_byte_tests (192 + cp / 64) ltac:(lia)) as (-> & -> & _).
    replace (192 + cp / 64 <? 128) with false by (symmetry; apply Z.ltb_ge; lia).
    replace (192 <=? 192 + cp / 64) with true by (symmetry; apply Z.leb_le; lia).
    replace (192 + cp / 64 <? 224) with true by (symmetry; apply Z.ltb_lt; lia).
    cbn [andb]. replace (Z.of_nat (S (S (length rest))) <? 2) with false
      by (symmetry; apply Z.ltb_ge; lia).
    rewrite continuation_byte by exact Hm.
    rewrite (land_low _ 5) by (lia || reflexivity). change (2 ^ 5) with 32.
    replace ((192 + cp / 64) mod 32) with (cp / 64).
    2:{ replace (192 + cp / 64) with (cp / 64 + 6 * 32) by lia.
        rewrite Z.mod_add by lia. symmetry. apply Z.mod_small. lia. }
    rewrite lor_shiftl_add by (change (2 ^ 6) with 64; lia). change (2 ^ 6) with 64.
    f_equal. lia. }
  apply Z.ltb_ge in E2.
  destruct (cp <? 65536) eqn:E3.
  { apply Z.ltb_lt in E3.
    assert (Hd : 0 <= cp / 4096 < 16).
    { split; [apply Z.div_pos; lia | apply Z.div_lt_upper_bound; lia]. }
    cbn [app is_wide_character length nth].
    destruct (first_byte_tests (224 + cp / 4096) ltac:(lia)) as (-> & -> & -> & _).
    replace (224 + cp / 4096 <? 128) with false by (symmetry; apply Z.ltb_ge; lia).
    replace (192 <=? 224 + cp / 4096) with true by (symmetry; apply Z.leb_le; lia).
    replace (224 + cp / 4096 <? 224) with false by (symmetry; apply Z.ltb_ge; lia).
    replace (224 <=? 224 + cp / 4096) with true by (symmetry; apply Z.leb_le; lia).
    replace (224 + cp / 4096 <? 240) with true by (symmetry; apply Z.ltb_lt; lia).
    cbn [andb]. replace (Z.of_nat (S (S (S (length rest)))) <? 3) with false
      by (symmetry; apply Z.ltb_ge; lia).
    rewrite !continuation_byte by assumption.
    rewrite (land_low _ 4) by (lia || reflexivity). change (2 ^ 4) with 16.
    replace ((224 + cp / 4096) mod 16) with (cp / 4096).
    2:{ replace (224 + cp / 4096) with (cp / 4096 + 14 * 16) by lia.
        rewrite Z.mod_add by lia. symmetry. apply Z.mod_small. lia. }
    rewrite (Z.shiftl_mul_pow2 (cp / 4096)) by lia. change (2 ^ 12) with 4096.
    replace (cp / 4096 * 4096) with (Z.shiftl (cp / 4096 * 64) 6)
      by (rewrite Z.shiftl_mul_pow2 by lia; change (2 ^ 6) with 64; lia).
    rewrite <- Z.shiftl_lor.
    assert (E : Z.lor (cp / 4096 * 64) ((cp / 64) mod 64) = cp / 64).
    { replace (cp / 4096 * 64) with (Z.shiftl (cp / 4096) 6)
        by (rewrite Z.shiftl_mul_pow2 by lia; reflexivity).
      rewrite lor_shiftl_add by (change (2 ^ 6) with 64; lia). change (2 ^ 6) with 64. lia. }
    rewrite E.
    rewrite lor_shiftl_add by (change (2 ^ 6) with 64; lia). change (2 ^ 6) with 64.
    f_equal. lia. }
  apply Z.ltb_ge in E3.
  assert (Hd : 0 <= cp / 262144 < 8).
  { split; [apply Z.div_pos; lia | apply Z.div_lt_upper_bound; lia]. }
  cbn [app is_wide_character length nth].
  destruct (first_byte_tests (240 + cp / 262144) ltac:(lia)) as (-> & -> & -> & ->).
  replace (240 + cp / 262144 <? 128) with false by (symmetry; apply Z.ltb_ge; lia).
  replace (192 <=? 240 + cp / 262144) with true by (symmetry; apply Z.leb_le; lia).
  replace (240 + cp / 262144 <? 224) with false by (symmetry; apply Z.ltb_ge; lia).
  replace (224 <=? 240 + cp / 262144) with true by (symmetry; apply Z.leb_le; lia).
  replace (240 + cp / 262144 <? 240) with false by (symmetry; apply Z.ltb_ge; lia).
  replace (240 <=? 240 + cp / 262144) with true by (symmetry; apply Z.leb_le; lia).
  replace (240 + cp / 262144 <? 248) with true by (symmetry; apply Z.ltb_lt; lia).
  cbn [andb]. replace (Z.of_nat (S (S (S (S (length rest))))) <? 4) with false
    by (symmetry; apply Z.ltb_ge; lia).
  rewrite !continuation_byte by assumption.
  rewrite (land_low _ 3) by (lia || reflexivity). change (2 ^ 3) with 8.
  replace ((240 + cp / 262144) mod 8) with (cp / 262144).
  2:{ replace (240 + cp / 262144) with (cp / 262144 + 30 * 8) by lia.
      rewrite Z.mod_add by lia. symmetry. apply Z.mod_small. lia. }
  assert (Ea : Z.lor (Z.shiftl (cp / 262144) 18) (Z.shiftl ((cp / 4096) mod 64) 12)
               = Z.shiftl (cp / 4096) 12).
  { replace (Z.shiftl (cp / 262144) 18) with (Z.shiftl (Z.shiftl (cp / 262144) 6) 12)
      by (rewrite Z.shiftl_shiftl by lia; reflexivity).
    rewrite <- Z.shiftl_lor.
    rewrite lor_shiftl_add by (change (2 ^ 6) with 64; lia). change (2 ^ 6) with 64.
    f_equal. lia. }
  rewrite Ea.
  assert (Eb : Z.lor (Z.shiftl (cp / 4096) 12) (Z.shiftl ((cp / 64) mod 64) 6)
               = Z.shiftl (cp / 64) 6).
  { replace (Z.shiftl (cp / 4096) 12) with (Z.shiftl (Z.shiftl (cp / 4096) 6) 6)
      by (rewrite Z.shiftl_shiftl by lia; reflexivity).
    rewrite <- Z.shiftl_lor.
    rewrite lor_shiftl_add by (change (2 ^ 6) with 64; lia). change (2 ^ 6) with 64.
    f_equal. lia. }
  rewrite Eb.
  rewrite lor_shiftl_add by (change (2 ^ 6) with 64; lia). change (2 ^ 6) with 64.
  f_equal. lia.
Qed.

(** X23.  [is_wide_character] classifies the first character of a UTF-8
    string.  For every string that starts with the UTF-8 form of a code point
    [cp] (up to U+10FFFF), the result is [true] exactly when [cp] lies in one
    of the six ranges U+4E00-9FFF, U+F900-FAFF, U+AC00-D7AF, U+3040-309F,
    U+30A0-30FF, U+FF00-FFEF; what follows the first character has no
    influence.  The empty string, ASCII and two-byte characters are never
    wide, and neither is any code point above U+FFFF. *)
Theorem is_wide_character_of_utf8 (cp : Z) (rest : list Z) :
  0 <= cp <= 1114111 ->
  (is_wide_character (utf8_encode cp ++ rest) = true <->
   19968 <= cp <= 40959 \/ 63744 <= cp <= 64255 \/ 44032 <= cp <= 55215 \/
   12352 <= cp <= 12447 \/ 12448 <= cp <= 12543 \/ 65280 <= cp <= 65519) /\
  (cp < 2048 \/ 65536 <= cp -> is_wide_character (utf8_encode cp ++ rest) = false) /\
  is_wide_character [] = false.
Proof.
  intros Hcp. rewrite is_wide_character_decodes by exact Hcp.
  unfold in_wide_ranges. split; [|split; [|reflexivity]].
  - rewrite !orb_true_iff, !andb_true_iff, !Z.leb_le. tauto.
  - intros H. apply not_true_is_false.
    rewrite !orb_true_iff, !andb_true_iff, !Z.leb_le. lia.
Qed.

(** U+3042 HIRAGANA LETTER A, followed by "b". *)
Lemma is_wide_character_of_utf8_witness :
  (is_wide_character (utf8_encode 12354 ++ [98]) = true <->
   19968 <= 12354 <= 40959 \/ 63744 <= 12354 <= 64255 \/ 44032 <= 12354 <= 55215 \/
   12352 <= 12354 <= 12447 \/ 12448 <= 12354 <= 12543 \/ 65280 <= 12354 <= 65519) /\
  (12354 < 2048 \/ 65536 <= 12354 -> is_wide_character (utf8_encode 12354 ++ [98]) = false) /\
  is_wide_character [] = false.
Proof.
  apply (is_wide_character_of_utf8 12354 [98]). lia.
Defined.

Example is_wide_character_examples :
  utf8_encode 12354 = [227; 129; 130] /\
  is_wide_character [227; 129; 130] = true /\
  is_wide_character [65] = false /\
  is_wide_character [227; 129] = false /\
  is_wide_character [240; 132; 184; 128] = true.
Proof. repeat split; vm_compute; reflexivity. Qed.

(** ** The most recently used colour *)

Lemma evict_lru_counter (c : ColorCache.t) :
  ColorCache.access_counter_ (ColorCache.evict_lru c) = ColorCache.access_counter_ c.
Proof. unfold ColorCache.evict_lru. destruct (ColorCache.cache_ c !! _); reflexivity. Qed.

(** A request that returns a colour leaves it cached under the newest
    stamp. *)
Lemma request_color_stamp (n : Z) (rq : ColorRequest) (c : ColorCache.t) (color : Z) :
  ColorCache_wf n c -> n < SIZE_MAX ->
  fst (request_color rq c) = Ok color ->
  exists t,
    ColorCache.access_order_ (snd (request_color rq c)) !! rq_key rq = Some t /\
    ColorCache.access_counter_ (snd (request_color rq c)) = t + 1 /\
    ColorCache.cache_ (snd (request_color rq c)) !! rq_key rq = Some color.
Proof.
  intros Hwf Hn. destruct Hwf as (_ & _ & _ & Hcnt & _).
  unfold request_color, ColorCache.get_color, rq_key. cbv zeta.
  set (key := ColorCache.pack_key (rq_r rq) (rq_g rq) (rq_b rq)).
  destruct (ColorCache.cache_ c !! key) as [col|] eqn:Hhit.
  - cbn [fst snd ColorCache.access_order_ ColorCache.access_counter_ ColorCache.cache_].
    intros [= ->]. exists (ColorCache.access_counter_ c).
    split; [apply lookup_insert_eq|]. split; [apply incr_size_t_small; lia | exact Hhit].
  - destruct (CGColorSpaceCreateDeviceRGB (rq_os rq)) as [space|]; [|discriminate].
    destruct (CGColorCreate (rq_os rq) space _) as [col|]; [|discriminate].
    cbn [fst snd ColorCache.access_order_ ColorCache.access_counter_ ColorCache.cache_].
    intros [= ->].
    set (c1 := if Z.of_nat (size (ColorCache.cache_ c)) >=? ColorCache.max_size_ c
               then ColorCache.evict_lru c else c).
    assert (E : ColorCache.access_counter_ c1 = ColorCache.access_counter_ c).
    { subst c1. destruct (_ >=? _); [apply evict_lru_counter | reflexivity]. }
    exists (ColorCache.access_counter_ c1).
    split; [apply lookup_insert_eq|]. split; [|apply lookup_insert_eq].
    rewrite E. apply incr_size_t_small. lia.
Qed.

(** X24.  The colour used last survives the next request.  In a colour
    cache of capacity at least 2, after any history of requests and clears, a
    colour that [get_color] has just returned is still cached, with the same
    reference, after the next call of [get_color], whatever that call asks
    for and whether it evicts or not. *)
Theorem ColorCache_most_recent_survives
    (max_size : Z) (ops : list ColorOp) (rq rq' : ColorRequest) (color : Z) :
  2 <= max_size -> Z.of_nat (length ops) + 2 <= SIZE_MAX ->
  let c := ColorCache_run ops (ColorCache.new max_size) in
  fst (request_color rq c) = Ok color ->
  let c1 := snd (request_color rq c) in
  let c2 := snd (request_color rq' c1) in
  ColorCache.cache_ c2 !! rq_key rq = Some color.
Proof.
  intros Hmax Hlen. cbv zeta. intros Hok.
  assert (Hnew : ColorCache_wf 0 (ColorCache.new max_size)).
  { unfold ColorCache_wf, ColorCache.new. cbn.
    split; [reflexivity|]. split; [intros k v H; rewrite lookup_empty in H; discriminate|].
    split; [intros k1 k2 v H; rewrite lookup_empty in H; discriminate|].
    split; [lia|]. rewrite map_size_empty. lia. }
  destruct (ColorCache_wf_run ops 0 (ColorCache.new max_size) Hnew) as [Hwf Hm];
    [cbn; lia | lia |]. cbn [ColorCache.new ColorCache.max_size_] in Hm.
  rewrite Z.add_0_l in Hwf.
  set (c := ColorCache_run ops (ColorCache.new max_size)) in *.
  set (n := Z.of_nat (length ops)) in *.
  destruct (request_color_stamp n rq c color Hwf ltac:(lia) Hok) as (t & Hstamp & Hcounter & Hcached).
  destruct (ColorCache_wf_request n rq c Hwf ltac:(lia) ltac:(lia)) as [Hwf1 Hm1].
  set (c1 := snd (request_color rq c)) in *. clearbody c1.
  set (k := rq_key rq) in *.
  unfold request_color at 1. unfold ColorCache.get_color. cbv zeta.
  set (key' := ColorCache.pack_key (rq_r rq') (rq_g rq') (rq_b rq')).
  destruct (ColorCache.cache_ c1 !! key') as [col'|] eqn:Hhit; [exact Hcached|].
  destruct (CGColorSpaceCreateDeviceRGB (rq_os rq')) as [space|]; [|exact Hcached].
  destruct (CGColorCreate (rq_os rq') space _) as [col'|]; [|exact Hcached].
  cbn [snd ColorCache.cache_].
  assert (Hne : k <> key') by (intros ->; congruence).
  rewrite lookup_insert_ne by congruence.
  destruct (Z.of_nat (size (ColorCache.cache_ c1)) >=? ColorCache.max_size_ c1) eqn:Efull;
    [|exact Hcached].
  apply Z.geb_le in Efull. rewrite Hm1, Hm in Efull.
  destruct (evict_lru_removes_minimum (n + 1) c1 Hwf1 ltac:(lia) ltac:(lia))
    as (kv & v & Hv & _ & Hmin & ->).
  cbn [ColorCache.cache_].
  assert (Hkv : kv <> k).
  { intros ->. rewrite Hstamp in Hv. injection Hv as <-.
    destruct Hwf1 as (Hdom & Hrange & Hinj & _ & _).
    assert (Hsub : dom (ColorCache.cache_ c1) ⊆ ({[k]} : gset Z)).
    { intros k0 Hk0. rewrite Hdom in Hk0. apply elem_of_dom in Hk0 as [v0 Hv0].
      pose proof (Hmin k0 v0 Hv0) as H1. pose proof (Hrange k0 v0 Hv0) as H2.
      assert (v0 = t) by lia. subst v0.
      apply elem_of_singleton. apply (Hinj k0 k t Hv0 Hstamp). }
    apply subseteq_size in Hsub. rewrite size_dom, size_singleton in Hsub. lia. }
  rewrite lookup_delete_ne by congruence. exact Hcached.
Qed.

(** Capacity 2: red and green are cached, green was used last; blue evicts
    red and green survives. *)
Lemma ColorCache_most_recent_survives_witness :
  let red := mkColorRequest (example_native 11) 255 0 0 1 in
  let green := mkColorRequest (example_native 12) 0 255 0 1 in
  let blue := mkColorRequest (example_native 13) 0 0 255 1 in
  let c := ColorCache_run [OpGetColor red] (ColorCache.new 2) in
  let c1 := snd (request_color green c) in
  let c2 := snd (request_color blue c1) in
  ColorCache.cache_ c2 !! rq_key green = Some 12.
Proof.
  cbv zeta.
  apply (ColorCache_most_recent_survives 2
           [OpGetColor (mkColorRequest (example_native 11) 255 0 0 1)]
           (mkColorRequest (example_native 12) 0 255 0 1)
           (mkColorRequest (example_native 13) 0 0 255 1) 12).
  - lia.
  - vm_compute. intros H. discriminate H.
  - vm_compute. reflexivity.
Defined.

(** With capacity 1 the colour used last is the one evicted. *)
Example ColorCache_capacity_one :
  let red := mkColorRequest (example_native 11) 255 0 0 1 in
  let green := mkColorRequest (example_native 12) 0 255 0 1 in
  let c2 := snd (request_color green (snd (request_color red (ColorCache.new 1)))) in
  ColorCache.cache_ c2 !! rq_key red = None /\ ColorCache.cache_ c2 !! rq_key green = Some 12.
Proof. cbv zeta. split; vm_compute; reflexivity. Qed.

(** ** The font cache stays small *)

Section Triples.

Context {S : Type} (E : S -> Prop).

Lemma triple_ret {A : Type} (P : S -> Prop) (Q : A -> S -> Prop) (a : A) :
  (forall s, P s -> Q a s) -> triple P (mret a : M S A) Q E.
Proof. intros H s Hs. apply H. exact Hs. Qed.

Lemma triple_bind {A B : Type} (P : S -> Prop) (Q1 : A -> S -> Prop) (Q2 : B -> S -> Prop)
    (m : M S A) (f : A -> M S B) :
  triple P m Q1 E -> (forall a, triple (Q1 a) (f a) Q2 E) -> triple P (m ≫= f) Q2 E.
Proof.
  intros Hm Hf s Hs. rewrite bind_unfold. specialize (Hm s Hs).
  destruct (m s) as [[a|what|] s1]; [apply Hf; exact Hm | exact Hm | exact Hm].
Qed.

Lemma triple_get_state (P : S -> Prop) :
  triple P (get_state : M S S) (fun a s => a = s /\ P s) E.
Proof. intros s Hs. split; [reflexivity | exact Hs]. Qed.

Lemma triple_grid_at (P : S -> Prop) (grid : list (list Cell)) (row col : Z) :
  (forall s, P s -> E s) ->
  triple P (grid_at grid row col : M S Cell) (fun _ s => P s) E.
Proof.
  intros HE s Hs. unfold grid_at. destruct (grid_cell grid row col); [exact Hs|].
  apply HE. exact Hs.
Qed.

Lemma triple_for_range (I : S -> Prop) (stop : Z) (body : Z -> M S Z) (fuel : nat) :
  (forall j, triple I (body j) (fun _ s => I s) E) ->
  forall i, triple I (for_range fuel i stop body) (fun _ s => I s) E.
Proof.
  intros Hbody. induction fuel as [|fuel IH]; intros i; cbn [for_range].
  - apply triple_ret. auto.
  - destruct (i <? stop); [|apply triple_ret; auto].
    apply (triple_bind _ (fun _ s => I s)); [apply Hbody|]. intros skip. apply IH.
Qed.

End Triples.

Lemma land_1_cases (a : Z) : Z.land a 1 = 0 \/ Z.land a 1 = 1.
Proof.
  change 1 with (Z.ones 1) at 1 2. rewrite Z.land_ones by lia.
  pose proof (Z.mod_pos_bound a (2 ^ 1) ltac:(lia)) as H. change (2 ^ 1) with 2 in *. lia.
Qed.

Lemma get_font_bounded (os : Native) (attributes : Z) (f : FontCache.t) :
  attributes = 0 \/ attributes = 1 -> fonts_bounded f ->
  fonts_bounded (snd (FontCache.get_font os attributes f)).
Proof.
  intros Ha Hf. unfold FontCache.get_font.
  destruct (FontCache.cache_ f !! attributes); cbn [snd]; [exact Hf|].
  intros k. cbn [FontCache.cache_]. destruct (decide (k = attributes)) as [->|Hne].
  - intros _. exact Ha.
  - rewrite lookup_insert_ne by congruence. apply Hf.
Qed.

Lemma get_attributes_bounded (os : Native) (fa rgb : Z) (ul : bool) (s : Caches) :
  fa = 0 \/ fa = 1 -> fonts_bounded (g_font_cache s) ->
  fonts_bounded (g_font_cache (snd (get_attributes os fa rgb ul s))).
Proof.
  intros Ha Hf. unfold get_attributes. cbv zeta.
  destruct (AttributeDictCache.cache_ (g_attr_dict_cache s) !! _); [exact Hf|].
  pose proof (get_font_bounded os fa (g_font_cache s) Ha Hf) as Hfc.
  destruct (FontCache.get_font os fa (g_font_cache s)) as [font fc]. cbn [snd] in Hfc.
  destruct font as [font|]; [|exact Hfc].
  destruct (ColorCache.get_color os _ _ _ 1 (g_color_cache s)) as [[color|what|] cc];
    [|exact Hfc|exact Hfc].
  destruct (ul && _); [exact Hfc|].
  destruct (CFDictionaryCreate os font color _); exact Hfc.
Qed.

Section FontsBounded.

Variable os : Native.
Variable grid : list (list Cell).
Variable color_pairs : gmap Z ColorPair.
Variable dirty_cells : CellRect.
Variables char_width char_height : Q.
Variables rows cols : Z.
Variables offset_x offset_y : Q.
Variable font_ascent : Q.

Local Abbreviation inv := pass_fonts_bounded.
Local Abbreviation keeps m := (triple inv m (fun _ st => inv st) inv).

Lemma lookup_attributes_bounded (fa rgb : Z) (ul : bool) :
  fa = 0 \/ fa = 1 -> keeps (lookup_attributes os fa rgb ul).
Proof.
  intros Ha st [Hf Hb]. unfold lookup_attributes.
  pose proof (get_attributes_bounded os fa rgb ul (cp_caches st) Ha Hf) as H.
  destruct (get_attributes os fa rgb ul (cp_caches st)) as [[d|what|] caches]; cbn [snd] in H;
    (split; [exact H | exact Hb]).
Qed.

Lemma draw_character_batch_bounded (batch : CharacterBatch) :
  cb_font_attributes batch = 0 \/ cb_font_attributes batch = 1 ->
  keeps (draw_character_batch os char_width char_height font_ascent batch).
Proof.
  intros Ha. unfold draw_character_batch.
  apply (triple_bind inv _ (fun _ st => inv st)); [apply lookup_attributes_bounded; exact Ha|].
  intros attrs. destruct (bool_decide _); [apply triple_ret; auto|].
  destruct (font_to_use os batch (dict_font attrs)) as [font allocated].
  destruct (negb _); [apply triple_ret; auto|].
  intros st Hst. exact Hst.
Qed.

Lemma set_current_batch_bounded (b : option CharacterBatch) :
  (forall batch, b = Some batch -> cb_font_attributes batch = 0 \/ cb_font_attributes batch = 1) ->
  keeps (set_current_batch b).
Proof. intros Hb st [Hf _]. split; [exact Hf | exact Hb]. Qed.

(** A fact that holds of every state satisfying the precondition may be
    used to establish the triple. *)
Lemma triple_with_fact {S A : Type} (F : Prop) (P : S -> Prop) (m : M S A)
    (Q : A -> S -> Prop) (E : S -> Prop) :
  (forall s, P s -> F) -> (F -> triple P m Q E) -> triple P m Q E.
Proof. intros HF H s Hs. apply (H (HF s Hs)). exact Hs. Qed.

Lemma triple_weaken {S A : Type} (P P' : S -> Prop) (m : M S A)
    (Q : A -> S -> Prop) (E : S -> Prop) :
  (forall s, P' s -> P s) -> triple P m Q E -> triple P' m Q E.
Proof. intros HP H s Hs. apply H. apply HP. exact Hs. Qed.

Lemma flush_batch_bounded :
  keeps (flush_batch os char_width char_height font_ascent).
Proof.
  unfold flush_batch.
  eapply (triple_bind inv); [apply (triple_get_state inv inv)|].
  intros st0. destruct (cp_current_batch st0) as [batch|] eqn:Eb.
  - apply (triple_with_fact (cb_font_attributes batch = 0 \/ cb_font_attributes batch = 1)).
    { intros st [-> [_ H]]. apply H. exact Eb. }
    intros Ha. apply (triple_weaken inv); [intros st [_ H]; exact H|].
    apply (triple_bind inv _ (fun _ st => inv st));
      [apply draw_character_batch_bounded; exact Ha|].
    intros _. apply set_current_batch_bounded. discriminate.
  - apply triple_ret. intros st [_ H]. exact H.
Qed.

Lemma character_cell_bounded (row col : Z) :
  keeps (character_cell os grid color_pairs dirty_cells char_width char_height rows cols
           offset_x offset_y font_ascent row col).
Proof.
  assert (Hflush : forall k : Z,
            keeps (flush_batch os char_width char_height font_ascent;; mret k)).
  { intros k. apply (triple_bind inv _ (fun _ st => inv st)); [apply flush_batch_bounded|].
    intros _. apply triple_ret. auto. }
  unfold character_cell.
  apply (triple_bind inv _ (fun _ st => inv st)); [apply triple_grid_at; auto|]. intros cell.
  destruct (bool_decide _); [apply Hflush|].
  destruct (_ && _); [apply Hflush|].
  apply (triple_bind inv _ (fun _ st => inv st)).
  { unfold combine_variation_selector. destruct (_ && _); [|apply triple_ret; auto].
    apply (triple_bind inv _ (fun _ st => inv st)); [apply triple_grid_at; auto|].
    intros next. destruct (single_unit _ _); apply triple_ret; auto. }
  intros combined. destruct (color_pairs !! _); [|apply Hflush].
  apply (triple_bind inv _ (fun _ st => inv st));
    [apply lookup_attributes_bounded; apply land_1_cases|].
  intros attrs. destruct (_ =? -2); [apply Hflush|].
  eapply (triple_bind inv); [apply (triple_get_state inv inv)|]. intros st0.
  destruct (cp_current_batch st0) as [batch|] eqn:Eb.
  - apply (triple_with_fact (cb_font_attributes batch = 0 \/ cb_font_attributes batch = 1)).
    { intros st [-> [_ H]]. apply H. exact Eb. }
    intros Ha. apply (triple_weaken inv); [intros st [_ H]; exact H|].
    destruct (can_extend _ _ _ _ _ _ _ _).
    + apply (triple_bind inv _ (fun _ st => inv st)); [|intros _; apply triple_ret; auto].
      apply set_current_batch_bounded. intros b [= <-]. exact Ha.
    + apply (triple_bind inv _ (fun _ st => inv st));
        [apply draw_character_batch_bounded; exact Ha|]. intros _.
      apply (triple_bind inv _ (fun _ st => inv st)); [|intros _; apply triple_ret; auto].
      apply set_current_batch_bounded. intros b [= <-]. apply land_1_cases.
  - apply (triple_weaken inv); [intros st [_ H]; exact H|].
    apply (triple_bind inv _ (fun _ st => inv st)); [|intros _; apply triple_ret; auto].
    apply set_current_batch_bounded. intros b [= <-]. apply land_1_cases.
Qed.

Lemma render_characters_bounded :
  keeps (render_characters os grid color_pairs dirty_cells char_width char_height rows cols
           offset_x offset_y font_ascent).
Proof.
  unfold render_characters.
  apply (triple_bind inv _ (fun _ st => inv st)); [|intros _; apply flush_batch_bounded].
  apply triple_for_range. intros row. unfold character_row.
  apply (triple_bind inv _ (fun _ st => inv st)).
  - apply triple_for_range. intros col. apply character_cell_bounded.
  - intros _. apply (triple_bind inv _ (fun _ st => inv st)); [apply flush_batch_bounded|].
    intros _. apply triple_ret. auto.
Qed.

End FontsBounded.

Lemma render_pipeline_bounded (os : Native) (a : FrameArgs) (dirty_rect : CGRect)
    (cs : Caches) (base_font : Z) :
  fonts_bounded (g_font_cache cs) ->
  fonts_bounded (g_font_cache (snd (fst (render_pipeline os a dirty_rect cs base_font)))).
Proof.
  intros Hf. unfold render_pipeline.
  destruct (parse_grid _ _ _) as [grid|what|]; [|exact Hf|exact Hf].
  destruct (parse_color_pairs _) as [table|what|]; [|exact Hf|exact Hf].
  cbv zeta.
  destruct (render_backgrounds _ _ _ _ _ _ _ _ _ _) as [[u|what|] batcher];
    [|exact Hf|exact Hf].
  match goal with |- context [render_characters os grid table ?d ?cw ?ch ?r ?c ?ox ?oy ?fa ?st] =>
    pose proof (render_characters_bounded os grid table d cw ch r c ox oy fa st) as H;
    destruct (render_characters os grid table d cw ch r c ox oy fa st) as [[u'|what|] st']
  end.
  - destruct H as [H _]; [split; [exact Hf | discriminate]|].
    destruct (render_marked_text _ _ _ _ _ _) as [r cc]. exact H.
  - destruct H as [H _]; [split; [exact Hf | discriminate] | exact H].
  - destruct H as [H _]; [split; [exact Hf | discriminate] | exact H].
Qed.

Lemma render_frame_bounded (os : Native) (a : FrameArgs) (g : Renderer) :
  renderer_fonts_bounded g -> renderer_fonts_bounded (snd (fst (render_frame os a g))).
Proof.
  intros Hg. unfold render_frame.
  destruct (context_ptr a =? 0); [exact Hg|].
  destruct (validate_frame a) as [[exc message]|rect]; [exact Hg|].
  assert (Hinit : renderer_fonts_bounded
                    (snd (initialize_caches os (font_names_obj a) (font_size a) g))).
  { unfold initialize_caches. cbv zeta. destruct (negb _); [exact Hg|].
    destruct (CFStringCreateWithCString os _); [|intros cs bf H; discriminate H].
    destruct (create_base_font os _ _); [|intros cs bf H; discriminate H].
    intros cs bf [= <- _]. intros k [x Hx]. cbn in Hx. rewrite lookup_empty in Hx.
    discriminate Hx. }
  destruct (initialize_caches os (font_names_obj a) (font_size a) g) as [[u|what|] g1];
    cbn [snd] in Hinit; [|exact Hinit|exact Hinit].
  destruct (caches g1) as [[cs base_font]|] eqn:Ec; [|exact Hinit].
  pose proof (render_pipeline_bounded os a rect cs base_font (Hinit cs base_font Ec)) as Hp.
  destruct (render_pipeline os a rect cs base_font) as [[r cs'] drawn]. cbn [fst snd] in *.
  intros cs0 bf0 [= <- _]. exact Hp.
Qed.

Lemma clear_caches_bounded (g : Renderer) : renderer_fonts_bounded (clear_caches g).
Proof.
  unfold clear_caches. destruct (caches g) as [[cs base_font]|] eqn:Ec.
  - intros cs0 bf0 [= <- _]. intros k [x Hx]. cbn in Hx. rewrite lookup_empty in Hx.
    discriminate Hx.
  - intros cs0 bf0 H. congruence.
Qed.

(** X25.  The font cache stays small.  In any session that starts with an
    uninitialised renderer -- frames of any content, valid or not, with any
    native layer, and [clear_caches] calls in between -- the font cache only
    ever holds fonts for the attribute values 0 and 1: the character pass
    asks for fonts by the bold bit alone.  So it never holds more than two
    fonts. *)
Theorem font_cache_holds_at_most_two_fonts (ops : list SessionOp) :
  match caches (session ops no_renderer) with
  | Some (cs, _) =>
      (forall k, is_Some (FontCache.cache_ (g_font_cache cs) !! k) -> k = 0 \/ k = 1) /\
      (size (FontCache.cache_ (g_font_cache cs)) <= 2)%nat
  | None => True
  end.
Proof.
  assert (Hall : forall ops g, renderer_fonts_bounded g -> renderer_fonts_bounded (session ops g)).
  { clear ops. induction ops as [|op ops IH]; intros g Hg; [exact Hg|].
    change (session (op :: ops) g) with (session ops (session_step g op)).
    apply IH. destruct op as [os a|]; [apply render_frame_bounded; exact Hg|].
    apply clear_caches_bounded. }
  destruct (caches (session ops no_renderer)) as [[cs base_font]|] eqn:Hc; [|exact I].
  assert (Hb : fonts_bounded (g_font_cache cs)).
  { apply (Hall ops no_renderer) with (base_font := base_font); [|exact Hc].
    intros cs0 bf0 H. cbn in H. discriminate H. }
  split; [exact Hb|].
  assert (Hsub : dom (FontCache.cache_ (g_font_cache cs)) ⊆ ({[0; 1]} : gset Z)).
  { intros k Hk. apply elem_of_dom in Hk. destruct (Hb k Hk) as [->| ->]; set_solver. }
  apply subseteq_size in Hsub. rewrite size_dom in Hsub.
  assert (E : size ({[0; 1]} : gset Z) = 2%nat) by (vm_compute; reflexivity).
  lia.
Qed.

(** Two frames with a bold and a plain cell: the cache holds the base font
    for 0 and its bold copy for 1. *)
Example font_cache_example :
  let bold_frame :=
    mkFrameArgs 1
      (PyList [PyList [PyTuple [PyUnicode [65]; PyLong 0; PyLong 1; PyBool false];
                       PyTuple [PyUnicode [66]; PyLong 0; PyLong 6; PyBool false]]])
      (color_pairs_obj (example_frame 1)) (dirty_rect_obj (example_frame 1))
      8 16 1 2 0 0 false 0 0 [] 0 0 12 PyNone 12 in
  let g := session [OpRenderFrame (example_native 7) bold_frame;
                    OpRenderFrame (example_native 8) bold_frame] no_renderer in
  exists cs, caches g = Some (cs, 100) /\
             FontCache.cache_ (g_font_cache cs) !! 0 = Some (Some 100) /\
             FontCache.cache_ (g_font_cache cs) !! 1 = Some (Some 1100) /\
             size (FontCache.cache_ (g_font_cache cs)) = 2%nat.
Proof. cbv zeta. eexists. split; [vm_compute; reflexivity|]. repeat split; vm_compute; reflexivity. Qed.
